(** * DataProcessor: a shallow embedding of [src/core/data_processor.py]

    The development follows the Python module function by function.
    Tables are modelled at the granularity the code observes them:

    - a cell is a [value] (Python [None], the float NaN, a [str], an [int]
      or a float, the latter as a rational);
    - a generic [DataFrame] is a list of column labels and a list of rows,
      each row a finite map from column label to cell; it carries pandas'
      default positional index; the year summary builder, which clears
      cells by index label, is also given on a table that comes with an
      index of its own;
    - the pivot table and the hierarchical summary have fixed schemas and
      are records;
    - Python [str] values are UTF-8 byte strings, whose byte order is the
      code point order Python compares by.

    [get_theoretical_charge] lives in [config.rules], outside this module,
    and [pd.to_datetime] in pandas: both are section variables.

    The file has three parts: the functions of the module, first as
    functions on table values and then as computations on a store of table
    objects; the vocabulary the properties are stated in, with the sample
    tables; the properties. *)

From Stdlib Require Import QArith Ascii String.
From stdpp Require Import gmap strings list sorting.

Local Open Scope string_scope.
Local Open Scope list_scope.

(** ** Python strings *)

Module PyStr.

Definition code (a : ascii) : N := N_of_ascii a.

(** [Py_UNICODE_ISSPACE] on the code points below 128. *)
Definition space1 (a : ascii) : bool :=
  let n := code a in
  ((9 <=? n) && (n <=? 13) || (28 <=? n) && (n <=? 32))%N.

(** U+0085 and U+00A0, two bytes each. *)
Definition space2 (a b : ascii) : bool :=
  ((code a =? 194) && ((code b =? 133) || (code b =? 160)))%N.

(** U+1680, U+2000..U+200A, U+2028, U+2029, U+202F, U+205F, U+3000. *)
Definition space3 (a b c : ascii) : bool :=
  let x := code a in let y := code b in let z := code c in
  ((x =? 225) && (y =? 154) && (z =? 128)
   || (x =? 226) && (y =? 128)
      && ((128 <=? z) && (z <=? 138) || (z =? 168) || (z =? 169) || (z =? 175))
   || (x =? 226) && (y =? 129) && (z =? 159)
   || (x =? 227) && (y =? 128) && (z =? 128))%N.

(** Drops the leading white space of [s]; with [back] the string is read
    from its end, so a multi-byte character arrives last byte first. *)
Fixpoint strip_front (back : bool) (s : string) : string :=
  match s with
  | "" => ""
  | String a s1 =>
      if space1 a then strip_front back s1 else
      match s1 with
      | "" => s
      | String b s2 =>
          if (if back then space2 b a else space2 a b)
          then strip_front back s2 else
          match s2 with
          | "" => s
          | String c s3 =>
              if (if back then space3 c b a else space3 a b c)
              then strip_front back s3 else s
          end
      end
  end.

Definition lstrip (s : string) : string := strip_front false s.
Definition rstrip (s : string) : string :=
  String.rev (strip_front true (String.rev s)).

(** [s.strip()] *)
Definition strip (s : string) : string := rstrip (lstrip s).

(** [s.startswith(p)] *)
Definition startswith (s p : string) : bool := String.prefix p s.

(** Truth value of a [str]. *)
Definition nonempty (s : string) : bool :=
  match s with "" => false | _ => true end.

End PyStr.

(** ** Cells *)

Inductive value :=
| VNone
| VNaN
| VStr (s : string)
| VInt (z : Z)
| VNum (q : Q).

Global Instance Q_eq_dec : EqDecision Q.
Proof. solve_decision. Defined.

Global Instance value_eq_dec : EqDecision value.
Proof. solve_decision. Defined.

Definition Q_to_pair (q : Q) : Z * positive := (Qnum q, Qden q).
Definition Q_of_pair (p : Z * positive) : Q := Qmake p.1 p.2.

Lemma Q_of_to_pair q : Q_of_pair (Q_to_pair q) = q.
Proof. by destruct q. Qed.

Global Instance Q_countable : Countable Q :=
  inj_countable' Q_to_pair Q_of_pair Q_of_to_pair.

Definition value_to_sum (v : value) : () + () + (string + (Z + Q)) :=
  match v with
  | VNone => inl (inl ())
  | VNaN => inl (inr ())
  | VStr s => inr (inl s)
  | VInt z => inr (inr (inl z))
  | VNum q => inr (inr (inr q))
  end.

Definition value_of_sum (e : () + () + (string + (Z + Q))) : value :=
  match e with
  | inl (inl _) => VNone
  | inl (inr _) => VNaN
  | inr (inl s) => VStr s
  | inr (inr (inl z)) => VInt z
  | inr (inr (inr q)) => VNum q
  end.

Lemma value_of_to_sum v : value_of_sum (value_to_sum v) = v.
Proof. by destruct v. Qed.

Global Instance value_countable : Countable value :=
  inj_countable' value_to_sum value_of_sum value_of_to_sum.

(** [bool(v)] *)
Definition truthy (v : value) : bool :=
  match v with
  | VNone => false
  | VNaN => true
  | VStr s => PyStr.nonempty s
  | VInt z => negb (z =? 0)%Z
  | VNum q => negb (Qeq_bool q 0)
  end.

(** [pd.isna(v)] *)
Definition isna (v : value) : bool :=
  match v with VNone | VNaN => true | _ => false end.

(** [d.get(k, default)] for a dict literal with [str] keys and values. *)
Definition mapping_get (mapping : gmap string string) (k default : value) : value :=
  match k with
  | VStr s => match mapping !! s with Some t => VStr t | None => default end
  | _ => default
  end.

(** ** Theoretical charge resolver *)

Definition connection_level_mapping : gmap string string :=
  list_to_map
    [ ("Connexion Recette int", "Connexion EDI");
      ("Connexion Pré-produ", "Connexion EDI");
      ("Connexion Développe", "Connexion EDI");
      ("Connexion Recette", "Connexion EDI");
      ("Connexion Production", "Connexion EDI") ].

Definition normalize_connection_level (connection_level : value) : value :=
  if negb (truthy connection_level) then VNone
  else mapping_get connection_level_mapping connection_level connection_level.

Definition project_phase_mapping : gmap string string :=
  list_to_map
    [ ("Connexion Recette int", "Recette interne");
      ("Connexion Pré-produ", "Pré-production");
      ("Connexion Développe", "Développement");
      ("Connexion Recette", "Recette utilisateur");
      ("Connexion Production", "En production (VSR)") ].

Definition normalize_project_phase (project_phase : value) : value :=
  if negb (truthy project_phase) then VNone
  else mapping_get project_phase_mapping project_phase project_phase.

Section Resolver.

(** [config.rules.get_theoretical_charge]; [None] is its not-found answer. *)
Variable get_theoretical_charge : value → value → option Q.

Definition calculate_theoretical_charge (connection_level project_phase : value)
  : option Q :=
  let normalized_connection := normalize_connection_level connection_level in
  let normalized_phase := normalize_project_phase project_phase in
  get_theoretical_charge normalized_connection normalized_phase.

End Resolver.

(** ** Exceptions *)

Inductive exn :=
| KeyError (key : string)
| TypeError.

Inductive result (A : Type) :=
| Ok (a : A)
| Raise (e : exn).

Arguments Ok {A} a.
Arguments Raise {A} e.

Global Instance result_ret : MRet result := λ A a, Ok a.
Global Instance result_bind : MBind result := λ A B f m,
  match m with Ok a => f a | Raise e => Raise e end.

(** A [for] loop whose body may raise. *)
Fixpoint for_each {A S : Type} (body : S → A → result S) (l : list A) (s : S)
  : result S :=
  match l with
  | [] => Ok s
  | x :: l' => s' ← body s x; for_each body l' s'
  end.

(** ** Generic tables *)

(** A row as [iterrows] yields it: column label to cell. A label of the
    table with no entry in the map reads as NaN. *)
Abbreviation Series := (gmap string value).

Record DataFrame := {
  columns : list string;
  rows : list Series
}.

(** [c in df.columns] *)
Definition has_column (cols : list string) (c : string) : bool :=
  bool_decide (c ∈ cols).

(** [row[c]] *)
Definition getitem (cols : list string) (row : Series) (c : string) : result value :=
  if has_column cols c then Ok (default VNaN (row !! c)) else Raise (KeyError c).

(** [row.get(c, dflt)] *)
Definition row_get (cols : list string) (row : Series) (c : string) (dflt : value)
  : value :=
  if has_column cols c then default VNaN (row !! c) else dflt.

(** ** Schema validator *)

Definition validate_dataframe (df : DataFrame) (required_columns : list string)
  : bool * list string :=
  let available_columns := columns df in
  let missing_columns :=
    filter (λ col, col ∉ available_columns) required_columns in
  (bool_decide (length missing_columns = 0), missing_columns).

(** ** Lookup builder *)

(** A Python dict. *)
Abbreviation dict := (gmap value value).

(** Body of the loop of [create_connection_dict]. *)
Definition connection_dict_step (cols : list string) (column_name : string)
    (result_dict : dict) (row : Series) : result dict :=
  project_name ← getitem cols row "Nom";
  if negb (isna (row_get cols row column_name VNaN)) then
    v ← getitem cols row column_name;
    Ok (<[project_name := v]> result_dict)
  else Ok result_dict.

Definition create_connection_dict (deployments_df : DataFrame) (column_name : string)
  : result dict :=
  let result_dict : dict := ∅ in
  if has_column (columns deployments_df) column_name then
    for_each (connection_dict_step (columns deployments_df) column_name)
      (rows deployments_df) result_dict
  else Ok result_dict.

(** The reading of the spec: the first non-null value of [column_name] among
    the rows named [name], in row order. *)
Definition first_non_null (df : DataFrame) (column_name : string) (name : value)
  : option value :=
  head (filter (λ v, isna v = false)
          ((λ row, default VNaN (row !! column_name))
             <$> filter (λ row, default VNaN (row !! "Nom") = name) (rows df))).

(** What the loop leaves: the last non-null value among the rows named [name]. *)
Definition last_non_null (df : DataFrame) (column_name : string) (name : value)
  : option value :=
  last (filter (λ v, isna v = false)
          ((λ row, default VNaN (row !! column_name))
             <$> filter (λ row, default VNaN (row !! "Nom") = name) (rows df))).

(** ** Charge calculator *)

(** One cell of [series / 8]. *)
Definition div8 (v : value) : result value :=
  match v with
  | VNum q => Ok (VNum (q / 8))
  | VInt z => Ok (VNum (inject_Z z / 8))
  | VNone | VNaN => Ok VNaN
  | VStr _ => Raise TypeError
  end.

(** [df[c]]: the column as a list of cells. *)
Definition getcol (df : DataFrame) (c : string) : result (list value) :=
  if has_column (columns df) c
  then Ok ((λ row, default VNaN (row !! c)) <$> rows df)
  else Raise (KeyError c).

(** [df[c] = vals]: overwrites the column or appends it. *)
Definition setcol (df : DataFrame) (c : string) (vals : list value) : DataFrame :=
  {| columns := if has_column (columns df) c then columns df else columns df ++ [c];
     rows := zip_with (λ row v, <[c := v]> row) (rows df) vals |}.

Definition calculate_charge_jh (df : DataFrame) : result DataFrame :=
  let df_copy := df in
  soumise ← getcol df_copy "Soumise (h)";
  charge ← mapM div8 soumise;
  Ok (setcol df_copy "Charge JH" charge).

(** ** Sorting *)

(** [sort_values] is stable: a row is placed before the first row of the
    sorted rest that does not come before it. *)
Fixpoint insert_by {A : Type} (leb : A → A → bool) (x : A) (l : list A) : list A :=
  match l with
  | [] => [x]
  | y :: l' => if leb x y then x :: l else y :: insert_by leb x l'
  end.

Definition sort_by {A : Type} (leb : A → A → bool) (l : list A) : list A :=
  foldr (insert_by leb) [] l.

(** ** Pivot table and hierarchical summary *)

(** A row of the resource by project pivot table. 'Charge JH' is a float
    column, NaN being [None]. *)
Record pivot_row := {
  Ressource : string;
  Projet : string;
  Charge_JH : option Q;
  Montant_total : value;
  Derniere_Note : value;
  Duree : value
}.

(** A row of the summary. The float columns hold [None] for NaN, which is
    also what a cell never assigned holds. *)
Record summary_row := {
  resource_projet : option string;
  charge_jh : option Q;
  somme_de_charge_jh : option Q;
  niveau_de_connexion : value;
  phase_du_projet : value;
  charge_theorique : option Q;
  ecart : option Q;
  montant_total : value;
  derniere_note : value;
  duree : value
}.

(** [sort_values(['Ressource', 'Projet'])] *)
Definition pivot_leb (a b : pivot_row) : bool :=
  match String.compare (Ressource a) (Ressource b) with
  | Lt => true
  | Eq => String.leb (Projet a) (Projet b)
  | Gt => false
  end.

Definition sort_pivot (pivot_df : list pivot_row) : list pivot_row :=
  sort_by pivot_leb pivot_df.

(** [d.get(k, dflt)] *)
Definition dict_get (d : dict) (k dflt : value) : value := default dflt (d !! k).

(** [series.sum()], which skips NaN. *)
Definition sum_skipna (l : list (option Q)) : Q :=
  foldl Qplus 0%Q (omap id l).

(** [theoretical_charge - charge] *)
Definition minus_charge (theoretical_charge : Q) (charge : option Q) : option Q :=
  (λ c, (theoretical_charge - c)%Q) <$> charge.

Definition indent : string := "    ".

Section Summary.

Variable get_theoretical_charge : value → value → option Q.

Variables connection_dict phase_dict : dict.

(** The theoretical charge both passes compute for a project. *)
Definition theoretical_charge_of (project : string) : option Q :=
  let connection_level := dict_get connection_dict (VStr project) (VStr "") in
  let project_phase := dict_get phase_dict (VStr project) (VStr "") in
  if truthy connection_level && truthy project_phase
  then calculate_theoretical_charge get_theoretical_charge connection_level project_phase
  else None.

(** First pass: the ecarts of each resource. *)
Definition first_pass_step (resource_ecarts : gmap string (list (option Q)))
    (row : pivot_row) : gmap string (list (option Q)) :=
  let resource := Ressource row in
  let charge := Charge_JH row in
  match theoretical_charge_of (Projet row) with
  | Some theoretical_charge =>
      let ecart := minus_charge theoretical_charge charge in
      <[resource := default [] (resource_ecarts !! resource) ++ [ecart]]> resource_ecarts
  | None => resource_ecarts
  end.

(** The row written for a resource: its name and the sum of its charges. *)
Definition resource_row (resource : string) (resource_charge : Q) : summary_row :=
  {| resource_projet := Some resource;
     charge_jh := None;
     somme_de_charge_jh := Some resource_charge;
     niveau_de_connexion := VNaN;
     phase_du_projet := VNaN;
     charge_theorique := None;
     ecart := None;
     montant_total := VNaN;
     derniere_note := VNaN;
     duree := VNaN |}.

(** The row written for a project. *)
Definition project_row (row : pivot_row) : summary_row :=
  let project := Projet row in
  let charge := Charge_JH row in
  let connection_level := dict_get connection_dict (VStr project) (VStr "") in
  let project_phase := dict_get phase_dict (VStr project) (VStr "") in
  let theoretical_charge := theoretical_charge_of project in
  {| resource_projet := Some (indent +:+ project);
     charge_jh := charge;
     somme_de_charge_jh := None;
     niveau_de_connexion := connection_level;
     phase_du_projet := project_phase;
     charge_theorique := theoretical_charge;
     ecart := theoretical_charge ≫= λ t, minus_charge t charge;
     montant_total := Montant_total row;
     derniere_note := Derniere_Note row;
     duree := Duree row |}.

(** Second pass: [result_df] grows by one row per assignment at a new
    [row_index]; the state is [current_resource] and [result_df]. *)
Definition second_pass_step (pivot_df : list pivot_row)
    (st : option string * list summary_row) (row : pivot_row)
  : option string * list summary_row :=
  let '(current_resource, result_df) := st in
  let resource := Ressource row in
  let '(current_resource, result_df) :=
    if bool_decide (Some resource ≠ current_resource) then
      let resource_charge :=
        sum_skipna (Charge_JH <$> filter (λ r, Ressource r = resource) pivot_df) in
      (Some resource, result_df ++ [resource_row resource resource_charge])
    else (current_resource, result_df) in
  (current_resource, result_df ++ [project_row row]).

(** [montant_dict] is accepted and never read: the amount comes from the row. *)
Definition format_resource_summary (pivot_df : list pivot_row) (montant_dict : dict)
  : list summary_row :=
  let pivot_df := sort_pivot pivot_df in
  let resource_ecarts := foldl first_pass_step ∅ pivot_df in
  (foldl (second_pass_step pivot_df) (None, []) pivot_df).2.

End Summary.

(** ** Reverse aggregator *)

Record resource_total := {
  total_Ressource : string;
  Somme_Charge_Theorique : Q;
  Nombre_de_projets : nat
}.

Record aggregator := {
  current_resource : option string;
  current_projects : list string;
  current_theoretical_charges : list (option Q);
  result_data : list resource_total
}.

(** [sum([charge for charge in charges if pd.notna(charge) and charge != 0])] *)
Definition theoretical_sum (charges : list (option Q)) : Q :=
  foldl Qplus 0%Q (filter (λ charge, negb (Qeq_bool charge 0)) (omap id charges)).

(** The record appended for the resource that is open, if one is. *)
Definition flush (st : aggregator) : list resource_total :=
  match current_resource st with
  | Some resource =>
      result_data st ++
        [ {| total_Ressource := resource;
             Somme_Charge_Theorique := theoretical_sum (current_theoretical_charges st);
             Nombre_de_projets := length (current_projects st) |} ]
  | None => result_data st
  end.

(** Body of the loop of the aggregator. The summary has a 'Charge
    Theorique' column, so [row.get('Charge Theorique', 0)] is the cell. *)
Definition aggregate_step (st : aggregator) (row : summary_row) : aggregator :=
  let resource_projet := default "" (resource_projet row) in
  if negb (PyStr.startswith resource_projet indent)
     && PyStr.nonempty (PyStr.strip resource_projet)
  then
    {| current_resource := Some (PyStr.strip resource_projet);
       current_projects := [];
       current_theoretical_charges := [];
       result_data := flush st |}
  else if PyStr.startswith resource_projet indent
          && bool_decide (is_Some (current_resource st))
  then
    let project_name := PyStr.strip resource_projet in
    let theoretical_charge := charge_theorique row in
    {| current_resource := current_resource st;
       current_projects := current_projects st ++ [project_name];
       current_theoretical_charges :=
         current_theoretical_charges st ++ [theoretical_charge];
       result_data := result_data st |}
  else st.

Definition aggregate_init : aggregator :=
  {| current_resource := None;
     current_projects := [];
     current_theoretical_charges := [];
     result_data := [] |}.

(** The list the loop and the last flush build, before it is sorted. *)
Definition collect_totals (resource_summary_df : list summary_row)
  : list resource_total :=
  flush (foldl aggregate_step aggregate_init resource_summary_df).

(** [sort_values('Somme Charge Théorique', ascending=False)]. Records with
    equal sums keep their order here; pandas does not fix it. *)
Definition total_geb (a b : resource_total) : bool :=
  Qle_bool (Somme_Charge_Theorique b) (Somme_Charge_Theorique a).

Definition create_theoretical_charge_by_resource_from_summary
    (resource_summary_df : list summary_row) : list resource_total :=
  match resource_summary_df with
  | [] => []
  | _ =>
      let result_data := collect_totals resource_summary_df in
      match result_data with
      | [] => []
      | _ => sort_by total_geb result_data
      end
  end.

(** ** Working tables *)

(** A table under construction: every row carries its index label, which
    [.loc] addresses rows by. Columns have no dtype: a write changes the
    cell it goes to and nothing else, whatever the column holds, as pandas 2
    does it; pandas 3 refuses to write a string into a column of numbers. *)
Record Frame := {
  fcolumns : list string;
  frows : list (nat * Series)
}.

(** A caller's table with its index, [0 .. n-1]. *)
Definition with_index (df : DataFrame) : Frame :=
  {| fcolumns := columns df;
     frows := zip (seq 0 (length (rows df))) (rows df) |}.

Definition cell (row : Series) (c : string) : value := default VNaN (row !! c).

(** [f[cols]]; a missing label is a [KeyError]. *)
Definition select_columns (f : Frame) (cols : list string) : result Frame :=
  match filter (λ c, c ∉ fcolumns f) cols with
  | [] => Ok {| fcolumns := cols; frows := frows f |}
  | c :: _ => Raise (KeyError c)
  end.

(** [f[mask]] *)
Definition filter_rows (mask : Series → bool) (f : Frame) : Frame :=
  {| fcolumns := fcolumns f;
     frows := filter (λ r, mask r.2 = true) (frows f) |}.

Definition add_column (cols : list string) (c : string) : list string :=
  if has_column cols c then cols else cols ++ [c].

(** [f[c] = e], with [e] computed row by row. *)
Definition assign (c : string) (e : Series → value) (f : Frame) : Frame :=
  {| fcolumns := add_column (fcolumns f) c;
     frows := (λ r, (r.1, <[c := e r.2]> r.2)) <$> frows f |}.

(** [f[c] = vals] for a column computed as a whole. *)
Definition assign_values (c : string) (vals : list value) (f : Frame) : Frame :=
  {| fcolumns := add_column (fcolumns f) c;
     frows := zip_with (λ r v, (r.1, <[c := v]> r.2)) (frows f) vals |}.

(** [f.loc[mask, c] = e] *)
Definition loc_mask (mask : Series → bool) (c : string) (e : Series → value)
    (f : Frame) : Frame :=
  {| fcolumns := add_column (fcolumns f) c;
     frows := (λ r, if mask r.2 then (r.1, <[c := e r.2]> r.2) else r) <$> frows f |}.

(** [f.loc[labels, c] = v] *)
Definition loc_labels (labels : list nat) (c : string) (v : value) (f : Frame)
  : Frame :=
  {| fcolumns := add_column (fcolumns f) c;
     frows := (λ r, if bool_decide (r.1 ∈ labels) then (r.1, <[c := v]> r.2) else r)
                <$> frows f |}.

(** [f.dropna(subset=[c])] *)
Definition dropna (c : string) (f : Frame) : Frame :=
  filter_rows (λ row, negb (isna (cell row c))) f.

(** [f.empty] *)
Definition frame_empty (f : Frame) : bool :=
  bool_decide (frows f = []) || bool_decide (fcolumns f = []).

(** [f.columns = new]: the cells keep their position. *)
Definition rename_columns (new : list string) (f : Frame) : Frame :=
  {| fcolumns := new;
     frows := (λ r, (r.1, list_to_map (zip new (cell r.2 <$> fcolumns f)) : Series))
                <$> frows f |}.

(** [series.unique()]: the distinct cells, in order of first appearance. *)
Fixpoint unique (l : list value) : list value :=
  match l with
  | [] => []
  | x :: l' => x :: filter (λ y, y ≠ x) (unique l')
  end.

(** The order [sort_values] puts cells in: numbers by value, then strings
    by code point, then missing cells. *)
Definition value_rank (v : value) : nat :=
  match v with
  | VInt _ | VNum _ => 0
  | VStr _ => 1
  | VNone | VNaN => 2
  end.

Definition value_number (v : value) : Q :=
  match v with
  | VInt z => inject_Z z
  | VNum q => q
  | _ => 0%Q
  end.

Definition value_leb (a b : value) : bool :=
  match a, b with
  | VStr s, VStr t => String.leb s t
  | _, _ =>
      (value_rank a <? value_rank b)%nat
      || (value_rank a =? value_rank b)%nat
         && Qle_bool (value_number a) (value_number b)
  end.

(** ** Year summary builder *)

Definition summary_columns : list string :=
  ["Année"; "Nombre de projets"; "Nom du projet"; "Dernière Note"].

(** [pd.DataFrame(columns=[...])] *)
Definition empty_summary : Frame :=
  {| fcolumns := summary_columns; frows := [] |}.

Definition default_phases : list value :=
  [ VStr "Cadrage / Spécifications";
    VStr "Recette interne";
    VStr "Développement";
    VStr "Recette utilisateur";
    VStr "Non démarré (nouveau projet)";
    VStr "Pré-production" ].

(** [sort_values(['Année', 'Nom du projet'])] *)
Definition year_name_leb (a b : nat * Series) : bool :=
  let ya := cell a.2 "Année" in
  let yb := cell b.2 "Année" in
  if negb (value_leb yb ya) then true
  else if negb (value_leb ya yb) then false
  else value_leb (cell a.2 "Nom du projet") (cell b.2 "Nom du projet").

Definition sort_year_name (f : Frame) : Frame :=
  {| fcolumns := fcolumns f; frows := sort_by year_name_leb (frows f) |}.

(** [groupby('Année')['Année'].transform('count')] at one row. *)
Definition year_count (rs : list (nat * Series)) (row : Series) : value :=
  VInt (Z.of_nat (length (filter (λ r, cell r.2 "Année" = cell row "Année") rs))).

(** One turn of the loop over the years: the labels of the rows of [year],
    all but the first of which lose year and count. *)
Definition clear_year (result_df : Frame) (year : value) : Frame :=
  let year_indices :=
    (filter (λ r, cell r.2 "Année" = year) (frows result_df)).*1 in
  if (1 <? length year_indices)%nat then
    loc_labels (tail year_indices) "Nombre de projets" (VStr "")
      (loc_labels (tail year_indices) "Année" (VStr "") result_df)
  else result_df.

Section YearSummary.

(** [pd.to_datetime(series, errors='coerce')] on a column, a cell that does
    not parse becoming a missing one, and [.dt.year] on a parsed cell. *)
Variable to_datetime : list value → list value.
Variable dt_year : value → Z.

Definition allowed_phases_of (phases_checked : option (list value)) : list value :=
  match phases_checked with
  | None | Some [] => default_phases
  | Some l => l
  end.

Definition columns_needed_of (deployments_df : DataFrame) : list string :=
  ["Nom"; "Date d'affectation"; "Phase du projet"]
  ++ (if has_column (columns deployments_df) "Date de création"
      then ["Date de création"] else [])
  ++ (if has_column (columns deployments_df) "Dernière Note"
      then ["Dernière Note"] else []).

(** The working copy up to the first [dropna]: the rows of an allowed
    phase that have an effective date. *)
Definition effective_dates (deployments_df : DataFrame)
    (phases_checked : option (list value)) : result Frame :=
  let allowed_phases := allowed_phases_of phases_checked in
  let columns_needed := columns_needed_of deployments_df in
  df_copy ← select_columns (with_index deployments_df) columns_needed;
  let df_copy :=
    filter_rows
      (λ row, bool_decide (cell row "Phase du projet" ∈ allowed_phases)) df_copy in
  let df_copy :=
    assign "Date effective" (λ row, cell row "Date d'affectation") df_copy in
  let df_copy :=
    if has_column (fcolumns df_copy) "Date de création" then
      loc_mask
        (λ row, isna (cell row "Date d'affectation")
                && negb (isna (cell row "Date de création")))
        "Date effective" (λ row, cell row "Date de création") df_copy
    else df_copy in
  Ok (dropna "Date effective" df_copy).

(** The conversion to dates and the second [dropna]. *)
Definition parse_dates (df_copy : Frame) : Frame :=
  let df_copy :=
    assign_values "Date effective"
      (to_datetime ((λ r, cell r.2 "Date effective") <$> frows df_copy)) df_copy in
  dropna "Date effective" df_copy.

(** The year column, the selection and the sort. *)
Definition year_sorted (df_copy : Frame) : result Frame :=
  let df_copy :=
    assign "Année" (λ row, VInt (dt_year (cell row "Date effective"))) df_copy in
  result_df ← select_columns df_copy ["Année"; "Nom"; "Dernière Note"];
  let result_df :=
    rename_columns ["Année"; "Nom du projet"; "Dernière Note"] result_df in
  Ok (sort_year_name result_df).

(** The count of each year and the blanking of 2024 and 2025. *)
Definition count_and_blank (result_df : Frame) : Frame :=
  let result_df :=
    assign "Nombre de projets" (year_count (frows result_df)) result_df in
  let mask_2024_2025 (row : Series) :=
    bool_decide (cell row "Année" ∈ [VInt 2024; VInt 2025]) in
  let result_df := loc_mask mask_2024_2025 "Nom du projet" (λ _, VStr "") result_df in
  loc_mask mask_2024_2025 "Dernière Note" (λ _, VStr "") result_df.

(** The loop over the years and the final order of the columns. *)
Definition clear_repeated_years (result_df : Frame) : result Frame :=
  let years := unique ((λ r, cell r.2 "Année") <$> frows result_df) in
  let result_df := foldl clear_year result_df years in
  select_columns result_df summary_columns.

Definition create_projects_by_month_summary (deployments_df : DataFrame)
    (phases_checked : option (list value)) : result Frame :=
  if negb (has_column (columns deployments_df) "Date d'affectation")
  then Ok empty_summary
  else
    df_copy ← effective_dates deployments_df phases_checked;
    if frame_empty df_copy then Ok empty_summary
    else
      let df_copy := parse_dates df_copy in
      if frame_empty df_copy then Ok empty_summary
      else
        result_df ← year_sorted df_copy;
        clear_repeated_years (count_and_blank result_df).

(** The function on a caller's table that comes with an index of its own:
    the working copy keeps the labels of the caller's rows, and the loop
    over the years clears by label. [create_projects_by_month_summary] is
    this function on the default index. *)
Definition columns_needed_indexed (deployments_df : Frame) : list string :=
  ["Nom"; "Date d'affectation"; "Phase du projet"]
  ++ (if has_column (fcolumns deployments_df) "Date de création"
      then ["Date de création"] else [])
  ++ (if has_column (fcolumns deployments_df) "Dernière Note"
      then ["Dernière Note"] else []).

Definition effective_dates_indexed (deployments_df : Frame)
    (phases_checked : option (list value)) : result Frame :=
  let allowed_phases := allowed_phases_of phases_checked in
  let columns_needed := columns_needed_indexed deployments_df in
  df_copy ← select_columns deployments_df columns_needed;
  let df_copy :=
    filter_rows
      (λ row, bool_decide (cell row "Phase du projet" ∈ allowed_phases)) df_copy in
  let df_copy :=
    assign "Date effective" (λ row, cell row "Date d'affectation") df_copy in
  let df_copy :=
    if has_column (fcolumns df_copy) "Date de création" then
      loc_mask
        (λ row, isna (cell row "Date d'affectation")
                && negb (isna (cell row "Date de création")))
        "Date effective" (λ row, cell row "Date de création") df_copy
    else df_copy in
  Ok (dropna "Date effective" df_copy).

Definition create_projects_by_month_summary_indexed (deployments_df : Frame)
    (phases_checked : option (list value)) : result Frame :=
  if negb (has_column (fcolumns deployments_df) "Date d'affectation")
  then Ok empty_summary
  else
    df_copy ← effective_dates_indexed deployments_df phases_checked;
    if frame_empty df_copy then Ok empty_summary
    else
      let df_copy := parse_dates df_copy in
      if frame_empty df_copy then Ok empty_summary
      else
        result_df ← year_sorted df_copy;
        clear_repeated_years (count_and_blank result_df).

End YearSummary.

(** ** Tables as objects *)

(** The functions above take and return tables as values. Python passes
    references, and [df[c] = ...] and [df.loc[...] = ...] write into the
    object they are applied to. The definitions below follow the same
    code over a store of table objects, one statement at a time: [new]
    is what pandas does when it returns a table of its own ([copy],
    [df[cols]], [df[mask]], [dropna], [sort_values], [pd.DataFrame]), and
    [write] is an assignment into an existing one. *)

Inductive table :=
| TDataFrame (df : DataFrame)
| TFrame (f : Frame)
| TPivot (p : list pivot_row)
| TSummary (s : list summary_row).

Abbreviation ref := positive.
Abbreviation heap := (gmap positive table).

Definition M (A : Type) : Type := heap → result A * heap.

Global Instance M_ret : MRet M := λ A a h, (Ok a, h).
Global Instance M_bind : MBind M := λ A B k m h,
  match m h with
  | (Ok a, h') => k a h'
  | (Raise e, h') => (Raise e, h')
  end.

Definition lift {A : Type} (x : result A) : M A := λ h, (x, h).

Definition new (t : table) : M ref :=
  λ h, let r := fresh (dom h) in (Ok r, <[r := t]> h).

Definition read (r : ref) : M table :=
  λ h, match h !! r with
       | Some t => (Ok t, h)
       | None => (Raise TypeError, h)
       end.

Definition write (r : ref) (t : table) : M () :=
  λ h, (Ok (), <[r := t]> h).

Definition read_dataframe (r : ref) : M DataFrame :=
  t ← read r; match t with TDataFrame df => mret df | _ => lift (Raise TypeError) end.

Definition read_frame (r : ref) : M Frame :=
  t ← read r; match t with TFrame f => mret f | _ => lift (Raise TypeError) end.

Definition read_pivot (r : ref) : M (list pivot_row) :=
  t ← read r; match t with TPivot p => mret p | _ => lift (Raise TypeError) end.

Definition read_summary (r : ref) : M (list summary_row) :=
  t ← read r; match t with TSummary s => mret s | _ => lift (Raise TypeError) end.

(** An assignment into the frame at [r]. *)
Definition update_frame (r : ref) (change : Frame → Frame) : M () :=
  f ← read_frame r; write r (TFrame (change f)).

(** A pandas call on the frame at [r] that returns a frame of its own. *)
Definition derive_frame (r : ref) (op : Frame → result Frame) : M ref :=
  f ← read_frame r; f' ← lift (op f); new (TFrame f').

(** A [for] loop over [l] whose body runs in the store. *)
Fixpoint for_m {A S : Type} (body : S → A → M S) (l : list A) (s : S) : M S :=
  match l with
  | [] => mret s
  | x :: l' => s' ← body s x; for_m body l' s'
  end.

Definition calculate_charge_jh_m (df : ref) : M ref :=
  d ← read_dataframe df;
  df_copy ← new (TDataFrame d);
  d ← read_dataframe df_copy;
  soumise ← lift (getcol d "Soumise (h)");
  charge ← lift (mapM div8 soumise);
  d ← read_dataframe df_copy;
  write df_copy (TDataFrame (setcol d "Charge JH" charge));;
  mret df_copy.

Section YearSummaryStore.

Variable to_datetime : list value → list value.
Variable dt_year : value → Z.

Definition create_projects_by_month_summary_m (deployments_df : ref)
    (phases_checked : option (list value)) : M ref :=
  d ← read_dataframe deployments_df;
  if negb (has_column (columns d) "Date d'affectation")
  then new (TFrame empty_summary)
  else
    let allowed_phases := allowed_phases_of phases_checked in
    let columns_needed := columns_needed_of d in
    selected ← lift (select_columns (with_index d) columns_needed);
    df_copy ← new (TFrame selected);
    df_copy ← derive_frame df_copy (λ f, Ok (filter_rows
      (λ row, bool_decide (cell row "Phase du projet" ∈ allowed_phases)) f));
    update_frame df_copy
      (assign "Date effective" (λ row, cell row "Date d'affectation"));;
    f ← read_frame df_copy;
    (if has_column (fcolumns f) "Date de création" then
       update_frame df_copy (loc_mask
         (λ row, isna (cell row "Date d'affectation")
                 && negb (isna (cell row "Date de création")))
         "Date effective" (λ row, cell row "Date de création"))
     else mret ());;
    df_copy ← derive_frame df_copy (λ f, Ok (dropna "Date effective" f));
    f ← read_frame df_copy;
    if frame_empty f then new (TFrame empty_summary)
    else
      update_frame df_copy (λ f, assign_values "Date effective"
        (to_datetime ((λ r, cell r.2 "Date effective") <$> frows f)) f);;
      df_copy ← derive_frame df_copy (λ f, Ok (dropna "Date effective" f));
      f ← read_frame df_copy;
      if frame_empty f then new (TFrame empty_summary)
      else
        update_frame df_copy
          (assign "Année" (λ row, VInt (dt_year (cell row "Date effective"))));;
        result_df ← derive_frame df_copy
          (λ f, select_columns f ["Année"; "Nom"; "Dernière Note"]);
        update_frame result_df
          (rename_columns ["Année"; "Nom du projet"; "Dernière Note"]);;
        result_df ← derive_frame result_df (λ f, Ok (sort_year_name f));
        update_frame result_df
          (λ f, assign "Nombre de projets" (year_count (frows f)) f);;
        let mask_2024_2025 (row : Series) :=
          bool_decide (cell row "Année" ∈ [VInt 2024; VInt 2025]) in
        update_frame result_df
          (loc_mask mask_2024_2025 "Nom du projet" (λ _, VStr ""));;
        update_frame result_df
          (loc_mask mask_2024_2025 "Dernière Note" (λ _, VStr ""));;
        f ← read_frame result_df;
        let years := unique ((λ r, cell r.2 "Année") <$> frows f) in
        for_m (λ _ year, update_frame result_df (λ f, clear_year f year)) years ();;
        derive_frame result_df (λ f, select_columns f summary_columns).

End YearSummaryStore.

Section SummaryStore.

Variable get_theoretical_charge : value → value → option Q.
Variables connection_dict phase_dict : dict.

(** The assignments at one [row_index] are taken together: they fill the
    row that [row_index] adds to [result_df]. *)
Definition append_row (result_df : ref) (row : summary_row) : M () :=
  s ← read_summary result_df; write result_df (TSummary (s ++ [row])).

Definition second_pass_m (pivot_df result_df : ref)
    (current_resource : option string) (row : pivot_row) : M (option string) :=
  let resource := Ressource row in
  current_resource ←
    (if bool_decide (Some resource ≠ current_resource) then
       p ← read_pivot pivot_df;
       let resource_charge :=
         sum_skipna (Charge_JH <$> filter (λ r, Ressource r = resource) p) in
       append_row result_df (resource_row resource resource_charge);;
       mret (Some resource)
     else mret current_resource);
  append_row result_df
    (project_row get_theoretical_charge connection_dict phase_dict row);;
  mret current_resource.

Definition format_resource_summary_m (pivot_df : ref) (montant_dict : dict) : M ref :=
  result_df ← new (TSummary []);
  p ← read_pivot pivot_df;
  pivot_df ← new (TPivot (sort_pivot p));
  p ← read_pivot pivot_df;
  let resource_ecarts :=
    foldl (first_pass_step get_theoretical_charge connection_dict phase_dict) ∅ p in
  for_m (second_pass_m pivot_df result_df) p None;;
  mret result_df.

End SummaryStore.

(** A computation is local to [h0] when it leaves every object of [h0] as
    it is, whatever else the store holds, and its result satisfies [Q]. *)
Definition local (h0 : heap) {A : Type} (m : M A) (Q : A → Prop) : Prop :=
  ∀ h, h0 ⊆ h → h0 ⊆ (m h).2 ∧ ∀ a, (m h).1 = Ok a → Q a.

(** A reference that [h0] does not hold. *)
Definition outside (h0 : heap) (r : ref) : Prop := h0 !! r = None.

(** * Vocabulary of the properties *)

(** ** Lookup builder *)

(** The table of the counterexample to C3: one name on two rows, both with
    a value. *)
Definition two_levels : DataFrame :=
  {| columns := ["Nom"; "Niveau de connexion"];
     rows := [ {[ "Nom" := VStr "P"; "Niveau de connexion" := VStr "a" ]};
               {[ "Nom" := VStr "P"; "Niveau de connexion" := VStr "b" ]} ] |}.

(** A table without the 'Nom' column. *)
Definition no_names : DataFrame :=
  {| columns := ["Niveau de connexion"];
     rows := [ {[ "Niveau de connexion" := VStr "a" ]} ] |}.

(** C3 as the spec words it: every name is mapped to its first non-null
    value in row order. *)
Definition keeps_first_non_null (df : DataFrame) (column_name : string) : Prop :=
  column_name ∈ columns df →
  ∀ d, create_connection_dict df column_name = Ok d →
  ∀ name, d !! name = first_non_null df column_name name.

(** ** Reverse aggregator *)

(** The text the aggregator reads in a row. *)
Definition row_text (row : summary_row) : string :=
  default "" (resource_projet row).

(** A row with the given text and theoretical charge, all else NaN. *)
Definition text_row (text : option string) (charge : option Q) : summary_row :=
  {| resource_projet := text;
     charge_jh := None;
     somme_de_charge_jh := None;
     niveau_de_connexion := VNaN;
     phase_du_projet := VNaN;
     charge_theorique := charge;
     ecart := None;
     montant_total := VNaN;
     derniere_note := VNaN;
     duree := VNaN |}.

(** Null, empty or white space only. *)
Definition blank_text (row : summary_row) : Prop :=
  PyStr.strip (row_text row) = "".

(** Starting with the four-space indent. *)
Definition indented (row : summary_row) : Prop :=
  PyStr.startswith (row_text row) indent = true.

Global Instance blank_text_dec row : Decision (blank_text row).
Proof. unfold blank_text. apply _. Defined.

Global Instance indented_dec row : Decision (indented row).
Proof. unfold indented. apply _. Defined.

(** C10 as worded: the totals are those of the table without its rows of
    null, empty or white-space-only text. *)
Definition blank_rows_skipped (l : list summary_row) : Prop :=
  create_theoretical_charge_by_resource_from_summary l
  = create_theoretical_charge_by_resource_from_summary
      (filter (λ row, ¬ blank_text row) l).

(** Rows met before any resource row: a project row and a null row. *)
Definition orphan_rows : list summary_row :=
  [text_row (Some "    P0") (Some 3%Q); text_row None None].

(** A resource row, a row of one space and a project row. *)
Definition one_resource_rows : list summary_row :=
  [text_row (Some "A") None; text_row (Some " ") None;
   text_row (Some "    P1") (Some 2%Q)].

(** The text is that of a resource row: no indent in front, and not blank. *)
Definition resource_text (row : summary_row) : Prop :=
  ¬ indented row ∧ ¬ blank_text row.

Global Instance resource_text_dec row : Decision (resource_text row).
Proof. unfold resource_text. apply _. Defined.

(** The record of a resource row and the rows under it: its stripped
    text, the sum of the theoretical charges of the indented rows and their
    number. *)
Definition block_total (row : summary_row) (rest : list summary_row)
  : resource_total :=
  {| total_Ressource := PyStr.strip (row_text row);
     Somme_Charge_Theorique :=
       theoretical_sum (charge_theorique <$> filter indented rest);
     Nombre_de_projets := length (filter indented rest) |}.

(** A resource row, and the rows of its projects. *)
Definition resource_B : summary_row := text_row (Some "B") None.

Definition projects_B : list summary_row :=
  [text_row (Some "    P2") (Some 3%Q); text_row (Some "    P3") None].

(** ** Sorting *)

(** The order a comparison function decides. *)
Definition le_of {A : Type} (leb : A → A → bool) : relation A :=
  λ a b, leb a b = true.

(** ** Hierarchical summary builder *)

(** The maximal runs of consecutive rows with one resource. *)
Fixpoint runs (l : list pivot_row) : list (string * list pivot_row) :=
  match l with
  | [] => []
  | x :: l' =>
      match runs l' with
      | (r, g) :: rest =>
          if decide (Ressource x = r) then (r, x :: g) :: rest
          else (Ressource x, [x]) :: (r, g) :: rest
      | [] => [(Ressource x, [x])]
      end
  end.

(** Only a resource row has a 'Somme de Charge JH'. *)
Definition is_resource_row (row : summary_row) : Prop :=
  is_Some (somme_de_charge_jh row).

Definition is_project_row (row : summary_row) : Prop :=
  somme_de_charge_jh row = None.

Global Instance is_resource_row_dec row : Decision (is_resource_row row).
Proof. unfold is_resource_row. apply _. Defined.

Global Instance is_project_row_dec row : Decision (is_project_row row).
Proof. unfold is_project_row. apply _. Defined.

(** The resource row of [resource] in the summary of [pivot_df]. *)
Definition header (pivot_df : list pivot_row) (resource : string) : summary_row :=
  resource_row resource
    (sum_skipna (Charge_JH <$> filter (λ r, Ressource r = resource) pivot_df)).

(** A name the aggregator reads as a resource. *)
Definition resource_like (r : string) : Prop :=
  PyStr.startswith r indent = false ∧ PyStr.strip r ≠ "".

(** What [sort_values(['Ressource', 'Projet'])] sorts a row by. *)
Definition pivot_key (row : pivot_row) : string * string :=
  (Ressource row, Projet row).

Section SummaryVocabulary.

Variable get_theoretical_charge : value → value → option Q.
Variables connection_dict phase_dict : dict.

Abbreviation project_row := (project_row get_theoretical_charge connection_dict phase_dict).
Abbreviation theoretical_charge_of :=
  (theoretical_charge_of get_theoretical_charge connection_dict phase_dict).

(** The rows the second pass writes from [current_resource] on. *)
Fixpoint emit (pivot_df : list pivot_row) (current_resource : option string)
    (l : list pivot_row) : list summary_row :=
  match l with
  | [] => []
  | row :: l' =>
      (if bool_decide (Some (Ressource row) ≠ current_resource)
       then [header pivot_df (Ressource row)] else [])
      ++ project_row row :: emit pivot_df (Some (Ressource row)) l'
  end.

(** The block of a resource: its row, then its projects. *)
Definition block (pivot_df : list pivot_row) (rg : string * list pivot_row)
  : list summary_row :=
  header pivot_df rg.1 :: (project_row <$> rg.2).

(** The record the aggregator forms for a block. *)
Definition total_of (r : string) (g : list pivot_row) : resource_total :=
  {| total_Ressource := PyStr.strip r;
     Somme_Charge_Theorique :=
       theoretical_sum ((λ x, theoretical_charge_of (Projet x)) <$> g);
     Nombre_de_projets := length g |}.

(** The record a resource should get: its charges summed over its rows in
    the sorted table, its rows counted in the table as given. *)
Definition total_for (pivot_df : list pivot_row) (r : string) : resource_total :=
  {| total_Ressource := PyStr.strip r;
     Somme_Charge_Theorique :=
       theoretical_sum
         ((λ x, theoretical_charge_of (Projet x))
            <$> filter (λ x, Ressource x = r) (sort_pivot pivot_df));
     Nombre_de_projets := length (filter (λ x, Ressource x = r) pivot_df) |}.

End SummaryVocabulary.

(** A pivot table of one row whose resource has no name. *)
Definition unnamed_resource : list pivot_row :=
  [ {| Ressource := ""; Projet := "P"; Charge_JH := Some 1%Q;
       Montant_total := VNaN; Derniere_Note := VNaN; Duree := VNaN |} ].

(** A pivot table of two resources and three projects. *)
Definition two_resources : list pivot_row :=
  [ {| Ressource := "B"; Projet := "P2"; Charge_JH := Some 1%Q;
       Montant_total := VNaN; Derniere_Note := VNaN; Duree := VNaN |};
    {| Ressource := "A"; Projet := "P3"; Charge_JH := None;
       Montant_total := VNaN; Derniere_Note := VNaN; Duree := VNaN |};
    {| Ressource := "A"; Projet := "P1"; Charge_JH := Some (3 # 2)%Q;
       Montant_total := VNaN; Derniere_Note := VNaN; Duree := VNaN |} ].

(** A rule table that knows one pair. *)
Definition one_rule (connection_level project_phase : value) : option Q :=
  match connection_level, project_phase with
  | VStr "Connexion EDI", VStr "Recette interne" => Some 5%Q
  | _, _ => None
  end.

(** Connection levels and phases of the projects of [two_resources]. *)
Definition sample_connections : dict :=
  {[ VStr "P1" := VStr "Connexion Recette"; VStr "P2" := VStr "Connexion EDI" ]}.

Definition sample_phases : dict :=
  {[ VStr "P1" := VStr "Connexion Recette int"; VStr "P2" := VStr "Go-live" ]}.

(** C1 as worded, read in the weakest way: every resource of the pivot
    table has a record with its number of rows and its sum of charges. *)
Definition round_trip (get_theoretical_charge : value → value → option Q)
    (connection_dict phase_dict montant_dict : dict) (pivot_df : list pivot_row)
  : Prop :=
  ∀ r, r ∈ Ressource <$> pivot_df →
  ∃ t, t ∈ create_theoretical_charge_by_resource_from_summary
             (format_resource_summary get_theoretical_charge
                connection_dict phase_dict pivot_df montant_dict)
       ∧ Nombre_de_projets t = length (filter (λ x, Ressource x = r) pivot_df)
       ∧ Somme_Charge_Theorique t
         = theoretical_sum
             ((λ x, theoretical_charge_of get_theoretical_charge
                      connection_dict phase_dict (Projet x))
                <$> filter (λ x, Ressource x = r) (sort_pivot pivot_df)).

(** ** Year summary builder *)

(** The 'Année' cell of a labelled row. *)
Definition year_cell (r : nat * Series) : value := cell r.2 "Année".

(** What a turn of the loop does to a row it clears. *)
Definition blank_year (r : nat * Series) : nat * Series :=
  (r.1, <["Nombre de projets" := VStr ""]> (<["Année" := VStr ""]> r.2)).

(** The rows after the labels [B] have been cleared. *)
Definition blank_labels (B : list nat) (rs : list (nat * Series))
  : list (nat * Series) :=
  (λ r, if bool_decide (r.1 ∈ B) then blank_year r else r) <$> rs.

(** The labels the turn for [y] clears: those of the rows of [y] but the
    first. *)
Definition repeated (rs : list (nat * Series)) (y : value) : list nat :=
  tail (filter (λ r, year_cell r = y) rs).*1.

(** The year of a row whose year cell holds an integer. *)
Definition year_of (r : nat * Series) : Z :=
  match cell r.2 "Année" with VInt z => z | _ => 0%Z end.

(** The year cell holds an integer. *)
Definition has_year (r : nat * Series) : Prop :=
  cell r.2 "Année" = VInt (year_of r).

(** A row after the count and the blanking of 2024 and 2025. *)
Definition counted (rs : list (nat * Series)) (r : nat * Series) : nat * Series :=
  let row := <["Nombre de projets" := year_count rs r.2]> r.2 in
  let row :=
    if bool_decide (cell row "Année" ∈ [VInt 2024; VInt 2025])
    then <["Nom du projet" := VStr ""]> row else row in
  (r.1, if bool_decide (cell row "Année" ∈ [VInt 2024; VInt 2025])
        then <["Dernière Note" := VStr ""]> row else row).

(** The first row of a run of rows of one year. *)
Definition first_of_year (rs : list (nat * Series)) (k : nat) (r : nat * Series)
  : Prop :=
  k = 0 ∨ ∃ p, rs !! (k - 1) = Some p ∧ year_cell p ≠ year_cell r.

Global Instance first_of_year_dec rs k r : Decision (first_of_year rs k r).
Proof.
  unfold first_of_year. destruct (decide (k = 0)) as [|Hk]; [left; by left|].
  destruct (rs !! (k - 1)) as [p|].
  - destruct (decide (year_cell p ≠ year_cell r)) as [Hp|Hp].
    + left. right. by exists p.
    + right. by intros [?|(p' & [= <-] & ?)].
  - right. by intros [?|(p' & ? & _)].
Defined.

Section YearVocabulary.

Variable to_datetime : list value → list value.
Variable dt_year : value → Z.

(** The rows of an allowed phase that have a date, each with its year, in
    the order of the summary. *)
Definition year_rows (deployments_df : DataFrame)
    (phases_checked : option (list value)) : result Frame :=
  df_copy ← effective_dates deployments_df phases_checked;
  year_sorted dt_year (parse_dates to_datetime df_copy).

(** The same on a table with an index of its own. *)
Definition year_rows_indexed (deployments_df : Frame)
    (phases_checked : option (list value)) : result Frame :=
  df_copy ← effective_dates_indexed deployments_df phases_checked;
  year_sorted dt_year (parse_dates to_datetime df_copy).

(** The date the function goes by for a row of the input: its 'Date
    d'affectation', or its 'Date de création' when the table has that
    column and the row has this date but not the other. *)
Definition effective_date (deployments_df : Frame) (row : Series) : value :=
  if has_column (fcolumns deployments_df) "Date de création"
     && isna (cell row "Date d'affectation")
     && negb (isna (cell row "Date de création"))
  then cell row "Date de création"
  else cell row "Date d'affectation".

(** The rows of the input of an allowed phase that have such a date, under
    their labels and in their order. *)
Definition kept_rows (deployments_df : Frame)
    (phases_checked : option (list value)) : list (nat * Series) :=
  filter (λ r, cell r.2 "Phase du projet" ∈ allowed_phases_of phases_checked
               ∧ isna (effective_date deployments_df r.2) = false)
    (frows deployments_df).

(** The filtered and dated rows: those of [kept_rows] whose date parses,
    each with its parsed date. The column of dates is parsed as a whole. *)
Definition dated_rows (deployments_df : Frame)
    (phases_checked : option (list value)) : list (nat * Series * value) :=
  let kept := kept_rows deployments_df phases_checked in
  filter (λ p, isna p.2 = false)
    (zip kept (to_datetime (effective_date deployments_df <$> kept.*2))).

(** The number of filtered and dated rows of the input of the year [y]. *)
Definition rows_of_year (deployments_df : Frame)
    (phases_checked : option (list value)) (y : Z) : nat :=
  length (filter (λ p, dt_year p.2 = y) (dated_rows deployments_df phases_checked)).

End YearVocabulary.

(** A row of the deployments table. *)
Definition deployment (nom : string) (affectation creation : value)
    (phase note : string) : Series :=
  {[ "Nom" := VStr nom; "Date d'affectation" := affectation;
     "Date de création" := creation; "Phase du projet" := VStr phase;
     "Dernière Note" := VStr note ]}.

(** Three projects dated 2023, one dated 2024, one with a creation date in
    2022 only, one in a phase outside the default list and one whose date
    does not parse. *)
Definition sample_deployments : DataFrame :=
  {| columns := ["Nom"; "Date d'affectation"; "Date de création";
                 "Phase du projet"; "Dernière Note"];
     rows := [ deployment "C" (VStr "2023-03-01") VNaN "Développement" "n1";
               deployment "A" (VStr "2023-01-15") VNaN "Développement" "n2";
               deployment "B" (VStr "2023-02-10") VNaN "Développement" "n3";
               deployment "D" VNaN (VStr "2022-05-05") "Pré-production" "n4";
               deployment "E" (VStr "2023-06-01") VNaN "Go-live" "n5";
               deployment "F" (VStr "soon") VNaN "Développement" "n6";
               deployment "G" (VStr "2024-05-05") VNaN "Développement" "n7" ] |}.

(** A stand-in for the date parser: ten characters make a date. *)
Definition sample_to_datetime (l : list value) : list value :=
  (λ v, match v with
        | VStr s => if (String.length s =? 10)%nat then v else VNaN
        | _ => VNaN
        end) <$> l.

(** The year of such a date: its first four characters. *)
Definition sample_dt_year (v : value) : Z :=
  match v with
  | VStr s =>
      match String.substring 0 4 s with
      | "2022" => 2022
      | "2023" => 2023
      | "2024" => 2024
      | _ => 1970
      end
  | _ => 1970
  end.

(** The summary of [sample_deployments] and its rows. *)
Definition sample_summary : Frame :=
  match create_projects_by_month_summary sample_to_datetime sample_dt_year
          sample_deployments None with
  | Ok out => out
  | Raise _ => empty_summary
  end.

Definition sample_row (k : nat) : nat * Series :=
  default (0, ∅) (frows sample_summary !! k).

(** A table with the date column and nothing else. *)
Definition dates_only : DataFrame :=
  {| columns := ["Date d'affectation"]; rows := [] |}.

(** C4 as worded: no table makes the function raise because a column is
    absent. *)
Definition no_column_error (to_datetime : list value → list value)
    (dt_year : value → Z) (deployments_df : DataFrame)
    (phases_checked : option (list value)) : Prop :=
  ∀ key, create_projects_by_month_summary to_datetime dt_year deployments_df
           phases_checked ≠ Raise (KeyError key).

(** The rows of [sample_deployments] under an index of their own, the
    labels not being the positions. *)
Definition relabelled_deployments : Frame :=
  {| fcolumns := columns sample_deployments;
     frows := zip [70; 60; 50; 40; 30; 20; 10] (rows sample_deployments) |}.

(** The summary of [relabelled_deployments] and its rows. *)
Definition relabelled_summary : Frame :=
  match create_projects_by_month_summary_indexed sample_to_datetime
          sample_dt_year relabelled_deployments None with
  | Ok out => out
  | Raise _ => empty_summary
  end.

Definition relabelled_row (k : nat) : nat * Series :=
  default (0, ∅) (frows relabelled_summary !! k).

(** A table in which two rows have the index label 1, as two tables put one
    after the other with their own indexes have: three projects of 2023 and
    one of 2022. *)
Definition repeated_labels : Frame :=
  {| fcolumns := columns sample_deployments;
     frows :=
       [ (0, deployment "A" (VStr "2023-01-15") VNaN "Développement" "n1");
         (1, deployment "B" (VStr "2023-02-10") VNaN "Développement" "n2");
         (2, deployment "C" (VStr "2023-03-01") VNaN "Développement" "n3");
         (1, deployment "D" (VStr "2022-05-05") VNaN "Développement" "n4") ] |}.

(** The sorted table and the summary of [repeated_labels]. *)
Definition repeated_labels_sorted : Frame :=
  match year_rows_indexed sample_to_datetime sample_dt_year repeated_labels
          None with
  | Ok result_df => result_df
  | Raise _ => empty_summary
  end.

Definition repeated_labels_summary : Frame :=
  match create_projects_by_month_summary_indexed sample_to_datetime
          sample_dt_year repeated_labels None with
  | Ok out => out
  | Raise _ => empty_summary
  end.



(** A deployments table without the 'Dernière Note' column. *)
Definition sample_without_notes : DataFrame :=
  {| columns := ["Nom"; "Date d'affectation"; "Phase du projet"];
     rows := [ {[ "Nom" := VStr "A"; "Date d'affectation" := VStr "2023-01-15";
                  "Phase du projet" := VStr "Développement" ]} ] |}.

(** ** Tables as objects *)

(** [m] run on [h] ends as the function result [x] says: on [Ok out] with
    a reference to [out], on [Raise e] with [e]. *)
Definition yields (m : M ref) (h : heap) (x : result Frame) : Prop :=
  match x with
  | Ok out => ∃ r h', m h = (Ok r, h') ∧ h' !! r = Some (TFrame out)
  | Raise e => ∃ h', m h = (Raise e, h')
  end.

(** What running [m] on [h] leaves of [h]: every object as it was, the one
    at [df] in particular, and a result that is a new object. *)
Definition unchanged (h : heap) (df : ref) (m : M ref) : Prop :=
  h ⊆ (m h).2
  ∧ (∀ t, h !! df = Some t → (m h).2 !! df = Some t)
  ∧ (∀ r, (m h).1 = Ok r → h !! r = None).

(** A table of submitted hours, one of them missing. *)
Definition hours : DataFrame :=
  {| columns := ["Nom"; "Soumise (h)"];
     rows := [ {[ "Nom" := VStr "P1"; "Soumise (h)" := VNum 12 ]};
               {[ "Nom" := VStr "P2"; "Soumise (h)" := VNaN ]} ] |}.

(** A store that holds a table of each kind the functions take. *)
Definition sample_heap : heap :=
  {[ 1%positive := TDataFrame hours;
     2%positive := TDataFrame sample_deployments;
     3%positive := TPivot two_resources ]}.

(** * Properties *)

(** Membership in a list that is written out. *)
Ltac in_list :=
  repeat first [ apply list_elem_of_here | apply list_elem_of_further ].

(** [x ∉ l] for a list that is written out. *)
Ltac not_in_list :=
  let H := fresh in
  intros H; repeat (apply elem_of_cons in H as [H|H]; [discriminate H|]);
  by apply elem_of_nil in H.

(** ** Python strings *)

Lemma startswith_app p s : PyStr.startswith (p +:+ s) p = true.
Proof.
  unfold PyStr.startswith. induction p as [|a p IH]; simpl.
  - by destruct s.
  - rewrite IH. by destruct (Ascii.ascii_dec a a).
Qed.

Lemma nonempty_true s : PyStr.nonempty s = true ↔ s ≠ "".
Proof. destruct s; simpl; split; congruence. Qed.

Lemma str_app_cons a s t : String a s +:+ t = String a (s +:+ t).
Proof. reflexivity. Qed.

Lemma str_app_nil_l s : "" +:+ s = s.
Proof. reflexivity. Qed.

Lemma str_app_nil_r s : s +:+ "" = s.
Proof. induction s as [|a s IH]; [done|]. by rewrite str_app_cons, IH. Qed.

Lemma str_app_snoc r x a : (r +:+ String x "") +:+ a = r +:+ String x a.
Proof. induction r as [|y r IH]; [done|]. by rewrite !str_app_cons, IH. Qed.

(** The cases of [strip_front]: white space of one, two or three bytes in
    front and the rest stripped, or no white space in front. *)
Lemma strip_front_cases (back : bool) (P : string → string → Prop) :
  P "" "" →
  (∀ a s, PyStr.space1 a = true →
     P s (PyStr.strip_front back s) →
     P (String a s) (PyStr.strip_front back s)) →
  (∀ a b s, PyStr.space1 a = false →
     (if back then PyStr.space2 b a else PyStr.space2 a b) = true →
     P s (PyStr.strip_front back s) →
     P (String a (String b s)) (PyStr.strip_front back s)) →
  (∀ a b c s, PyStr.space1 a = false →
     (if back then PyStr.space2 b a else PyStr.space2 a b) = false →
     (if back then PyStr.space3 c b a else PyStr.space3 a b c) = true →
     P s (PyStr.strip_front back s) →
     P (String a (String b (String c s))) (PyStr.strip_front back s)) →
  (∀ s, PyStr.strip_front back s = s → P s s) →
  ∀ s, P s (PyStr.strip_front back s).
Proof.
  intros Hnil H1 H2 H3 Hstop s.
  assert (Hlen : ∀ n s, (String.length s < n)%nat →
            P s (PyStr.strip_front back s)).
  { clear s. induction n as [|n IH]; intros s Hs; [lia|].
    destruct s as [|a s1]; [done|]. simpl in *.
    destruct (PyStr.space1 a) eqn:Ha.
    { apply H1; [done|]. apply IH. lia. }
    destruct s1 as [|b s2].
    { apply Hstop. simpl. by rewrite Ha. }
    simpl in *.
    destruct (if back then PyStr.space2 b a else PyStr.space2 a b) eqn:Hb.
    { apply H2; [done..|]. apply IH. lia. }
    destruct s2 as [|c s3].
    { apply Hstop. simpl. by rewrite Ha, Hb. }
    simpl in *.
    destruct (if back then PyStr.space3 c b a else PyStr.space3 a b c) eqn:Hc.
    { apply H3; [done..|]. apply IH. lia. }
    apply Hstop. simpl. by rewrite Ha, Hb, Hc. }
  apply (Hlen (S (String.length s))). lia.
Qed.

Lemma strip_front_stable back s :
  PyStr.strip_front back (PyStr.strip_front back s) = PyStr.strip_front back s.
Proof.
  apply (strip_front_cases back (λ _ t, PyStr.strip_front back t = t)); auto.
Qed.

Lemma strip_front_suffix back s : ∃ w, s = w +:+ PyStr.strip_front back s.
Proof.
  apply (strip_front_cases back (λ s t, ∃ w, s = w +:+ t)).
  - by exists "".
  - intros a s' _ [w Hw]. exists (String a w). rewrite str_app_cons. by f_equal.
  - intros a b s' _ _ [w Hw]. exists (String a (String b w)).
    rewrite !str_app_cons. by do 2 f_equal.
  - intros a b c s' _ _ _ [w Hw]. exists (String a (String b (String c w))).
    rewrite !str_app_cons. by do 3 f_equal.
  - intros s' _. by exists "".
Qed.

Lemma strip_front_length back s :
  (String.length (PyStr.strip_front back s) ≤ String.length s)%nat.
Proof.
  apply (strip_front_cases back
           (λ s t, (String.length t ≤ String.length s)%nat)); simpl; intros; lia.
Qed.

(** A string without white space in front has none after a cut. *)
Lemma lstrip_prefix p q :
  PyStr.strip_front false (p +:+ q) = p +:+ q → PyStr.strip_front false p = p.
Proof.
  assert (Hshort : ∀ s s', (String.length s' < String.length s)%nat →
            PyStr.strip_front false s' ≠ s).
  { intros s s' Hlen Heq.
    pose proof (strip_front_length false s') as Hle. rewrite Heq in Hle. lia. }
  destruct p as [|a [|b [|c p]]]; rewrite ?str_app_cons, ?str_app_nil_l; simpl;
    try done.
  - destruct (PyStr.space1 a) eqn:Ha; [|done].
    intros H. exfalso. apply (Hshort _ q) in H; [done|simpl; lia].
  - destruct (PyStr.space1 a) eqn:Ha.
    { intros H. exfalso.
      apply (Hshort (String a (String b q)) (String b q)); [simpl; lia|exact H]. }
    destruct (PyStr.space2 a b) eqn:Hb; [|done].
    intros H. exfalso. apply (Hshort _ q) in H; [done|simpl; lia].
  - destruct (PyStr.space1 a) eqn:Ha.
    { intros H. exfalso.
      apply (Hshort (String a (String b (String c (p +:+ q))))
               (String b (String c (p +:+ q)))); [simpl; lia|exact H]. }
    destruct (PyStr.space2 a b) eqn:Hb.
    { intros H. exfalso.
      apply (Hshort (String a (String b (String c (p +:+ q))))
               (String c (p +:+ q))); [simpl; lia|exact H]. }
    destruct (PyStr.space3 a b c) eqn:Hc; [|done].
    intros H. exfalso. apply (Hshort _ (p +:+ q)) in H; [done|simpl; lia].
Qed.

Lemma str_rev_app_rev_app s a b :
  String.rev_app (String.rev_app s a) b = String.rev_app a (s +:+ b).
Proof.
  revert a b. induction s as [|x s IH]; intros a b; simpl; [done|].
  by rewrite IH, str_app_cons.
Qed.

Lemma str_rev_rev s : String.rev (String.rev s) = s.
Proof.
  unfold String.rev. rewrite str_rev_app_rev_app. simpl. apply str_app_nil_r.
Qed.

Lemma str_rev_app_app s t a :
  String.rev_app (s +:+ t) a = String.rev_app t (String.rev_app s a).
Proof.
  revert a. induction s as [|x s IH]; intros a; [done|].
  rewrite str_app_cons. simpl. apply IH.
Qed.

Lemma str_rev_app_acc s a : String.rev_app s a = String.rev s +:+ a.
Proof.
  unfold String.rev. revert a. induction s as [|x s IH]; intros a; simpl; [done|].
  by rewrite IH, (IH (String x "")), str_app_snoc.
Qed.

Lemma str_rev_app s t : String.rev (s +:+ t) = String.rev t +:+ String.rev s.
Proof. unfold String.rev at 1. rewrite str_rev_app_app. apply str_rev_app_acc. Qed.

(** [strip] leaves no white space at either end: stripping again changes
    nothing. *)
Lemma strip_stable s : PyStr.strip (PyStr.strip s) = PyStr.strip s.
Proof.
  assert (Hl : PyStr.lstrip (PyStr.strip s) = PyStr.strip s).
  { unfold PyStr.strip, PyStr.rstrip, PyStr.lstrip.
    set (t := PyStr.strip_front false s).
    destruct (strip_front_suffix true (String.rev t)) as [w Hw].
    apply (lstrip_prefix _ (String.rev w)).
    rewrite <- str_rev_app, <- Hw, str_rev_rev. apply strip_front_stable. }
  unfold PyStr.strip at 1. rewrite Hl.
  unfold PyStr.strip, PyStr.rstrip. by rewrite str_rev_rev, strip_front_stable.
Qed.

(** ** Canonicalization *)

Lemma connection_level_mapping_range s t :
  connection_level_mapping !! s = Some t → t = "Connexion EDI".
Proof.
  unfold connection_level_mapping. simpl.
  rewrite !lookup_insert. repeat case_decide; naive_solver.
Qed.

Example normalize_connection_level_recette :
  normalize_connection_level (VStr "Connexion Recette") = VStr "Connexion EDI".
Proof. by vm_compute. Qed.

Example normalize_connection_level_empty :
  normalize_connection_level (VStr "") = VNone.
Proof. reflexivity. Qed.

Example normalize_connection_level_other :
  normalize_connection_level (VStr "Connexion API") = VStr "Connexion API".
Proof. by vm_compute. Qed.

(** C7: normalising a connection level twice gives what normalising it once
    gives, for every input, [None] and the empty string included. *)
Theorem normalize_connection_level_idempotent (v : value) :
  normalize_connection_level (normalize_connection_level v)
  = normalize_connection_level v.
Proof.
  unfold normalize_connection_level.
  destruct (truthy v) eqn:Hv; simpl; [|done].
  destruct v as [| |s|z|q]; simpl in *; try by rewrite ?Hv.
  destruct (connection_level_mapping !! s) as [t|] eqn:Hs; simpl.
  - apply connection_level_mapping_range in Hs as ->. by vm_compute.
  - by rewrite Hv, Hs.
Qed.

Lemma project_phase_mapping_keys s :
  is_Some (project_phase_mapping !! s) ↔ is_Some (connection_level_mapping !! s).
Proof.
  unfold project_phase_mapping, connection_level_mapping. simpl.
  rewrite !lookup_insert, !lookup_empty.
  repeat case_decide; split; first [ by eauto | intros [? [=]] ].
Qed.

Lemma project_phase_mapping_range s t :
  project_phase_mapping !! s = Some t →
  t ∈ ["Recette interne"; "Pré-production"; "Développement";
       "Recette utilisateur"; "En production (VSR)"].
Proof.
  unfold project_phase_mapping. simpl.
  rewrite !lookup_insert, lookup_empty.
  repeat case_decide; intros [= <-]; in_list.
Qed.

(** No value of either table is a key, or empty. *)
Lemma connection_level_mapping_closed s t :
  connection_level_mapping !! s = Some t →
  PyStr.nonempty t = true ∧ connection_level_mapping !! t = None ∧ t ≠ s.
Proof.
  intros Hs. assert (Ht := connection_level_mapping_range _ _ Hs). subst t.
  split; [done|]. split; [by vm_compute|].
  intros <-. by vm_compute in Hs.
Qed.

Lemma project_phase_mapping_closed s t :
  project_phase_mapping !! s = Some t →
  PyStr.nonempty t = true ∧ project_phase_mapping !! t = None ∧ t ≠ s.
Proof.
  intros Hs. assert (Ht := project_phase_mapping_range _ _ Hs).
  repeat (apply elem_of_cons in Ht as [->|Ht]);
    [(split; [done|]; split; [by vm_compute|]; intros <-; by vm_compute in Hs)..|].
  by apply elem_of_nil in Ht.
Qed.

(** A table none of whose values is a key, or empty, normalises in one go. *)
Lemma mapping_get_twice (mapping : gmap string string) (v : value) :
  (∀ s t, mapping !! s = Some t →
     PyStr.nonempty t = true ∧ mapping !! t = None ∧ t ≠ s) →
  truthy v = true →
  truthy (mapping_get mapping v v) = true
  ∧ mapping_get mapping (mapping_get mapping v v) (mapping_get mapping v v)
    = mapping_get mapping v v.
Proof.
  intros Hclosed Hv. destruct v as [| |s|z|q]; simpl in *; try done.
  destruct (mapping !! s) as [t|] eqn:Hs; simpl.
  - destruct (Hclosed _ _ Hs) as (Ht & Hnone & _). by rewrite Hnone.
  - by rewrite Hs.
Qed.

(** X7: normalising a project phase twice gives what normalising it once
    gives, for every input, [None] and the empty string included. *)
Theorem normalize_project_phase_idempotent (v : value) :
  normalize_project_phase (normalize_project_phase v)
  = normalize_project_phase v.
Proof.
  unfold normalize_project_phase.
  destruct (truthy v) eqn:Hv; simpl; [|done].
  destruct v as [| |s|z|q]; simpl in *; try by rewrite ?Hv.
  destruct (project_phase_mapping !! s) as [t|] eqn:Hs; simpl.
  - destruct (project_phase_mapping_closed _ _ Hs) as (Ht & Hnone & _).
    by rewrite Ht, Hnone.
  - by rewrite Hv, Hs.
Qed.

(** X8: the theoretical charge of a connection level and a phase is that
    of their normal forms: normalising the arguments before the call
    changes nothing, whatever the rule table. *)
Theorem calculate_theoretical_charge_normalized
    (get_theoretical_charge : value → value → option Q)
    (connection_level project_phase : value) :
  calculate_theoretical_charge get_theoretical_charge
    (normalize_connection_level connection_level)
    (normalize_project_phase project_phase)
  = calculate_theoretical_charge get_theoretical_charge
      connection_level project_phase.
Proof.
  unfold calculate_theoretical_charge. f_equal.
  - unfold normalize_connection_level.
    destruct (truthy connection_level) eqn:Hv; simpl; [|done].
    destruct (mapping_get_twice _ _ connection_level_mapping_closed Hv)
      as [-> ->].
    done.
  - unfold normalize_project_phase.
    destruct (truthy project_phase) eqn:Hv; simpl; [|done].
    destruct (mapping_get_twice _ _ project_phase_mapping_closed Hv)
      as [-> ->].
    done.
Qed.

(** X9: each normaliser returns [None] exactly on a falsy input ([None],
    the empty string, zero); on any other input the connection level comes
    back unchanged or as 'Connexion EDI'; and the two normalisers change
    the same inputs. *)
Theorem normalize_shape (v : value) :
  (normalize_connection_level v = VNone ↔ truthy v = false)
  ∧ (normalize_project_phase v = VNone ↔ truthy v = false)
  ∧ (truthy v = true →
     normalize_connection_level v = v
     ∨ normalize_connection_level v = VStr "Connexion EDI")
  ∧ (normalize_connection_level v ≠ v ↔ normalize_project_phase v ≠ v).
Proof.
  unfold normalize_connection_level, normalize_project_phase.
  destruct (truthy v) eqn:Hv; simpl.
  - destruct v as [| |s|z|q]; simpl in *;
      [done | by repeat split; try left | | by repeat split; try left..].
    assert (Hkeys := project_phase_mapping_keys s).
    destruct (connection_level_mapping !! s) as [t|] eqn:Hs;
      destruct (project_phase_mapping !! s) as [t'|] eqn:Hs'.
    + destruct (connection_level_mapping_closed _ _ Hs) as (_ & _ & Hne).
      destruct (project_phase_mapping_closed _ _ Hs') as (_ & _ & Hne').
      apply connection_level_mapping_range in Hs as ->.
      repeat split; try done; try (by right); intros _; congruence.
    + exfalso. destruct Hkeys as [_ Hkeys]. by destruct Hkeys as [? [=]].
    + exfalso. destruct Hkeys as [Hkeys _]. by destruct Hkeys as [? [=]].
    + repeat split; try done; try by left.
  - repeat split; done.
Qed.

(** ** Schema validator *)

Lemma validate_dataframe_missing (df : DataFrame) (required_columns : list string) :
  (validate_dataframe df required_columns).2 ⊆ required_columns
  ∧ ((validate_dataframe df required_columns).1 = true
     ↔ (validate_dataframe df required_columns).2 = []).
Proof.
  unfold validate_dataframe. simpl. split.
  - intros c Hc. by apply list_elem_of_filter in Hc as [_ ?].
  - rewrite bool_decide_eq_true. apply length_zero_iff_nil.
Qed.

Example validate_dataframe_two_levels :
  validate_dataframe two_levels ["Nom"; "Soumise (h)"] = (false, ["Soumise (h)"]).
Proof. by vm_compute. Qed.

(** X1: the validator succeeds exactly when every required column is a
    column of the table, and the list it returns holds the required columns
    the table lacks, in the order they were asked for, each as many times
    as it was asked for. *)
Theorem validate_dataframe_required (df : DataFrame) (required_columns : list string) :
  ((validate_dataframe df required_columns).1 = true
   ↔ ∀ c, c ∈ required_columns → c ∈ columns df)
  ∧ (∀ c, c ∈ (validate_dataframe df required_columns).2
          ↔ c ∈ required_columns ∧ c ∉ columns df)
  ∧ (validate_dataframe df required_columns).2 `sublist_of` required_columns
  ∧ (∀ c, c ∉ columns df →
          length (filter (λ c', c' = c) (validate_dataframe df required_columns).2)
          = length (filter (λ c', c' = c) required_columns)).
Proof.
  unfold validate_dataframe. simpl. split; [|split; [|split]].
  - rewrite bool_decide_eq_true, length_zero_iff_nil. split.
    + intros Hnil c Hc. destruct (decide (c ∈ columns df)) as [|Hn]; [done|].
      by destruct (filter_nil_not_elem_of _ _ c Hnil Hn).
    + intros Hall. induction required_columns as [|c l IH]; [done|].
      rewrite filter_cons, decide_False.
      * apply IH. intros c' Hc'. apply Hall. by right.
      * intros Hn. apply Hn, Hall. left.
  - intros c. rewrite list_elem_of_filter. tauto.
  - apply sublist_filter.
  - intros c Hc. rewrite list_filter_filter. f_equal.
    apply list_filter_iff. intros c'. split; [tauto|]. by intros ->.
Qed.

(** ** Lookup builder *)

Lemma has_column_true cols c : has_column cols c = true ↔ c ∈ cols.
Proof. unfold has_column. by rewrite bool_decide_eq_true. Qed.

Lemma has_column_false cols c : has_column cols c = false ↔ c ∉ cols.
Proof. unfold has_column. by rewrite bool_decide_eq_false. Qed.

(** With 'Nom' and the target column in the schema a turn of the loop
    writes the row's value under the row's name unless the value is null. *)
Lemma connection_dict_step_present cols column_name d row :
  "Nom" ∈ cols → column_name ∈ cols →
  connection_dict_step cols column_name d row
  = Ok (if isna (cell row column_name) then d
        else <[cell row "Nom" := cell row column_name]> d).
Proof.
  intros HN HC%has_column_true. apply has_column_true in HN.
  unfold connection_dict_step, getitem, row_get, cell. rewrite HN, HC. simpl.
  by destruct (isna _).
Qed.

Lemma last_non_null_loop cols column_name (rs : list Series) (d : dict) :
  "Nom" ∈ cols → column_name ∈ cols →
  ∃ d', for_each (connection_dict_step cols column_name) rs d = Ok d'
    ∧ ∀ name,
        d' !! name
        = match last (filter (λ v, isna v = false)
                  ((λ row, cell row column_name)
                     <$> filter (λ row, cell row "Nom" = name) rs)) with
          | Some v => Some v
          | None => d !! name
          end.
Proof.
  intros HN HC. revert d. induction rs as [|row rs IH]; intros d; simpl.
  - by exists d.
  - rewrite connection_dict_step_present by done. simpl.
    destruct (IH (if isna (cell row column_name) then d
                  else <[cell row "Nom" := cell row column_name]> d))
      as (d' & -> & Hd').
    exists d'. split; [done|]. intros name. rewrite Hd'.
    rewrite filter_cons. case_decide as Hname; simpl.
    + rewrite filter_cons. destruct (isna (cell row column_name)) eqn:Hna.
      * by rewrite decide_False by done.
      * rewrite decide_True by done. rewrite last_cons.
        destruct (last _); [done|]. subst name. by rewrite lookup_insert_eq.
    + destruct (last _); [done|].
      destruct (isna _); [done|]. by rewrite lookup_insert_ne.
Qed.

(** C3, counterexample: on [two_levels] the name P is mapped to the value of
    its second row, not to the first non-null one. *)
Lemma keeps_first_non_null_fails :
  ¬ keeps_first_non_null two_levels "Niveau de connexion".
Proof.
  intros H.
  specialize (H ltac:(unfold two_levels; simpl; in_list) _ eq_refl (VStr "P")).
  vm_compute in H. discriminate H.
Qed.

(** C3, amended: with the target column and 'Nom' in the schema,
    [create_connection_dict] maps every name to its last non-null value in
    row order (and to nothing when it has none): a later row's value
    replaces an earlier one whenever the later value is not null. *)
Theorem create_connection_dict_last_non_null (df : DataFrame) (column_name : string) :
  column_name ∈ columns df → "Nom" ∈ columns df →
  ∃ d, create_connection_dict df column_name = Ok d
    ∧ ∀ name, d !! name = last_non_null df column_name name.
Proof.
  intros HC HN. unfold create_connection_dict.
  rewrite (proj2 (has_column_true _ _) HC).
  destruct (last_non_null_loop (columns df) column_name (rows df) ∅ HN HC)
    as (d & Hd & Hlook).
  exists d. split; [done|]. intros name. rewrite Hlook.
  unfold last_non_null, cell. by destruct (last _).
Qed.

Lemma create_connection_dict_last_non_null_witness :
  ∃ d, create_connection_dict two_levels "Niveau de connexion" = Ok d
    ∧ ∀ name, d !! name = last_non_null two_levels "Niveau de connexion" name.
Proof.
  apply (create_connection_dict_last_non_null two_levels "Niveau de connexion");
    unfold two_levels; simpl; in_list.
Defined.

Example create_connection_dict_two_levels :
  create_connection_dict two_levels "Niveau de connexion"
  = Ok {[ VStr "P" := VStr "b" ]}.
Proof. by vm_compute. Qed.

(** C9: with the target column in the schema, 'Nom' absent and at least
    one row, [create_connection_dict] raises [KeyError] on 'Nom'; in every
    other case it returns a mapping. *)
Theorem create_connection_dict_KeyError (df : DataFrame) (column_name : string) :
  (column_name ∈ columns df → "Nom" ∉ columns df → rows df ≠ [] →
   create_connection_dict df column_name = Raise (KeyError "Nom"))
  ∧ ("Nom" ∈ columns df ∨ rows df = [] ∨ column_name ∉ columns df →
     ∃ d, create_connection_dict df column_name = Ok d).
Proof.
  split.
  - intros HC%has_column_true HN%has_column_false Hrows.
    unfold create_connection_dict. rewrite HC.
    destruct (rows df) as [|row rs]; [done|]. simpl.
    unfold connection_dict_step, getitem. by rewrite HN.
  - intros H. destruct (decide (column_name ∈ columns df)) as [HC|HC].
    + destruct H as [HN|[Hrows|?]]; [| |done].
      * unfold create_connection_dict.
        rewrite (proj2 (has_column_true _ _) HC).
        destruct (last_non_null_loop (columns df) column_name (rows df) ∅ HN HC)
          as (d & Hd & _).
        by exists d.
      * unfold create_connection_dict. rewrite Hrows. simpl.
        exists ∅. by destruct (has_column _ _).
    + apply has_column_false in HC. unfold create_connection_dict. rewrite HC.
      by exists ∅.
Qed.

Lemma create_connection_dict_KeyError_witness :
  create_connection_dict no_names "Niveau de connexion" = Raise (KeyError "Nom").
Proof.
  apply (proj1 (create_connection_dict_KeyError no_names "Niveau de connexion"));
    unfold no_names; simpl; [in_list | by intros ?%list_elem_of_singleton | done].
Defined.

(** With both columns in the schema the loop leaves, under every name, the
    last non-null value of the rows of that name. *)
Lemma create_connection_dict_lookup (df : DataFrame) (column_name : string) :
  column_name ∈ columns df → "Nom" ∈ columns df →
  ∃ d, create_connection_dict df column_name = Ok d
    ∧ ∀ name,
        d !! name
        = last (filter (λ v, isna v = false)
                  ((λ row, cell row column_name)
                     <$> filter (λ row, cell row "Nom" = name) (rows df))).
Proof.
  intros HC HN. unfold create_connection_dict.
  rewrite (proj2 (has_column_true _ _) HC).
  destruct (last_non_null_loop (columns df) column_name (rows df) ∅ HN HC)
    as (d & Hd & Hlook).
  exists d. split; [done|]. intros name. rewrite Hlook.
  by destruct (last _).
Qed.

(** X2: with the target column and 'Nom' in the schema, no value stored in
    the dictionary is null, and a project name is a key exactly when some
    row of that name has a non-null value in the target column. *)
Theorem create_connection_dict_entries (df : DataFrame) (column_name : string)
    (d : dict) :
  column_name ∈ columns df → "Nom" ∈ columns df →
  create_connection_dict df column_name = Ok d →
  (∀ name v, d !! name = Some v → isna v = false)
  ∧ (∀ s, is_Some (d !! VStr s)
          ↔ ∃ row, row ∈ rows df ∧ cell row "Nom" = VStr s
                   ∧ isna (cell row column_name) = false).
Proof.
  intros HC HN Hd.
  destruct (create_connection_dict_lookup df column_name HC HN)
    as (d' & Hd' & Hlook).
  rewrite Hd in Hd'. injection Hd' as <-. split.
  - intros name v Hv. rewrite Hlook in Hv.
    apply last_Some_elem_of in Hv. by apply list_elem_of_filter in Hv as [? _].
  - intros s. rewrite Hlook, last_is_Some. split.
    + intros Hne.
      destruct (filter _ _) as [|v l] eqn:Hf; [done|].
      assert (Hv : v ∈ v :: l) by left. rewrite <- Hf in Hv.
      apply list_elem_of_filter in Hv as [Hna Hv].
      apply list_elem_of_fmap in Hv as (row & -> & Hrow).
      apply list_elem_of_filter in Hrow as [Hname Hrow]. by exists row.
    + intros (row & Hrow & Hname & Hna) Hnil.
      eapply (filter_nil_not_elem_of _ _ _ Hnil Hna).
      apply list_elem_of_fmap. exists row. split; [done|].
      by apply list_elem_of_filter.
Qed.

Lemma create_connection_dict_entries_witness :
  (∀ name v, ({[ VStr "P" := VStr "b" ]} : dict) !! name = Some v →
     isna v = false)
  ∧ (∀ s, is_Some (({[ VStr "P" := VStr "b" ]} : dict) !! VStr s)
          ↔ ∃ row, row ∈ rows two_levels ∧ cell row "Nom" = VStr s
                   ∧ isna (cell row "Niveau de connexion") = false).
Proof.
  assert (HC : "Niveau de connexion" ∈ columns two_levels)
    by (unfold two_levels; simpl; in_list).
  assert (HN : "Nom" ∈ columns two_levels)
    by (unfold two_levels; simpl; in_list).
  assert (Hd : create_connection_dict two_levels "Niveau de connexion"
               = Ok {[ VStr "P" := VStr "b" ]}) by (vm_compute; reflexivity).
  exact (create_connection_dict_entries _ _ _ HC HN Hd).
Defined.

(** X3: the dictionary is empty when the target column is not in the
    schema, whether or not 'Nom' is, when the table has no rows, and when
    every value of the target column is null. *)
Theorem create_connection_dict_empty (df : DataFrame) (column_name : string) :
  (column_name ∉ columns df → create_connection_dict df column_name = Ok ∅)
  ∧ (rows df = [] → create_connection_dict df column_name = Ok ∅)
  ∧ ("Nom" ∈ columns df →
     (∀ row, row ∈ rows df → isna (cell row column_name) = true) →
     create_connection_dict df column_name = Ok ∅).
Proof.
  split; [|split].
  - intros HC%has_column_false. unfold create_connection_dict. by rewrite HC.
  - intros Hrows. unfold create_connection_dict. rewrite Hrows. simpl.
    by destruct (has_column _ _).
  - intros HN Hnull.
    destruct (decide (column_name ∈ columns df)) as [HC|HC].
    + destruct (create_connection_dict_lookup df column_name HC HN)
        as (d & Hd & Hlook).
      rewrite Hd. f_equal. apply map_eq. intros name.
      rewrite Hlook, lookup_empty. apply last_None.
      destruct (filter _ _) as [|v l] eqn:Hf; [done|]. exfalso.
      assert (Hv : v ∈ v :: l) by left. rewrite <- Hf in Hv.
      apply list_elem_of_filter in Hv as [Hna Hv].
      apply list_elem_of_fmap in Hv as (row & -> & Hrow).
      apply list_elem_of_filter in Hrow as [_ Hrow].
      by rewrite (Hnull row Hrow) in Hna.
    + apply has_column_false in HC. unfold create_connection_dict.
      by rewrite HC.
Qed.

(** ** Reverse aggregator *)

Lemma create_totals_unfold (l : list summary_row) :
  create_theoretical_charge_by_resource_from_summary l
  = sort_by total_geb (collect_totals l).
Proof.
  unfold create_theoretical_charge_by_resource_from_summary.
  destruct l; [done|]. by destruct (collect_totals _).
Qed.

Lemma aggregate_step_blank st row :
  blank_text row → ¬ indented row → aggregate_step st row = st.
Proof.
  unfold blank_text, indented, aggregate_step, row_text. intros -> Hind.
  apply not_true_is_false in Hind. by rewrite Hind.
Qed.

Lemma aggregate_step_closed row :
  blank_text row ∨ indented row → aggregate_step aggregate_init row = aggregate_init.
Proof.
  unfold blank_text, indented, aggregate_step, row_text.
  intros [-> | ->]; simpl; [|done].
  by destruct (PyStr.startswith _ _).
Qed.

Lemma aggregate_before_first_resource (pre : list summary_row) :
  Forall (λ row, blank_text row ∨ indented row) pre →
  foldl aggregate_step aggregate_init pre = aggregate_init.
Proof.
  induction 1 as [|row pre Hrow _ IH]; simpl; [done|].
  by rewrite aggregate_step_closed.
Qed.

Lemma aggregate_without_blanks (l : list summary_row) st :
  foldl aggregate_step st (filter (λ row, ¬ (blank_text row ∧ ¬ indented row)) l)
  = foldl aggregate_step st l.
Proof.
  revert st. induction l as [|row l IH]; intros st; simpl; [done|].
  rewrite filter_cons. case_decide as Hrow; simpl; [done|].
  destruct Hrow as [Hb Hi]. by rewrite aggregate_step_blank.
Qed.

(** C10, counterexample: a row of five spaces under resource A is counted
    as a project of A. *)
Lemma blank_rows_skipped_fails :
  ¬ blank_rows_skipped [text_row (Some "A") None; text_row (Some "     ") None].
Proof. unfold blank_rows_skipped. vm_compute. discriminate. Qed.

(** C10, amended: rows before the first resource row that are indented or
    blank, and rows anywhere whose text is null, empty or white space only
    and does not start with the four-space indent, contribute nothing: the
    totals are those of the table without them. A white-space-only row that
    starts with the indent is a project row of the open resource. *)
Theorem skipped_rows_contribute_nothing (pre l : list summary_row) :
  Forall (λ row, blank_text row ∨ indented row) pre →
  create_theoretical_charge_by_resource_from_summary (pre ++ l)
  = create_theoretical_charge_by_resource_from_summary l
  ∧ create_theoretical_charge_by_resource_from_summary l
    = create_theoretical_charge_by_resource_from_summary
        (filter (λ row, ¬ (blank_text row ∧ ¬ indented row)) l).
Proof.
  intros Hpre. rewrite !create_totals_unfold. unfold collect_totals. split.
  - by rewrite foldl_app, aggregate_before_first_resource.
  - by rewrite aggregate_without_blanks.
Qed.

Lemma skipped_rows_contribute_nothing_witness :
  create_theoretical_charge_by_resource_from_summary
    (orphan_rows ++ one_resource_rows)
  = create_theoretical_charge_by_resource_from_summary one_resource_rows
  ∧ create_theoretical_charge_by_resource_from_summary one_resource_rows
    = create_theoretical_charge_by_resource_from_summary
        (filter (λ row, ¬ (blank_text row ∧ ¬ indented row)) one_resource_rows).
Proof.
  apply (skipped_rows_contribute_nothing orphan_rows one_resource_rows).
  constructor; [by right|]. constructor; [by left|]. constructor.
Defined.

Example indented_blank_row_counts :
  create_theoretical_charge_by_resource_from_summary
    [text_row (Some "A") None; text_row (Some "     ") (Some 2%Q)]
  = [ {| total_Ressource := "A"; Somme_Charge_Theorique := 2;
         Nombre_de_projets := 1 |} ].
Proof. by vm_compute. Qed.

(** ** Sorting *)

Section SortBy.

Context {A : Type} (leb : A → A → bool).

Abbreviation le_of := (le_of leb).

Hypothesis leb_total : ∀ a b, leb a b = true ∨ leb b a = true.

Lemma insert_by_perm x l : insert_by leb x l ≡ₚ x :: l.
Proof.
  induction l as [|y l IH]; simpl; [done|].
  destruct (leb x y); [done|]. rewrite IH. apply Permutation_swap.
Qed.

Lemma sort_by_perm l : sort_by leb l ≡ₚ l.
Proof.
  induction l as [|x l IH]; simpl; [done|].
  unfold sort_by in *. simpl. by rewrite insert_by_perm, IH.
Qed.

Lemma insert_by_HdRel a x l :
  le_of a x → HdRel le_of a l → HdRel le_of a (insert_by leb x l).
Proof.
  intros Hax Hal. destruct l as [|y l]; simpl; [by constructor|].
  destruct (leb x y); constructor; [done|]. by inversion Hal.
Qed.

Lemma insert_by_sorted x l : Sorted le_of l → Sorted le_of (insert_by leb x l).
Proof.
  induction 1 as [|y l Hl IH Hy]; simpl; [by repeat constructor|].
  destruct (leb x y) eqn:Hxy.
  - constructor; [by constructor|]. by constructor.
  - constructor; [done|]. apply insert_by_HdRel; [|done].
    unfold le_of. destruct (leb_total x y); congruence.
Qed.

Lemma sort_by_sorted l : Sorted le_of (sort_by leb l).
Proof.
  induction l as [|x l IH]; [constructor|].
  unfold sort_by in *. simpl. by apply insert_by_sorted.
Qed.

End SortBy.

Lemma pivot_leb_total a b : pivot_leb a b = true ∨ pivot_leb b a = true.
Proof.
  unfold pivot_leb. rewrite (String.compare_antisym (Ressource b)).
  destruct (String.compare (Ressource a) (Ressource b)) eqn:Hc; simpl; auto.
  apply String.leb_total.
Qed.

Lemma pivot_leb_Ressource a b :
  pivot_leb a b = true → String.le (Ressource a) (Ressource b).
Proof.
  unfold pivot_leb, String.le, String.leb.
  by destruct (String.compare (Ressource a) (Ressource b)).
Qed.

Lemma sort_pivot_perm l : sort_pivot l ≡ₚ l.
Proof. apply sort_by_perm. Qed.

Lemma sort_pivot_sorted l : Sorted (le_of pivot_leb) (sort_pivot l).
Proof. apply sort_by_sorted, pivot_leb_total. Qed.

(** The resources of a sorted pivot table never decrease. *)
Lemma sort_pivot_Ressource l :
  StronglySorted String.le (Ressource <$> sort_pivot l).
Proof.
  apply Sorted_StronglySorted; [apply _|].
  apply (Sorted_fmap Ressource (le_of pivot_leb)); [|apply sort_pivot_sorted].
  intros a b. apply pivot_leb_Ressource.
Qed.

(** ** Hierarchical summary builder *)

Lemma filter_none {A : Type} (P : A → Prop) `{∀ x, Decision (P x)} (l : list A) :
  (∀ x, x ∈ l → ¬ P x) → filter P l = [].
Proof.
  induction l as [|x l IH]; intros Hl; [done|].
  rewrite filter_cons, decide_False by (apply Hl; left).
  apply IH. intros y Hy. apply Hl. by right.
Qed.

Lemma runs_head x l :
  ∃ g rest, runs (x :: l) = (Ressource x, x :: g) :: rest.
Proof.
  simpl. destruct (runs l) as [|[r g] rest]; [by eexists _, _|].
  case_decide as Hr; [subst r|]; by eexists _, _.
Qed.

Lemma runs_concat l : concat (runs l).*2 = l.
Proof.
  induction l as [|x l IH]; simpl; [done|].
  destruct (runs l) as [|[r g] rest]; simpl in *; [by subst l|].
  case_decide; simpl; by rewrite <- IH.
Qed.

Lemma runs_groups l :
  Forall (λ rg, Forall (λ x, Ressource x = rg.1) rg.2) (runs l).
Proof.
  induction l as [|x l IH]; simpl; [constructor|].
  destruct (runs l) as [|[r g] rest]; [by repeat constructor|].
  apply Forall_cons in IH as [Hg Hrest]. simpl in Hg.
  case_decide; repeat constructor; done.
Qed.

Lemma runs_names l r : r ∈ (runs l).*1 ↔ r ∈ Ressource <$> l.
Proof.
  induction l as [|x l IH]; simpl; [done|].
  rewrite elem_of_cons, <- IH. clear IH.
  destruct (runs l) as [|[r' g] rest]; simpl.
  - rewrite list_elem_of_singleton, elem_of_nil. tauto.
  - case_decide as Hr; simpl; rewrite !elem_of_cons; [|tauto].
    subst r'. tauto.
Qed.

(** In a table sorted by resource the runs are the resources: every name
    heads one run, and the run holds all the rows of that name. *)
Lemma runs_sorted l :
  StronglySorted String.le (Ressource <$> l) →
  NoDup (runs l).*1
  ∧ Forall (λ rg, rg.2 = filter (λ x, Ressource x = rg.1) l) (runs l).
Proof.
  induction l as [|x l IH]; [by split; constructor|].
  rewrite fmap_cons. intros Hs. apply StronglySorted_inv in Hs as [Hs Hx].
  destruct (IH Hs) as [Hnd Hgr]. clear IH.
  assert (Hfresh : ∀ r g rest, runs l = (r, g) :: rest → Ressource x ≠ r →
            Ressource x ∉ Ressource <$> l).
  { intros r g rest Hruns Hne Hin.
    destruct l as [|y l']; [done|].
    destruct (runs_head y l') as (g' & rest' & Hy).
    rewrite Hy in Hruns. injection Hruns as <- _ _.
    rewrite fmap_cons in Hx, Hs. apply Forall_cons in Hx as [Hxy _].
    apply StronglySorted_inv in Hs as [_ Hy'].
    apply list_elem_of_fmap in Hin as (z & Hz & Hzin).
    apply elem_of_cons in Hzin as [->|Hzin]; [done|].
    rewrite Forall_fmap, Forall_forall in Hy'. specialize (Hy' z Hzin).
    simpl in Hy'. rewrite <- Hz in Hy'.
    apply Hne. by apply (anti_symm String.le). }
  simpl. destruct (runs l) as [|[r g] rest] eqn:Hruns; simpl.
  - split; [apply NoDup_singleton|]. repeat constructor. simpl.
    rewrite filter_cons, decide_True by done.
    destruct l as [|y l']; [by rewrite filter_nil|].
    destruct (runs_head y l') as (? & ? & Hy). by rewrite Hy in Hruns.
  - simpl in Hnd. apply Forall_cons in Hgr as [Hg Hrest]. simpl in Hg.
    case_decide as Hr; simpl.
    + subst r. split; [done|]. constructor; simpl.
      * by rewrite filter_cons, decide_True, Hg.
      * apply NoDup_cons in Hnd as [Hnotin _].
        rewrite Forall_forall in Hrest |- *. intros [r' g'] Hin.
        rewrite (Hrest _ Hin). simpl. rewrite filter_cons, decide_False; [done|].
        intros Heq. apply Hnotin. rewrite Heq.
        apply list_elem_of_fmap. by exists (r', g').
    + specialize (Hfresh r g rest eq_refl Hr).
      assert (Hnotin : Ressource x ∉ r :: rest.*1).
      { intros Hin. apply Hfresh.
        apply (runs_names l). by rewrite Hruns. }
      split; [by apply NoDup_cons|].
      constructor; simpl.
      * rewrite filter_cons, decide_True by done. f_equal.
        symmetry. apply filter_none. intros z Hz Heq. apply Hfresh.
        apply list_elem_of_fmap. by exists z.
      * rewrite Forall_forall. intros [r' g'] Hin. simpl.
        assert (Hin' : (r', g') ∈ (r, g) :: rest) by done.
        assert (Hg' : g' = filter (λ x, Ressource x = r') l).
        { apply elem_of_cons in Hin' as [[= -> ->]|Hin']; [done|].
          rewrite Forall_forall in Hrest. apply (Hrest _ Hin'). }
        rewrite Hg'. rewrite filter_cons, decide_False; [done|].
        intros Heq. apply Hnotin. rewrite Heq.
        change (r' ∈ ((r, g) :: rest).*1).
        apply list_elem_of_fmap. by exists (r', g').
Qed.

Section SummaryFacts.

Variable get_theoretical_charge : value → value → option Q.
Variables connection_dict phase_dict : dict.

Abbreviation project_row := (project_row get_theoretical_charge connection_dict phase_dict).
Abbreviation theoretical_charge_of :=
  (theoretical_charge_of get_theoretical_charge connection_dict phase_dict).
Abbreviation second_pass_step :=
  (second_pass_step get_theoretical_charge connection_dict phase_dict).
Abbreviation format_resource_summary :=
  (format_resource_summary get_theoretical_charge connection_dict phase_dict).
Abbreviation emit := (emit get_theoretical_charge connection_dict phase_dict).
Abbreviation block := (block get_theoretical_charge connection_dict phase_dict).
Abbreviation total_of := (total_of get_theoretical_charge connection_dict phase_dict).
Abbreviation total_for := (total_for get_theoretical_charge connection_dict phase_dict).

Lemma second_pass_emit pivot_df l current_resource result_df :
  (foldl (second_pass_step pivot_df) (current_resource, result_df) l).2
  = result_df ++ emit pivot_df current_resource l.
Proof.
  revert current_resource result_df.
  induction l as [|row l IH]; intros cur acc; simpl; [by rewrite app_nil_r|].
  unfold header. case_bool_decide as Hcur; rewrite IH, <- ?app_assoc; [done|].
  by subst cur.
Qed.

Lemma emit_runs pivot_df current_resource l :
  emit pivot_df current_resource l
  = match runs l with
    | [] => []
    | (r, g) :: rest =>
        (if bool_decide (Some r ≠ current_resource)
         then [header pivot_df r] else [])
        ++ (project_row <$> g) ++ (rest ≫= block pivot_df)
    end.
Proof.
  revert current_resource. induction l as [|x l IH]; intros cur; [done|].
  simpl. rewrite IH. destruct (runs l) as [|[r g] rest]; [reflexivity|].
  csimpl. case_decide as Hr.
  - subst r.
    by rewrite (bool_decide_eq_false_2 (Some (Ressource x) ≠ Some (Ressource x)))
      by (intros H; by apply H).
  - by rewrite (bool_decide_eq_true_2 (Some r ≠ Some (Ressource x)))
      by congruence.
Qed.

(** The summary is the blocks of the runs of the sorted pivot table. *)
Lemma format_resource_summary_blocks pivot_df montant_dict :
  format_resource_summary pivot_df montant_dict
  = runs (sort_pivot pivot_df) ≫= block (sort_pivot pivot_df).
Proof.
  unfold format_resource_summary. rewrite second_pass_emit, emit_runs. simpl.
  by destruct (runs _) as [|[r g] rest].
Qed.

Lemma blocks_project_rows pivot_df (rs : list (string * list pivot_row)) :
  filter is_project_row (rs ≫= block pivot_df) = project_row <$> concat rs.*2.
Proof.
  induction rs as [|[r g] rs IH]; [done|].
  rewrite bind_cons, filter_app, IH. csimpl. rewrite fmap_app. f_equal.
  unfold block. simpl. rewrite filter_cons, decide_False by (by intros [=]).
  induction g as [|x g IHg]; [done|]. csimpl.
  by rewrite filter_cons, decide_True, IHg.
Qed.

Lemma blocks_resource_rows pivot_df (rs : list (string * list pivot_row)) :
  filter is_resource_row (rs ≫= block pivot_df) = header pivot_df <$> rs.*1.
Proof.
  induction rs as [|[r g] rs IH]; [done|].
  rewrite bind_cons, filter_app, IH. csimpl.
  f_equal. rewrite filter_none; [done|].
  intros row (x & -> & _)%list_elem_of_fmap [? [=]].
Qed.

Lemma blocks_by_name pivot_df (l : list pivot_row) (rs : list (string * list pivot_row)) :
  Forall (λ rg, rg.2 = filter (λ x, Ressource x = rg.1) l) rs →
  rs ≫= block pivot_df
  = rs.*1 ≫= λ r, header pivot_df r
                   :: (project_row <$> filter (λ x, Ressource x = r) l).
Proof.
  induction 1 as [|[r g] rs Hg _ IH]; [done|].
  rewrite fmap_cons, !bind_cons, IH. unfold block. simpl in *. by rewrite Hg.
Qed.

Lemma project_row_ecart (p : pivot_row) :
  (∀ e, ecart (project_row p) = Some e →
     ∃ t c, charge_theorique (project_row p) = Some t
            ∧ charge_jh (project_row p) = Some c ∧ e = (t - c)%Q)
  ∧ (charge_theorique (project_row p) = None → ecart (project_row p) = None).
Proof.
  simpl. destruct (theoretical_charge_of (Projet p)) as [t|]; simpl; [|done].
  split; [|done]. unfold minus_charge.
  destruct (Charge_JH p) as [c|]; simpl; [|done].
  intros e [= <-]. by exists t, c.
Qed.

(** C2: the summary of a pivot table holds one project row per row of the
    table, in the order of the table sorted by resource and project, and
    one resource row per distinct resource, each placed before the project
    rows of its resource; a project row's ecart, when it has one, is its
    theoretical charge minus its charge JH, and it has none when the
    theoretical charge does not resolve. *)
Theorem format_resource_summary_rows (pivot_df : list pivot_row) (montant_dict : dict) :
  let sorted := sort_pivot pivot_df in
  let out := format_resource_summary pivot_df montant_dict in
  (sorted ≡ₚ pivot_df ∧ Sorted (le_of pivot_leb) sorted)
  ∧ (filter is_project_row out = project_row <$> sorted
     ∧ length (filter is_project_row out) = length pivot_df)
  ∧ (∃ names,
       NoDup names
       ∧ (∀ r, r ∈ names ↔ r ∈ Ressource <$> pivot_df)
       ∧ filter is_resource_row out = header sorted <$> names
       ∧ length (filter is_resource_row out)
         = length (remove_dups (Ressource <$> pivot_df))
       ∧ out = names ≫= λ r,
                 header sorted r
                 :: (project_row <$> filter (λ x, Ressource x = r) sorted))
  ∧ ∀ row, row ∈ out → is_project_row row →
      (∀ e, ecart row = Some e →
         ∃ t c, charge_theorique row = Some t
                ∧ charge_jh row = Some c ∧ e = (t - c)%Q)
      ∧ (charge_theorique row = None → ecart row = None).
Proof.
  intros sorted out.
  assert (Hout : out = runs sorted ≫= block sorted)
    by apply format_resource_summary_blocks.
  assert (Hproj : filter is_project_row out = project_row <$> sorted).
  { by rewrite Hout, blocks_project_rows, runs_concat. }
  destruct (runs_sorted sorted (sort_pivot_Ressource pivot_df)) as [Hnd Hgr].
  assert (Hnames : ∀ r, r ∈ (runs sorted).*1 ↔ r ∈ Ressource <$> pivot_df).
  { intros r. rewrite runs_names. unfold sorted.
    by rewrite (sort_pivot_perm pivot_df). }
  split; [split; [apply sort_pivot_perm | apply sort_pivot_sorted]|].
  split.
  { split; [done|]. rewrite Hproj, length_fmap.
    apply Permutation_length, sort_pivot_perm. }
  split.
  { exists (runs sorted).*1. split; [done|]. split; [done|].
    split; [by rewrite Hout, blocks_resource_rows|].
    split; [|by rewrite Hout; apply blocks_by_name].
    rewrite Hout, blocks_resource_rows, length_fmap.
    apply Permutation_length, NoDup_Permutation; [done|apply NoDup_remove_dups|].
    intros r. by rewrite Hnames, elem_of_remove_dups. }
  intros row Hin Hrow.
  assert (Hin' : row ∈ filter is_project_row out) by by apply list_elem_of_filter.
  rewrite Hproj in Hin'. apply list_elem_of_fmap in Hin' as (p & -> & _).
  apply project_row_ecart.
Qed.

(** *** The aggregator on a summary *)

Lemma aggregate_projects (g : list pivot_row) c ps cs rd :
  foldl aggregate_step
    {| current_resource := Some c; current_projects := ps;
       current_theoretical_charges := cs; result_data := rd |}
    (project_row <$> g)
  = {| current_resource := Some c;
       current_projects := ps ++ ((λ x, PyStr.strip (indent +:+ Projet x)) <$> g);
       current_theoretical_charges :=
         cs ++ ((λ x, theoretical_charge_of (Projet x)) <$> g);
       result_data := rd |}.
Proof.
  revert ps cs. induction g as [|x g IH]; intros ps cs; csimpl.
  - by rewrite !app_nil_r.
  - unfold aggregate_step at 2. simpl. rewrite startswith_app. simpl.
    rewrite IH. by rewrite <- !app_assoc.
Qed.

Lemma aggregate_block pivot_df st r g :
  resource_like r →
  foldl aggregate_step st (block pivot_df (r, g))
  = {| current_resource := Some (PyStr.strip r);
       current_projects := (λ x, PyStr.strip (indent +:+ Projet x)) <$> g;
       current_theoretical_charges := (λ x, theoretical_charge_of (Projet x)) <$> g;
       result_data := flush st |}.
Proof.
  intros [Hstart Hstrip%nonempty_true]. unfold block. simpl.
  unfold aggregate_step at 2. simpl. rewrite Hstart, Hstrip. simpl.
  by rewrite aggregate_projects.
Qed.

Lemma collect_blocks pivot_df st (rs : list (string * list pivot_row)) :
  Forall resource_like rs.*1 →
  flush (foldl aggregate_step st (rs ≫= block pivot_df))
  = flush st ++ ((λ rg, total_of rg.1 rg.2) <$> rs).
Proof.
  revert st. induction rs as [|[r g] rs IH]; intros st Hrs.
  - by rewrite app_nil_r.
  - rewrite fmap_cons in Hrs. apply Forall_cons in Hrs as [Hr Hrs].
    rewrite bind_cons, foldl_app, aggregate_block, IH by done.
    rewrite fmap_cons, cons_middle, app_assoc. f_equal.
    unfold flush, total_of. simpl. by rewrite length_fmap.
Qed.

Lemma collect_summary pivot_df montant_dict :
  (∀ row, row ∈ pivot_df → resource_like (Ressource row)) →
  collect_totals (format_resource_summary pivot_df montant_dict)
  = total_for pivot_df <$> (runs (sort_pivot pivot_df)).*1.
Proof.
  intros Hlike. unfold collect_totals.
  rewrite format_resource_summary_blocks, collect_blocks.
  - destruct (runs_sorted _ (sort_pivot_Ressource pivot_df)) as [_ Hgr].
    simpl. rewrite <- list_fmap_compose. apply Forall_fmap_ext_1.
    eapply Forall_impl; [exact Hgr|]. intros [r g] Hg. simpl in *.
    unfold total_of, total_for. rewrite Hg. f_equal.
    apply Permutation_length. by rewrite (sort_pivot_perm pivot_df).
  - rewrite Forall_forall. intros r Hr%runs_names.
    apply list_elem_of_fmap in Hr as (row & -> & Hrow).
    apply Hlike. by rewrite <- (sort_pivot_perm pivot_df).
Qed.

(** C1, amended: when every resource name of the pivot table is non-blank
    and does not start with the four-space indent, the aggregator applied
    to the summary returns one record per distinct resource, and for each
    resource the record under its name stripped of surrounding white space,
    with the number of its rows in the pivot table and the sum of the
    non-null, nonzero theoretical charges of its project rows. *)
Theorem round_trip_totals (pivot_df : list pivot_row) (montant_dict : dict) :
  (∀ row, row ∈ pivot_df → resource_like (Ressource row)) →
  let totals :=
    create_theoretical_charge_by_resource_from_summary
      (format_resource_summary pivot_df montant_dict) in
  (∀ r, r ∈ Ressource <$> pivot_df → total_for pivot_df r ∈ totals)
  ∧ length totals = length (remove_dups (Ressource <$> pivot_df)).
Proof.
  intros Hlike totals. unfold totals.
  rewrite create_totals_unfold, collect_summary by done.
  destruct (runs_sorted _ (sort_pivot_Ressource pivot_df)) as [Hnd _].
  assert (Hnames : ∀ r, r ∈ (runs (sort_pivot pivot_df)).*1
                        ↔ r ∈ Ressource <$> pivot_df).
  { intros r. by rewrite runs_names, (sort_pivot_perm pivot_df). }
  split.
  - intros r Hr. rewrite sort_by_perm. apply list_elem_of_fmap.
    exists r. by rewrite Hnames.
  - rewrite sort_by_perm, length_fmap.
    apply Permutation_length, NoDup_Permutation; [done|apply NoDup_remove_dups|].
    intros r. by rewrite Hnames, elem_of_remove_dups.
Qed.

End SummaryFacts.

(** C1, counterexample: the resource row of a resource without a name is
    not read as a resource row, and its project is dropped with it. *)
Lemma round_trip_fails :
  ¬ round_trip one_rule sample_connections sample_phases ∅ unnamed_resource.
Proof.
  intros H. destruct (H "") as (t & Ht & _).
  - apply list_elem_of_fmap. eexists. split; [|apply list_elem_of_here]. done.
  - vm_compute in Ht. by apply elem_of_nil in Ht.
Qed.

Lemma round_trip_totals_witness :
  (∀ r, r ∈ Ressource <$> two_resources →
     total_for one_rule sample_connections sample_phases two_resources r
     ∈ create_theoretical_charge_by_resource_from_summary
         (format_resource_summary one_rule sample_connections sample_phases
            two_resources ∅))
  ∧ length (create_theoretical_charge_by_resource_from_summary
              (format_resource_summary one_rule sample_connections
                 sample_phases two_resources ∅))
    = length (remove_dups (Ressource <$> two_resources)).
Proof.
  apply (round_trip_totals one_rule sample_connections sample_phases
           two_resources ∅).
  intros row Hrow. unfold two_resources in Hrow.
  repeat (apply elem_of_cons in Hrow as [->|Hrow]); [by split..|].
  by apply elem_of_nil in Hrow.
Defined.

Example round_trip_two_resources :
  create_theoretical_charge_by_resource_from_summary
    (format_resource_summary one_rule sample_connections sample_phases
       two_resources ∅)
  = [ {| total_Ressource := "A"; Somme_Charge_Theorique := 5;
         Nombre_de_projets := 2 |};
      {| total_Ressource := "B"; Somme_Charge_Theorique := 0;
         Nombre_de_projets := 1 |} ].
Proof. by vm_compute. Qed.

(** *** The order of the rows of the pivot table *)

Lemma string_compare_refl s : String.compare s s = Eq.
Proof.
  pose proof (String.compare_antisym s s) as Ha.
  by destruct (String.compare s s).
Qed.

Lemma string_compare_Lt a b : String.compare a b = Lt ↔ String.le a b ∧ a ≠ b.
Proof.
  unfold String.le, String.leb. split.
  - intros H. rewrite H. split; [done|]. intros ->.
    by rewrite string_compare_refl in H.
  - intros [Hle Hne]. destruct (String.compare a b) eqn:H; [|done|done].
    by apply String.compare_eq_iff in H.
Qed.

Lemma pivot_leb_spec a b :
  pivot_leb a b = true
  ↔ (String.le (Ressource a) (Ressource b) ∧ Ressource a ≠ Ressource b)
    ∨ (Ressource a = Ressource b ∧ String.le (Projet a) (Projet b)).
Proof.
  unfold pivot_leb.
  destruct (String.compare (Ressource a) (Ressource b)) eqn:H.
  - apply String.compare_eq_iff in H as Heq. split.
    + intros Hp. right. split; [done|]. unfold String.le. by rewrite Hp.
    + intros [[_ ?]|[_ Hp]]; [done|]. by apply Is_true_true.
  - apply string_compare_Lt in H. split; [by left|done].
  - split; [done|]. intros [Hlt%string_compare_Lt|[Heq _]]; [congruence|].
    by rewrite Heq, string_compare_refl in H.
Qed.

Lemma pivot_leb_trans : Transitive (le_of pivot_leb).
Proof.
  intros a b c. unfold le_of. rewrite !pivot_leb_spec.
  intros [[H1 N1]|[E1 P1]] [[H2 N2]|[E2 P2]].
  - left. split; [by etrans|]. intros Heq. rewrite Heq in H1.
    apply N2. by apply (anti_symm String.le).
  - left. by rewrite <- E2.
  - left. by rewrite E1.
  - right. split; [congruence|]. by etrans.
Qed.

Lemma pivot_leb_key a b :
  pivot_leb a b = true → pivot_leb b a = true → pivot_key a = pivot_key b.
Proof.
  rewrite !pivot_leb_spec. unfold pivot_key.
  intros [[H1 N1]|[E1 P1]] [[H2 N2]|[E2 P2]]; try congruence.
  - destruct N1. by apply (anti_symm String.le).
  - f_equal; [done|]. by apply (anti_symm String.le).
Qed.

Lemma NoDup_fmap_elem_inj {A B : Type} (f : A → B) (l : list A) x y :
  NoDup (f <$> l) → x ∈ l → y ∈ l → f x = f y → x = y.
Proof.
  intros Hnd [i Hi]%list_elem_of_lookup [j Hj]%list_elem_of_lookup Heq.
  assert (i = j) as ->.
  { eapply NoDup_lookup; [exact Hnd|..]; rewrite list_lookup_fmap.
    - by rewrite Hi.
    - rewrite Hj. simpl. by rewrite Heq. }
  congruence.
Qed.

(** A table with one row per resource and project has one sorted form. *)
Lemma sort_pivot_order l1 l2 :
  l1 ≡ₚ l2 → NoDup (pivot_key <$> l1) → sort_pivot l1 = sort_pivot l2.
Proof.
  intros Hp Hnd.
  apply (@Sorted_unique_strong _ (le_of pivot_leb) pivot_leb_trans).
  - intros x1 x2 H1 H2 H12 H21.
    rewrite (sort_pivot_perm l1) in H1.
    rewrite (sort_pivot_perm l2), <- Hp in H2.
    apply (NoDup_fmap_elem_inj pivot_key l1); [done..|].
    by apply pivot_leb_key.
  - apply sort_pivot_sorted.
  - apply sort_pivot_sorted.
  - by rewrite !sort_pivot_perm.
Qed.

(** X15: on a pivot table with one row per resource and project, the
    summary depends neither on the order of the rows nor on
    [montant_dict]. *)
Theorem format_resource_summary_order
    (get_theoretical_charge : value → value → option Q)
    (connection_dict phase_dict montant_dict montant_dict' : dict)
    (pivot_df pivot_df' : list pivot_row) :
  pivot_df ≡ₚ pivot_df' → NoDup (pivot_key <$> pivot_df) →
  format_resource_summary get_theoretical_charge connection_dict phase_dict
    pivot_df montant_dict
  = format_resource_summary get_theoretical_charge connection_dict phase_dict
      pivot_df' montant_dict'.
Proof.
  intros Hp Hnd. unfold format_resource_summary.
  by rewrite (sort_pivot_order _ _ Hp Hnd).
Qed.

Lemma format_resource_summary_order_witness :
  format_resource_summary one_rule sample_connections sample_phases
    two_resources ∅
  = format_resource_summary one_rule sample_connections sample_phases
      (reverse two_resources) sample_connections.
Proof.
  apply format_resource_summary_order.
  - symmetry. apply reverse_Permutation.
  - compute_done.
Defined.

(** ** Reverse aggregator on any table *)

Lemma resource_text_iff row :
  negb (PyStr.startswith (row_text row) indent)
  && PyStr.nonempty (PyStr.strip (row_text row)) = true
  ↔ resource_text row.
Proof.
  unfold resource_text, indented, blank_text.
  rewrite andb_true_iff, negb_true_iff, nonempty_true.
  by rewrite not_true_iff_false.
Qed.

Lemma aggregate_step_resource st row :
  resource_text row →
  aggregate_step st row
  = {| current_resource := Some (PyStr.strip (row_text row));
       current_projects := [];
       current_theoretical_charges := [];
       result_data := flush st |}.
Proof.
  intros Hrow%resource_text_iff. unfold aggregate_step.
  fold (row_text row). by rewrite Hrow.
Qed.

(** A row under an open resource that does not read as a resource row is
    counted when it is indented and skipped when it is not. *)
Lemma aggregate_step_under c ps cs rd row :
  ¬ resource_text row →
  aggregate_step
    {| current_resource := Some c; current_projects := ps;
       current_theoretical_charges := cs; result_data := rd |} row
  = if decide (indented row) then
      {| current_resource := Some c;
         current_projects := ps ++ [PyStr.strip (row_text row)];
         current_theoretical_charges := cs ++ [charge_theorique row];
         result_data := rd |}
    else
      {| current_resource := Some c; current_projects := ps;
         current_theoretical_charges := cs; result_data := rd |}.
Proof.
  intros Hrow. unfold aggregate_step. fold (row_text row).
  rewrite (proj1 (not_true_iff_false _)) by by rewrite resource_text_iff.
  simpl. destruct (decide (indented row)) as [Hi|Hi]; unfold indented in Hi.
  - by rewrite Hi.
  - apply not_true_is_false in Hi. by rewrite Hi.
Qed.

(** Records already closed are carried along. *)
Lemma flush_prefix pre cur ps cs rd :
  flush {| current_resource := cur; current_projects := ps;
           current_theoretical_charges := cs; result_data := pre ++ rd |}
  = pre ++ flush {| current_resource := cur; current_projects := ps;
                    current_theoretical_charges := cs; result_data := rd |}.
Proof. unfold flush. simpl. destruct cur; [|done]. by rewrite app_assoc. Qed.

Lemma aggregate_prefix pre l cur ps cs rd :
  flush (foldl aggregate_step
           {| current_resource := cur; current_projects := ps;
              current_theoretical_charges := cs; result_data := pre ++ rd |} l)
  = pre ++ flush (foldl aggregate_step
                    {| current_resource := cur; current_projects := ps;
                       current_theoretical_charges := cs; result_data := rd |} l).
Proof.
  revert cur ps cs rd. induction l as [|row l IH]; intros cur ps cs rd; simpl.
  - apply flush_prefix.
  - unfold aggregate_step at 2 4. simpl.
    destruct (negb _ && _); [rewrite flush_prefix; apply IH|].
    destruct (_ && _); apply IH.
Qed.

Lemma aggregate_under c ps cs rd (rest : list summary_row) :
  Forall (λ r, ¬ resource_text r) rest →
  foldl aggregate_step
    {| current_resource := Some c; current_projects := ps;
       current_theoretical_charges := cs; result_data := rd |} rest
  = {| current_resource := Some c;
       current_projects :=
         ps ++ ((λ r, PyStr.strip (row_text r)) <$> filter indented rest);
       current_theoretical_charges :=
         cs ++ (charge_theorique <$> filter indented rest);
       result_data := rd |}.
Proof.
  intros Hrest. revert ps cs.
  induction Hrest as [|row rest Hrow _ IH]; intros ps cs; simpl.
  - by rewrite !app_nil_r.
  - rewrite aggregate_step_under by done. rewrite filter_cons.
    destruct (decide (indented row)); rewrite IH; [|done].
    csimpl. by rewrite <- !app_assoc.
Qed.

Lemma flush_names st row :
  ¬ resource_text row →
  total_Ressource <$> flush (aggregate_step st row) = total_Ressource <$> flush st.
Proof.
  intros Hrow. unfold aggregate_step. fold (row_text row).
  rewrite (proj1 (not_true_iff_false _)) by by rewrite resource_text_iff.
  destruct (_ && _); [|done]. unfold flush. simpl.
  destruct (current_resource st); [|done]. by rewrite !fmap_app.
Qed.

Lemma collect_names st (l : list summary_row) :
  total_Ressource <$> flush (foldl aggregate_step st l)
  = (total_Ressource <$> flush st)
    ++ ((λ row, PyStr.strip (row_text row)) <$> filter resource_text l).
Proof.
  revert st. induction l as [|row l IH]; intros st; simpl.
  - by rewrite app_nil_r.
  - rewrite IH, filter_cons. destruct (decide (resource_text row)) as [Hrow|Hrow].
    + rewrite aggregate_step_resource by done. unfold flush at 1. simpl.
      rewrite fmap_app. csimpl. by rewrite <- app_assoc.
    + by rewrite flush_names.
Qed.

Lemma total_geb_total a b : total_geb a b = true ∨ total_geb b a = true.
Proof.
  unfold total_geb. rewrite !Qle_bool_iff.
  destruct (Qlt_le_dec (Somme_Charge_Theorique a) (Somme_Charge_Theorique b));
    [right; by apply Qlt_le_weak | by left].
Qed.

Lemma total_geb_trans : Transitive (le_of total_geb).
Proof.
  intros a b c. unfold le_of, total_geb. rewrite !Qle_bool_iff.
  intros ??. by eapply Qle_trans.
Qed.

(** X16: the records come out in descending order of 'Somme Charge
    Théorique': of two records the lower one never has the larger sum; and
    the sort adds no record and drops none. *)
Theorem totals_descending (l : list summary_row) :
  let out := create_theoretical_charge_by_resource_from_summary l in
  out ≡ₚ collect_totals l
  ∧ ∀ i j a b, (i < j)%nat → out !! i = Some a → out !! j = Some b →
      (Somme_Charge_Theorique b <= Somme_Charge_Theorique a)%Q.
Proof.
  intros out. unfold out. rewrite create_totals_unfold. split.
  - apply sort_by_perm.
  - intros i j a b Hij Hi Hj.
    assert (Hs : StronglySorted (le_of total_geb)
                   (sort_by total_geb (collect_totals l))).
    { apply (@Sorted_StronglySorted _ _ total_geb_trans).
      apply sort_by_sorted, total_geb_total. }
    rewrite <- (take_drop j (sort_by _ _)) in Hs.
    apply Qle_bool_iff. change (le_of total_geb a b).
    eapply StronglySorted_app_1_elem_of; [exact Hs|..].
    + apply elem_of_take. by exists i.
    + apply list_elem_of_lookup. exists 0. by rewrite lookup_drop, Nat.add_0_r.
Qed.

(** X17: the table has one record for every row that reads as a resource
    row, two such rows of one name giving two records; the records carry
    the texts of these rows stripped of surrounding white space, so that no
    record has an empty name or a name with white space at either end. *)
Theorem records_of_resource_rows (l : list summary_row) :
  let out := create_theoretical_charge_by_resource_from_summary l in
  total_Ressource <$> out
  ≡ₚ (λ row, PyStr.strip (row_text row)) <$> filter resource_text l
  ∧ length out = length (filter resource_text l)
  ∧ ∀ t, t ∈ out →
      total_Ressource t ≠ ""
      ∧ PyStr.strip (total_Ressource t) = total_Ressource t.
Proof.
  intros out.
  assert (Hnames : total_Ressource <$> out
            ≡ₚ (λ row, PyStr.strip (row_text row)) <$> filter resource_text l).
  { unfold out. rewrite create_totals_unfold, sort_by_perm.
    unfold collect_totals. by rewrite collect_names. }
  split; [done|]. split.
  - apply Permutation_length in Hnames. by rewrite !length_fmap in Hnames.
  - intros t Ht.
    assert (Hin : total_Ressource t ∈ total_Ressource <$> out)
      by (apply list_elem_of_fmap; by exists t).
    rewrite Hnames in Hin.
    apply list_elem_of_fmap in Hin as (row & -> & Hrow).
    apply list_elem_of_filter in Hrow as [[_ Hblank] _].
    split; [exact Hblank | apply strip_stable].
Qed.

(** X18: cut before a row that reads as a resource row, a table gives the
    records of its two parts: those of the part above the row, followed by
    those of the part from the row on, before the records are sorted. *)
Theorem totals_of_parts (l1 l2 : list summary_row) (row : summary_row) :
  resource_text row →
  collect_totals (l1 ++ row :: l2)
  = collect_totals l1 ++ collect_totals (row :: l2)
  ∧ create_theoretical_charge_by_resource_from_summary (l1 ++ row :: l2)
    ≡ₚ create_theoretical_charge_by_resource_from_summary l1
       ++ create_theoretical_charge_by_resource_from_summary (row :: l2).
Proof.
  intros Hrow.
  assert (Hcut : collect_totals (l1 ++ row :: l2)
                 = collect_totals l1 ++ collect_totals (row :: l2)).
  { unfold collect_totals. rewrite foldl_app. simpl.
    rewrite !aggregate_step_resource by done.
    rewrite <- (app_nil_r (flush (foldl _ _ l1))) at 1.
    by rewrite aggregate_prefix. }
  split; [done|].
  by rewrite !create_totals_unfold, !sort_by_perm, Hcut.
Qed.

Lemma totals_of_parts_witness :
  collect_totals (one_resource_rows ++ resource_B :: projects_B)
  = collect_totals one_resource_rows ++ collect_totals (resource_B :: projects_B)
  ∧ create_theoretical_charge_by_resource_from_summary
      (one_resource_rows ++ resource_B :: projects_B)
    ≡ₚ create_theoretical_charge_by_resource_from_summary one_resource_rows
       ++ create_theoretical_charge_by_resource_from_summary
            (resource_B :: projects_B).
Proof.
  apply (totals_of_parts one_resource_rows projects_B resource_B).
  compute_done.
Defined.

(** X19: a row that reads as a resource row, followed by rows none of
    which does, gives one record: the stripped text of the row, the number
    of indented rows under it, and the sum of those of their theoretical
    charges that are neither null nor zero. *)
Theorem one_block_total (row : summary_row) (rest : list summary_row) :
  resource_text row → Forall (λ r, ¬ resource_text r) rest →
  create_theoretical_charge_by_resource_from_summary (row :: rest)
  = [block_total row rest].
Proof.
  intros Hrow Hrest. rewrite create_totals_unfold. unfold collect_totals.
  simpl. rewrite aggregate_step_resource by done.
  rewrite aggregate_under by done. unfold flush, block_total. simpl.
  by rewrite length_fmap.
Qed.

Lemma one_block_total_witness :
  create_theoretical_charge_by_resource_from_summary (resource_B :: projects_B)
  = [block_total resource_B projects_B].
Proof.
  apply (one_block_total resource_B projects_B);
    compute_done.
Defined.

Example block_total_B :
  block_total resource_B projects_B
  = {| total_Ressource := "B"; Somme_Charge_Theorique := 3;
       Nombre_de_projets := 2 |}.
Proof. by vm_compute. Qed.

(** ** Working tables *)

Lemma elem_of_add_column cols c c' : c' ∈ cols → c' ∈ add_column cols c.
Proof.
  unfold add_column. destruct (has_column cols c); [done|].
  intros H. apply elem_of_app. by left.
Qed.

Lemma elem_of_add_column_new cols c : c ∈ add_column cols c.
Proof.
  unfold add_column. destruct (has_column cols c) eqn:Hc.
  - by apply has_column_true.
  - apply elem_of_app. right. apply list_elem_of_here.
Qed.

Lemma add_column_present cols c : c ∈ cols → add_column cols c = cols.
Proof. intros Hc%has_column_true. unfold add_column. by rewrite Hc. Qed.

Lemma select_columns_present f cols :
  Forall (λ c, c ∈ fcolumns f) cols →
  select_columns f cols = Ok {| fcolumns := cols; frows := frows f |}.
Proof.
  intros Hcols. unfold select_columns. rewrite filter_none; [done|].
  intros c Hc Hnot. rewrite Forall_forall in Hcols. by apply Hnot, Hcols.
Qed.

Lemma select_columns_missing f cols c cols' :
  Forall (λ c, c ∈ fcolumns f) cols → c ∉ fcolumns f →
  select_columns f (cols ++ c :: cols') = Raise (KeyError c).
Proof.
  intros Hcols Hc. unfold select_columns.
  rewrite filter_app, filter_none, filter_cons, decide_True; [done..|].
  intros c' Hc' Hnot. rewrite Forall_forall in Hcols. by apply Hnot, Hcols.
Qed.

Lemma select_columns_rows f cols f' :
  select_columns f cols = Ok f' → fcolumns f' = cols ∧ frows f' = frows f.
Proof.
  unfold select_columns. destruct (filter _ cols); [|done]. by intros [= <-].
Qed.

Lemma cell_insert (row : Series) c v : cell (<[c := v]> row) c = v.
Proof. unfold cell. by rewrite lookup_insert_eq. Qed.

Lemma cell_insert_ne (row : Series) c c' v :
  c ≠ c' → cell (<[c := v]> row) c' = cell row c'.
Proof. intros. unfold cell. by rewrite lookup_insert_ne. Qed.

(** ** Charge calculator *)

(** [mapM] over [result]: the list of the results when every call returns. *)
Lemma mapM_Ok {A B : Type} (f : A → result B) (l : list A) (k : list B) :
  mapM f l = Ok k ↔ Forall2 (λ x y, f x = Ok y) l k.
Proof.
  revert k. induction l as [|x l IH]; intros k; simpl.
  - split; [intros [= <-]; constructor | by intros ->%Forall2_nil_inv_l].
  - destruct (f x) as [y|e] eqn:Hx; simpl.
    + destruct (mapM f l) as [k'|e] eqn:Hl; simpl.
      * split.
        -- intros [= <-]. constructor; [done|]. by apply IH.
        -- intros (y' & k'' & Hy & Hk & ->)%Forall2_cons_inv_l.
           rewrite Hx in Hy. injection Hy as <-.
           apply IH in Hk. by injection Hk as <-.
      * split; [done|].
        intros (y' & k'' & _ & Hk & _)%Forall2_cons_inv_l. by apply IH in Hk.
    + split; [done|].
      intros (y' & k'' & Hy & _)%Forall2_cons_inv_l. congruence.
Qed.

(** The division of a column raises only on a string, and then [TypeError]. *)
Lemma mapM_div8_Raise (l : list value) (e : exn) :
  mapM div8 l = Raise e → e = TypeError ∧ ∃ s, VStr s ∈ l.
Proof.
  induction l as [|v l IH]; simpl; [done|].
  destruct (div8 v) as [w|e'] eqn:Hv; simpl.
  - destruct (mapM div8 l) as [k|e'] eqn:Hl; simpl; [done|].
    intros [= <-]. destruct (IH eq_refl) as (-> & s & Hs).
    split; [done|]. exists s. by right.
  - intros [= <-]. destruct v as [| |s| |]; simplify_eq/=.
    split; [done|]. exists s. left.
Qed.

(** When [calculate_charge_jh] returns: the column is there, every cell of
    it divides, and the result is the table with the quotients set. *)
Lemma calculate_charge_jh_Ok (df out : DataFrame) :
  calculate_charge_jh df = Ok out
  ↔ "Soumise (h)" ∈ columns df
    ∧ ∃ charge,
        Forall2 (λ row w, div8 (cell row "Soumise (h)") = Ok w) (rows df) charge
        ∧ out = setcol df "Charge JH" charge.
Proof.
  unfold calculate_charge_jh, getcol.
  destruct (has_column (columns df) "Soumise (h)") eqn:HS; simpl.
  - apply has_column_true in HS.
    destruct (mapM div8 _) as [charge|e] eqn:Hm; simpl.
    + apply mapM_Ok, Forall2_fmap_l in Hm. split.
      * intros [= <-]. split; [done|]. by exists charge.
      * intros (_ & charge' & Hc & ->). do 2 f_equal.
        eapply Forall2_unique; [exact Hm|exact Hc|]. simpl. congruence.
    + split; [done|]. intros (_ & charge & Hc & _).
      assert (Hm' : mapM div8 ((λ row : Series, default VNaN (row !! "Soumise (h)"))
                                 <$> rows df) = Ok charge)
        by (apply mapM_Ok, Forall2_fmap_l; exact Hc).
      congruence.
  - apply has_column_false in HS. split; [done|]. by intros [? _].
Qed.

(** X4: [calculate_charge_jh] raises [KeyError] when the table has no
    'Soumise (h)' column and [TypeError] when a cell of that column holds a
    string; in every other case it returns a table. *)
Theorem calculate_charge_jh_errors (df : DataFrame) :
  ("Soumise (h)" ∉ columns df →
   calculate_charge_jh df = Raise (KeyError "Soumise (h)"))
  ∧ ("Soumise (h)" ∈ columns df →
     (∃ row s, row ∈ rows df ∧ cell row "Soumise (h)" = VStr s) →
     calculate_charge_jh df = Raise TypeError)
  ∧ ("Soumise (h)" ∈ columns df →
     (∀ row s, row ∈ rows df → cell row "Soumise (h)" ≠ VStr s) →
     ∃ out, calculate_charge_jh df = Ok out).
Proof.
  split; [|split].
  - intros HS%has_column_false. unfold calculate_charge_jh, getcol.
    by rewrite HS.
  - intros HS (row & s & Hrow & Hcell).
    destruct (calculate_charge_jh df) as [out|e] eqn:Hout.
    + apply calculate_charge_jh_Ok in Hout as (_ & charge & Hc & _).
      apply list_elem_of_lookup in Hrow as [i Hi].
      destruct (Forall2_lookup_l _ _ _ _ _ Hc Hi) as (w & _ & Hw).
      by rewrite Hcell in Hw.
    + unfold calculate_charge_jh, getcol in Hout.
      rewrite (proj2 (has_column_true _ _) HS) in Hout. simpl in Hout.
      destruct (mapM div8 _) as [charge|e'] eqn:Hm; simpl in Hout; [done|].
      injection Hout as <-. by apply mapM_div8_Raise in Hm as [-> _].
  - intros HS Hnum. unfold calculate_charge_jh, getcol.
    rewrite (proj2 (has_column_true _ _) HS). simpl.
    destruct (mapM div8 _) as [charge|e] eqn:Hm; simpl; [by eexists|].
    apply mapM_div8_Raise in Hm as (_ & s & Hs).
    apply list_elem_of_fmap in Hs as (row & Hcell & Hrow).
    by destruct (Hnum row s Hrow).
Qed.

(** X5: the table [calculate_charge_jh] returns has the columns of the
    input, with 'Charge JH' added at the end unless it was there, and the
    rows of the input in their order, each with its 'Soumise (h)' divided
    by eight set as 'Charge JH' and every other cell as it was. *)
Theorem calculate_charge_jh_cells (df out : DataFrame) :
  calculate_charge_jh df = Ok out →
  columns out
  = (if has_column (columns df) "Charge JH" then columns df
     else columns df ++ ["Charge JH"])
  ∧ length (rows out) = length (rows df)
  ∧ ∀ k row, rows df !! k = Some row →
      ∃ v, div8 (cell row "Soumise (h)") = Ok v
           ∧ rows out !! k = Some (<["Charge JH" := v]> row).
Proof.
  intros (_ & charge & Hc & ->)%calculate_charge_jh_Ok. simpl.
  split; [done|]. split.
  - rewrite length_zip_with. apply Forall2_length in Hc. lia.
  - intros k row Hk.
    destruct (Forall2_lookup_l _ _ _ _ _ Hc Hk) as (v & Hv & Hdiv).
    exists v. split; [done|]. rewrite lookup_zip_with, Hk. simpl. by rewrite Hv.
Qed.

Lemma calculate_charge_jh_cells_witness :
  ∃ out, calculate_charge_jh hours = Ok out
    ∧ columns out = ["Nom"; "Soumise (h)"; "Charge JH"]
    ∧ length (rows out) = length (rows hours)
    ∧ ∀ k row, rows hours !! k = Some row →
        ∃ v, div8 (cell row "Soumise (h)") = Ok v
             ∧ rows out !! k = Some (<["Charge JH" := v]> row).
Proof.
  destruct (calculate_charge_jh hours) as [out|e] eqn:Hout;
    [|by vm_compute in Hout].
  exists out. split; [done|].
  exact (calculate_charge_jh_cells hours out Hout).
Defined.

(** X6: [calculate_charge_jh] applied to a table it returned returns that
    table: 'Charge JH' is computed from 'Soumise (h)' alone, which it leaves
    as it was. *)
Theorem calculate_charge_jh_twice (df out : DataFrame) :
  calculate_charge_jh df = Ok out → calculate_charge_jh out = Ok out.
Proof.
  intros (HS & charge & Hc & ->)%calculate_charge_jh_Ok.
  apply calculate_charge_jh_Ok. split.
  - simpl. destruct (has_column _ _); [done|]. apply elem_of_app. by left.
  - exists charge. split.
    + simpl. induction Hc as [|row w rs ws Hw _ IH]; simpl; constructor; [|done].
      by rewrite cell_insert_ne.
    + unfold setcol. simpl. f_equal.
      * destruct (has_column (columns df) "Charge JH") eqn:Hcol.
        -- by rewrite Hcol.
        -- rewrite (proj2 (has_column_true _ _)); [done|].
           apply elem_of_app. right. left.
      * induction Hc as [|row w rs ws _ _ IH]; simpl; [done|].
        by rewrite insert_insert_eq, <- IH.
Qed.

Lemma calculate_charge_jh_twice_witness :
  ∃ out, calculate_charge_jh hours = Ok out ∧ calculate_charge_jh out = Ok out.
Proof.
  destruct (calculate_charge_jh hours) as [out|e] eqn:Hout;
    [|by vm_compute in Hout].
  exists out. split; [done|]. exact (calculate_charge_jh_twice hours out Hout).
Defined.

(** ** Year summary builder *)

Section YearSummaryFacts.

Variable to_datetime : list value → list value.
Variable dt_year : value → Z.

Abbreviation parse_dates := (parse_dates to_datetime).
Abbreviation year_sorted := (year_sorted dt_year).
Abbreviation create_projects_by_month_summary :=
  (create_projects_by_month_summary to_datetime dt_year).

Lemma columns_needed_present (df : DataFrame) :
  "Nom" ∈ columns df → "Date d'affectation" ∈ columns df →
  "Phase du projet" ∈ columns df →
  Forall (λ c, c ∈ columns df) (columns_needed_of df).
Proof.
  intros HN HD HP. unfold columns_needed_of.
  repeat (apply Forall_app; split); [by repeat constructor|..].
  - destruct (has_column _ _) eqn:Hc; repeat constructor.
    by apply has_column_true.
  - destruct (has_column _ "Dernière Note") eqn:Hc; repeat constructor.
    by apply has_column_true.
Qed.

Lemma effective_dates_columns (df : DataFrame) phases :
  "Nom" ∈ columns df → "Date d'affectation" ∈ columns df →
  "Phase du projet" ∈ columns df →
  ∃ f, effective_dates df phases = Ok f
       ∧ ∀ c, c ∈ columns_needed_of df → c ∈ fcolumns f.
Proof.
  intros HN HD HP. unfold effective_dates.
  rewrite select_columns_present by by apply columns_needed_present.
  simpl. eexists. split; [done|]. intros c Hc.
  destruct (has_column _ _); simpl; repeat apply elem_of_add_column; done.
Qed.

Lemma parse_dates_columns f c : c ∈ fcolumns f → c ∈ fcolumns (parse_dates f).
Proof. intros Hc. simpl. by apply elem_of_add_column. Qed.

Lemma year_sorted_present f :
  "Nom" ∈ fcolumns f → "Dernière Note" ∈ fcolumns f →
  year_sorted f
  = Ok (sort_year_name
          (rename_columns ["Année"; "Nom du projet"; "Dernière Note"]
             {| fcolumns := ["Année"; "Nom"; "Dernière Note"];
                frows := frows (assign "Année"
                  (λ row, VInt (dt_year (cell row "Date effective"))) f) |})).
Proof.
  intros HN HD. unfold year_sorted.
  rewrite select_columns_present; [done|].
  repeat constructor; simpl;
    [apply elem_of_add_column_new | by apply elem_of_add_column..].
Qed.

Lemma year_sorted_columns f result_df :
  year_sorted f = Ok result_df →
  fcolumns result_df = ["Année"; "Nom du projet"; "Dernière Note"].
Proof.
  unfold year_sorted. destruct (select_columns _ _); [|done].
  by intros [= <-].
Qed.

End YearSummaryFacts.

(** *** The loop over the years *)

Lemma blank_year_twice r : blank_year (blank_year r) = blank_year r.
Proof.
  unfold blank_year. simpl. f_equal.
  rewrite (insert_insert_ne _ "Année" "Nombre de projets") by done.
  by rewrite !insert_insert_eq.
Qed.

Lemma blank_labels_nil rs : blank_labels [] rs = rs.
Proof.
  unfold blank_labels. rewrite <- (list_fmap_id rs) at 2.
  apply list_fmap_ext. intros _ r _.
  by rewrite bool_decide_eq_false_2 by apply not_elem_of_nil.
Qed.

Lemma blank_labels_app B T rs :
  blank_labels T (blank_labels B rs) = blank_labels (B ++ T) rs.
Proof.
  unfold blank_labels. rewrite <- list_fmap_compose.
  apply list_fmap_ext. intros _ r _. simpl.
  destruct (bool_decide_reflect (r.1 ∈ B)) as [HB|HB]; simpl.
  - rewrite (bool_decide_eq_true_2 (r.1 ∈ B ++ T)) by (apply elem_of_app; by left).
    case_bool_decide; [apply blank_year_twice|done].
  - destruct (bool_decide_reflect (r.1 ∈ T)) as [HT|HT].
    + by rewrite bool_decide_eq_true_2 by (apply elem_of_app; by right).
    + rewrite bool_decide_eq_false_2; [done|].
      intros [?|?]%elem_of_app; done.
Qed.


Lemma clear_year_rows f y :
  frows (clear_year f y) = blank_labels (repeated (frows f) y) (frows f).
Proof.
  unfold clear_year, repeated, year_cell.
  set (idx := (filter (λ r, cell r.2 "Année" = y) (frows f)).*1).
  destruct (1 <? length idx)%nat eqn:Hlen; simpl.
  - unfold blank_labels. rewrite <- list_fmap_compose.
    apply list_fmap_ext. intros _ r _. simpl.
    destruct (bool_decide (r.1 ∈ tail idx)) eqn:Hin; simpl; by rewrite Hin.
  - apply Nat.ltb_ge in Hlen.
    assert (tail idx = []) as ->; [|by rewrite blank_labels_nil].
    destruct idx as [|i [|j idx]]; simpl in *; [done..|lia].
Qed.

Lemma clear_year_columns f y :
  "Année" ∈ fcolumns f → "Nombre de projets" ∈ fcolumns f →
  fcolumns (clear_year f y) = fcolumns f.
Proof.
  intros HA HN. unfold clear_year. destruct (_ <? _)%nat; [|done]. simpl.
  by rewrite (add_column_present _ "Année"), add_column_present.
Qed.

(** The rows of a year not yet cleared are found as before the loop. *)
Lemma blank_labels_filter B rs y :
  y ≠ VStr "" →
  (∀ r, r ∈ rs → r.1 ∈ B → year_cell r ≠ y) →
  filter (λ r, year_cell r = y) (blank_labels B rs)
  = filter (λ r, year_cell r = y) rs.
Proof.
  intros Hy. induction rs as [|r rs IH]; intros HB; [done|].
  unfold blank_labels in *. csimpl. rewrite !filter_cons.
  rewrite IH by (intros r' Hr'; apply HB; by right). clear IH.
  destruct (bool_decide_reflect (r.1 ∈ B)) as [Hin|Hin]; [|done].
  rewrite decide_False.
  - rewrite decide_False; [done|]. apply HB; [left|done].
  - unfold year_cell, blank_year. simpl.
    rewrite cell_insert_ne, cell_insert by done. congruence.
Qed.

(** A label stands for one row. *)
Lemma label_unique (rs : list (nat * Series)) r r' :
  NoDup rs.*1 → r ∈ rs → r' ∈ rs → r.1 = r'.1 → r = r'.
Proof.
  intros Hnd Hr Hr' Heq.
  apply list_elem_of_lookup in Hr as [i Hi], Hr' as [j Hj].
  assert (i = j) as ->.
  { eapply NoDup_lookup; [exact Hnd|..]; rewrite list_lookup_fmap.
    - by rewrite Hi.
    - rewrite Hj. simpl. by rewrite Heq. }
  congruence.
Qed.

Lemma repeated_year (rs : list (nat * Series)) y i :
  i ∈ repeated rs y → ∃ r, r ∈ rs ∧ r.1 = i ∧ year_cell r = y.
Proof.
  unfold repeated. intros Hi.
  assert (Hi' : i ∈ (filter (λ r, year_cell r = y) rs).*1).
  { destruct (_.*1) as [|j l]; [done|]. by right. }
  apply list_elem_of_fmap in Hi' as (r & -> & Hr).
  apply list_elem_of_filter in Hr as [Hy Hr]. by exists r.
Qed.

Lemma clear_years_rows (rs : list (nat * Series)) (ys : list value) B f :
  NoDup ys → (∀ y, y ∈ ys → y ≠ VStr "") → NoDup rs.*1 →
  (∀ r, r ∈ rs → r.1 ∈ B → year_cell r ∉ ys) →
  frows f = blank_labels B rs →
  frows (foldl clear_year f ys)
  = blank_labels (B ++ concat (repeated rs <$> ys)) rs.
Proof.
  intros Hys Hne Hnd. revert B f.
  induction Hys as [|y ys Hy Hys IH]; intros B f HB Hf; simpl.
  - by rewrite app_nil_r.
  - assert (Hstep : frows (clear_year f y) = blank_labels (B ++ repeated rs y) rs).
    { rewrite clear_year_rows, Hf. unfold repeated at 1.
      rewrite blank_labels_filter.
      - apply blank_labels_app.
      - apply Hne. left.
      - intros r Hr Hin Heq. apply (HB r Hr Hin). rewrite Heq. left. }
    assert (Hne' : ∀ y', y' ∈ ys → y' ≠ VStr "")
      by (intros y' Hy'; apply Hne; by right).
    rewrite (IH Hne' (B ++ repeated rs y) (clear_year f y)).
    + by rewrite <- app_assoc.
    + intros r Hr [Hin|Hin]%elem_of_app Hyr.
      * apply (HB r Hr Hin). by right.
      * apply repeated_year in Hin as (r' & Hr' & Hlab & Hy').
        assert (r' = r) as -> by by apply (label_unique rs).
        rewrite Hy' in Hyr. done.
    + done.
Qed.

Lemma elem_of_concat {A : Type} (x : A) (ls : list (list A)) :
  x ∈ concat ls ↔ ∃ l, x ∈ l ∧ l ∈ ls.
Proof.
  rewrite list_elem_of_In, in_concat. setoid_rewrite list_elem_of_In.
  split; intros (l & ? & ?); by exists l.
Qed.

(** [unique] keeps every cell once. *)
Lemma elem_of_unique l v : v ∈ unique l ↔ v ∈ l.
Proof.
  induction l as [|x l IH]; simpl; [done|].
  rewrite !elem_of_cons, list_elem_of_filter, IH.
  destruct (decide (v = x)); tauto.
Qed.

Lemma NoDup_unique l : NoDup (unique l).
Proof.
  induction l as [|x l IH]; simpl; [constructor|].
  apply NoDup_cons. split; [|by apply NoDup_filter].
  rewrite list_elem_of_filter. by intros [? _].
Qed.

(** A row is cleared by the loop exactly when a row of its year precedes
    it. *)
Lemma cleared_iff_preceded (pre post : list (nat * Series)) r :
  let rs := pre ++ r :: post in
  NoDup rs.*1 →
  r.1 ∈ concat (repeated rs <$> unique (year_cell <$> rs))
  ↔ ∃ p, p ∈ pre ∧ year_cell p = year_cell r.
Proof.
  intros rs Hnd.
  assert (Hr : r ∈ rs) by (apply elem_of_app; right; left).
  assert (Hfilter : filter (λ r', year_cell r' = year_cell r) rs
          = filter (λ r', year_cell r' = year_cell r) pre
            ++ r :: filter (λ r', year_cell r' = year_cell r) post).
  { unfold rs. by rewrite filter_app, filter_cons, decide_True. }
  assert (Hown : r.1 ∈ repeated rs (year_cell r)
                 ↔ ∃ p, p ∈ pre ∧ year_cell p = year_cell r).
  { unfold repeated. rewrite Hfilter.
    destruct (filter _ pre) as [|p ps] eqn:Hpre; simpl.
    - split.
      + intros Hin. exfalso.
        apply list_elem_of_fmap in Hin as (r' & Hlab & Hr').
        apply list_elem_of_filter in Hr' as [_ Hr'].
        unfold rs in Hnd. rewrite fmap_app, fmap_cons in Hnd.
        apply NoDup_app in Hnd as (_ & _ & Hnd).
        apply NoDup_cons in Hnd as [Hnd _]. apply Hnd.
        rewrite Hlab. apply list_elem_of_fmap. by exists r'.
      + intros (p & Hp & Hy). exfalso.
        assert (p ∈ filter (λ r', year_cell r' = year_cell r) pre)
          by by apply list_elem_of_filter.
        rewrite Hpre in H. by apply elem_of_nil in H.
    - split.
      + intros _. exists p.
        assert (Hp : p ∈ filter (λ r', year_cell r' = year_cell r) pre)
          by (rewrite Hpre; left).
        by apply list_elem_of_filter in Hp as [? ?].
      + intros _. rewrite fmap_app, fmap_cons. apply elem_of_app. right. left. }
  rewrite <- Hown. split.
  - intros Hin. apply elem_of_concat in Hin as (T & Hin & HT).
    apply list_elem_of_fmap in HT as (y & -> & _).
    destruct (repeated_year _ _ _ Hin) as (r' & Hr' & Hlab & Hy).
    assert (r' = r) as -> by by apply (label_unique rs).
    by rewrite Hy.
  - intros Hin. apply elem_of_concat. exists (repeated rs (year_cell r)).
    split; [done|]. apply list_elem_of_fmap. exists (year_cell r).
    split; [done|]. apply elem_of_unique, list_elem_of_fmap. by exists r.
Qed.

(** *** Labels *)

Lemma NoDup_labels_filter (P : nat * Series → Prop) `{∀ r, Decision (P r)}
    (rs : list (nat * Series)) :
  NoDup rs.*1 → NoDup (filter P rs).*1.
Proof.
  intros Hnd. eapply sublist_NoDup; [exact Hnd|].
  apply fmap_sublist, sublist_filter.
Qed.

Lemma labels_fmap (g : nat * Series → nat * Series) (rs : list (nat * Series)) :
  (∀ r, (g r).1 = r.1) → (g <$> rs).*1 = rs.*1.
Proof.
  intros Hg. rewrite <- list_fmap_compose. apply list_fmap_ext.
  intros _ r _. apply Hg.
Qed.

Lemma NoDup_labels_zip_with (g : nat * Series → value → nat * Series)
    (rs : list (nat * Series)) (vals : list value) :
  (∀ r v, (g r v).1 = r.1) → NoDup rs.*1 → NoDup (zip_with g rs vals).*1.
Proof.
  intros Hg. revert vals. induction rs as [|r rs IH]; intros vals Hnd; [constructor|].
  destruct vals as [|v vals]; [constructor|]. csimpl.
  rewrite fmap_cons in Hnd. apply NoDup_cons in Hnd as [Hr Hnd].
  apply NoDup_cons. split; [|by apply IH].
  rewrite Hg. intros Hin. apply Hr.
  apply list_elem_of_fmap in Hin as (r' & -> & Hr').
  apply list_elem_of_lookup in Hr' as [i Hi].
  apply lookup_zip_with_Some in Hi as (r0 & v0 & -> & Hr0 & _).
  rewrite Hg. apply list_elem_of_fmap. exists r0. split; [done|].
  by apply list_elem_of_lookup_2 in Hr0.
Qed.

Lemma with_index_labels df : NoDup (frows (with_index df)).*1.
Proof.
  simpl. rewrite fst_zip by (by rewrite length_seq). apply NoDup_seq.
Qed.

(** *** The order of the years *)

Lemma Qle_bool_total x y : Qle_bool x y = true ∨ Qle_bool y x = true.
Proof.
  rewrite !Qle_bool_iff. destruct (Qlt_le_dec x y) as [H|H]; [left|right]; [|done].
  by apply Qlt_le_weak.
Qed.

Lemma value_leb_total a b : value_leb a b = true ∨ value_leb b a = true.
Proof.
  destruct a, b; simpl; auto using String.leb_total, Qle_bool_total.
Qed.

Lemma value_leb_VInt x y : value_leb (VInt x) (VInt y) = true ↔ (x ≤ y)%Z.
Proof. simpl. by rewrite Qle_bool_iff, <- Zle_Qle. Qed.

Lemma year_name_leb_total a b :
  year_name_leb a b = true ∨ year_name_leb b a = true.
Proof.
  unfold year_name_leb.
  destruct (value_leb (cell b.2 "Année") (cell a.2 "Année")); simpl; [|by left].
  destruct (value_leb (cell a.2 "Année") (cell b.2 "Année")); simpl; [|by right].
  apply value_leb_total.
Qed.

Lemma year_name_leb_year a b :
  year_name_leb a b = true →
  value_leb (cell a.2 "Année") (cell b.2 "Année") = true.
Proof.
  unfold year_name_leb.
  destruct (value_leb (cell b.2 "Année") (cell a.2 "Année")) eqn:Hba; simpl.
  - by destruct (value_leb (cell a.2 "Année") (cell b.2 "Année")).
  - intros _. destruct (value_leb_total (cell a.2 "Année") (cell b.2 "Année"));
      congruence.
Qed.

Lemma has_year_intro r z : cell r.2 "Année" = VInt z → has_year r.
Proof. unfold has_year, year_of. by intros ->. Qed.

Lemma Sorted_years (rs : list (nat * Series)) :
  Sorted (le_of year_name_leb) rs → Forall has_year rs →
  StronglySorted Z.le (year_of <$> rs).
Proof.
  intros Hs Hy. apply Sorted_StronglySorted; [apply _|].
  induction Hs as [|r rs Hs IH Hr]; [constructor|].
  apply Forall_cons in Hy as [Hyr Hy]. csimpl.
  constructor; [by apply IH|].
  destruct Hr as [|r' rs' Hrr']; constructor.
  apply Forall_cons in Hy as [Hyr' _].
  apply year_name_leb_year in Hrr'.
  unfold has_year in Hyr, Hyr'. rewrite Hyr, Hyr' in Hrr'.
  by apply value_leb_VInt.
Qed.

(** In a table sorted by year, a row is preceded by a row of its year
    exactly when the row just before it is one. *)
Lemma preceded_iff_previous (pre post : list (nat * Series)) r :
  StronglySorted Z.le (year_of <$> pre ++ r :: post) →
  Forall has_year (pre ++ r :: post) →
  (∃ p, p ∈ pre ∧ year_cell p = year_cell r)
  ↔ (∃ pre' p, pre = pre' ++ [p] ∧ year_cell p = year_cell r).
Proof.
  intros Hs Hy. split.
  - intros (p & Hp & Hpr).
    destruct pre as [|p0 pre0] using rev_ind; [by apply elem_of_nil in Hp|].
    clear IHpre0. exists pre0, p0. split; [done|].
    apply Forall_app in Hy as [Hpre Hpost].
    apply Forall_app in Hpre as [Hpre0 Hp0]. apply Forall_cons in Hp0 as [Hp0 _].
    apply Forall_cons in Hpost as [Hr _].
    assert (Hpy : has_year p).
    { apply elem_of_app in Hp as [Hp|Hp%list_elem_of_singleton]; [|by subst].
      rewrite Forall_forall in Hpre0. by apply Hpre0. }
    unfold year_cell, has_year in *.
    assert (Heq : year_of p = year_of r) by congruence.
    rewrite Hp0, Hr. f_equal.
    rewrite !fmap_app, fmap_cons in Hs. csimpl in Hs.
    assert (Hle1 : (year_of p0 ≤ year_of r)%Z).
    { eapply (StronglySorted_app_1_elem_of _ _ _ _ _ Hs).
      - apply elem_of_app. right. left.
      - left. }
    assert (Hle2 : (year_of p ≤ year_of p0)%Z).
    { apply elem_of_app in Hp as [Hp|Hp%list_elem_of_singleton]; [|subst; lia].
      apply StronglySorted_app_1_l in Hs.
      eapply (StronglySorted_app_1_elem_of _ _ _ _ _ Hs).
      - apply list_elem_of_fmap. by exists p.
      - left. }
    lia.
  - intros (pre' & p & -> & Hp). exists p. split; [|done].
    apply elem_of_app. right. left.
Qed.

(** *** The stages of the year summary *)

Lemma count_and_blank_rows f :
  frows (count_and_blank f) = counted (frows f) <$> frows f.
Proof.
  unfold count_and_blank. simpl. rewrite <- !list_fmap_compose.
  apply list_fmap_ext. intros _ r _. unfold counted. simpl.
  by repeat case_bool_decide.
Qed.

Lemma counted_label rs r : (counted rs r).1 = r.1.
Proof. done. Qed.

Lemma counted_year rs r : year_cell (counted rs r) = year_cell r.
Proof.
  unfold counted, year_cell. simpl.
  repeat destruct (bool_decide _); by rewrite ?cell_insert_ne by done.
Qed.

Lemma year_of_counted rs r : year_of (counted rs r) = year_of r.
Proof.
  unfold year_of. change (cell (counted rs r).2 "Année") with (year_cell (counted rs r)).
  by rewrite counted_year.
Qed.

Lemma has_year_counted rs r : has_year r → has_year (counted rs r).
Proof.
  unfold has_year. rewrite year_of_counted.
  change (cell (counted rs r).2 "Année") with (year_cell (counted rs r)).
  by rewrite counted_year.
Qed.

Lemma counted_count rs r :
  cell (counted rs r).2 "Nombre de projets" = year_count rs r.2.
Proof.
  unfold counted. simpl.
  repeat destruct (bool_decide _);
    rewrite ?cell_insert_ne by done; apply cell_insert.
Qed.



Lemma blank_year_cells r :
  cell (blank_year r).2 "Année" = VStr ""
  ∧ cell (blank_year r).2 "Nombre de projets" = VStr "".
Proof.
  unfold blank_year. simpl. by rewrite cell_insert, cell_insert_ne, cell_insert.
Qed.

Lemma clear_years_columns f ys :
  "Année" ∈ fcolumns f → "Nombre de projets" ∈ fcolumns f →
  fcolumns (foldl clear_year f ys) = fcolumns f.
Proof.
  revert f. induction ys as [|y ys IH]; intros f HA HN; simpl; [done|].
  rewrite IH; rewrite clear_year_columns; done.
Qed.

(** The table the loop leaves: the rows of the years but the first of each
    cleared, the other rows as they were. *)
Lemma clear_repeated_years_rows f :
  "Année" ∈ fcolumns f → "Nombre de projets" ∈ fcolumns f →
  "Nom du projet" ∈ fcolumns f → "Dernière Note" ∈ fcolumns f →
  NoDup (frows f).*1 → Forall has_year (frows f) →
  ∃ out, clear_repeated_years f = Ok out
    ∧ fcolumns out = summary_columns
    ∧ frows out
      = blank_labels
          (concat (repeated (frows f) <$> unique (year_cell <$> frows f)))
          (frows f).
Proof.
  intros HA HC HN HD Hnd Hy. unfold clear_repeated_years.
  rewrite select_columns_present.
  - eexists. split; [done|]. split; [done|]. simpl.
    rewrite (clear_years_rows (frows f) _ [] f); [done|apply NoDup_unique|..].
    + intros y (r & -> & Hr)%elem_of_unique%list_elem_of_fmap.
      rewrite Forall_forall in Hy. unfold year_cell. by rewrite (Hy r Hr).
    + done.
    + intros r _ Hin. by apply elem_of_nil in Hin.
    + by rewrite blank_labels_nil.
  - rewrite clear_years_columns by done. unfold summary_columns.
    by repeat constructor.
Qed.

(** Every row of a summary is the row at its place in the sorted table with
    its count, and with year and count cleared unless it is the first of
    its year; the labels of the sorted table are taken to be distinct. *)
Lemma cleared_row_at result_df out k o :
  fcolumns result_df = ["Année"; "Nom du projet"; "Dernière Note"] →
  NoDup (frows result_df).*1 →
  Forall has_year (frows result_df) →
  StronglySorted Z.le (year_of <$> frows result_df) →
  clear_repeated_years (count_and_blank result_df) = Ok out →
  frows out !! k = Some o →
  ∃ r, frows result_df !! k = Some r
    ∧ has_year r
    ∧ (first_of_year (frows result_df) k r → o = counted (frows result_df) r)
    ∧ (¬ first_of_year (frows result_df) k r
       → o = blank_year (counted (frows result_df) r)).
Proof.
  intros Hcols Hnd Hyears Hsorted Hout Hk.
  set (rs := frows result_df) in *.
  set (R0 := counted rs <$> rs).
  assert (HR0 : frows (count_and_blank result_df) = R0)
    by apply count_and_blank_rows.
  assert (Hnd0 : NoDup R0.*1) by (unfold R0; by rewrite labels_fmap).
  assert (Hyears0 : Forall has_year R0).
  { unfold R0. apply Forall_fmap. eapply Forall_impl; [exact Hyears|].
    intros r Hr. by apply has_year_counted. }
  assert (Hsorted0 : StronglySorted Z.le (year_of <$> R0)).
  { unfold R0. rewrite <- list_fmap_compose.
    erewrite list_fmap_ext; [exact Hsorted|].
    intros _ r _. apply year_of_counted. }
  destruct (clear_repeated_years_rows (count_and_blank result_df))
    as (out' & Hout' & _ & Hrows');
    [simpl; rewrite Hcols; simpl; in_list..| by rewrite HR0 | by rewrite HR0 |].
  rewrite Hout in Hout'. injection Hout' as <-.
  rewrite HR0 in Hrows'. rewrite Hrows' in Hk.
  unfold blank_labels in Hk. rewrite list_lookup_fmap in Hk.
  destruct (R0 !! k) as [c|] eqn:Hc; [|done]. simpl in Hk. injection Hk as <-.
  unfold R0 in Hc. rewrite list_lookup_fmap in Hc.
  destruct (rs !! k) as [r|] eqn:Hr; [|done]. simpl in Hc. injection Hc as <-.
  exists r. split; [done|].
  assert (Hry : has_year r).
  { rewrite Forall_forall in Hyears. apply Hyears. by eapply list_elem_of_lookup_2. }
  split; [done|].
  assert (Hc : R0 !! k = Some (counted rs r)).
  { unfold R0. by rewrite list_lookup_fmap, Hr. }
  assert (Hsplit : take k R0 ++ counted rs r :: drop (S k) R0 = R0)
    by by apply take_drop_middle.
  assert (Hcleared :
    (counted rs r).1 ∈ concat (repeated R0 <$> unique (year_cell <$> R0))
    ↔ ¬ first_of_year rs k r).
  { rewrite <- Hsplit at 1 2.
    rewrite cleared_iff_preceded by by rewrite Hsplit.
    rewrite preceded_iff_previous by by rewrite Hsplit.
    rewrite counted_year. unfold first_of_year.
    destruct k as [|k']; simpl.
    - split; [|tauto]. intros (pre' & p & Hpre & _).
      by destruct pre'.
    - rewrite Nat.sub_0_r.
      destruct (rs !! k') as [q|] eqn:Hq.
      + assert (Hq0 : R0 !! k' = Some (counted rs q)).
        { unfold R0. by rewrite list_lookup_fmap, Hq. }
        rewrite (take_S_r _ _ _ Hq0). split.
        * intros (pre' & p & Hpre & Hy) [?|(p' & [= <-] & Hne)]; [done|].
          apply app_inj_tail in Hpre as [_ <-]. by rewrite counted_year in Hy.
        * intros Hfirst. exists (take k' R0), (counted rs q). split; [done|].
          rewrite counted_year.
          destruct (decide (year_cell q = year_cell r)) as [|Hne]; [done|].
          exfalso. apply Hfirst. right. by exists q.
      + apply lookup_ge_None in Hq. apply lookup_lt_Some in Hr. lia. }
  split.
  - intros Hfirst. rewrite bool_decide_eq_false_2; [done|].
    rewrite Hcleared. tauto.
  - intros Hfirst. by rewrite bool_decide_eq_true_2 by by rewrite Hcleared.
Qed.

Section YearSummaryStages.

Variable to_datetime : list value → list value.
Variable dt_year : value → Z.

Abbreviation year_rows := (year_rows to_datetime dt_year).

Lemma create_stages deployments_df phases_checked out :
  create_projects_by_month_summary to_datetime dt_year deployments_df phases_checked
  = Ok out →
  frows out = []
  ∨ ∃ result_df, year_rows deployments_df phases_checked = Ok result_df
      ∧ clear_repeated_years (count_and_blank result_df) = Ok out.
Proof.
  unfold create_projects_by_month_summary, year_rows.
  destruct (negb _); [intros [= <-]; by left|].
  destruct (effective_dates _ _) as [f|]; [|done]. simpl.
  destruct (frame_empty f); [intros [= <-]; by left|].
  destruct (frame_empty _); [intros [= <-]; by left|].
  destruct (year_sorted _ _) as [result_df|]; [|done]. simpl.
  intros Hout. right. by exists result_df.
Qed.

Lemma effective_dates_labels df phases f :
  effective_dates df phases = Ok f → NoDup (frows f).*1.
Proof.
  unfold effective_dates.
  destruct (select_columns _ _) as [f0|] eqn:Hsel; [|done]. simpl.
  apply select_columns_rows in Hsel as [_ Hrows]. intros [= <-].
  unfold dropna. simpl. apply NoDup_labels_filter.
  assert (Hnd : NoDup (frows (assign "Date effective"
      (λ row, cell row "Date d'affectation")
      (filter_rows (λ row, bool_decide
         (cell row "Phase du projet" ∈ allowed_phases_of phases)) f0))).*1).
  { simpl. rewrite labels_fmap by done. apply NoDup_labels_filter.
    rewrite Hrows. apply with_index_labels. }
  destruct (has_column _ _); [|done].
  simpl. rewrite labels_fmap; [done|]. intros r. by destruct (_ && _).
Qed.

Lemma parse_dates_labels f :
  NoDup (frows f).*1 → NoDup (frows (parse_dates to_datetime f)).*1.
Proof.
  intros Hnd. unfold parse_dates, dropna. simpl.
  apply NoDup_labels_filter. by apply NoDup_labels_zip_with.
Qed.

(** What the sorted table is made of. *)
Lemma year_sorted_rows f result_df :
  year_sorted dt_year f = Ok result_df →
  NoDup (frows f).*1 →
  fcolumns result_df = ["Année"; "Nom du projet"; "Dernière Note"]
  ∧ NoDup (frows result_df).*1
  ∧ Forall has_year (frows result_df)
  ∧ StronglySorted Z.le (year_of <$> frows result_df).
Proof.
  unfold year_sorted.
  destruct (select_columns _ _) as [f0|] eqn:Hsel; [|done]. simpl.
  apply select_columns_rows in Hsel as [Hcols Hrows]. intros [= <-] Hnd.
  simpl. rewrite Hcols, Hrows. simpl.
  set (rs := (λ r : nat * Series, (r.1, _)) <$> _).
  assert (Hlab : rs.*1 = (frows f).*1).
  { unfold rs. by rewrite !labels_fmap. }
  assert (Hyears : Forall has_year rs).
  { unfold rs. rewrite <- list_fmap_compose. apply Forall_fmap, Forall_true.
    intros r. eapply has_year_intro. simpl.
    rewrite cell_insert. apply cell_insert. }
  split; [done|]. split; [|split].
  - rewrite (sort_by_perm year_name_leb rs). by rewrite Hlab.
  - by rewrite (sort_by_perm year_name_leb rs).
  - apply Sorted_years.
    + apply sort_by_sorted, year_name_leb_total.
    + by rewrite (sort_by_perm year_name_leb rs).
Qed.

Lemma year_rows_facts deployments_df phases_checked result_df :
  year_rows deployments_df phases_checked = Ok result_df →
  fcolumns result_df = ["Année"; "Nom du projet"; "Dernière Note"]
  ∧ NoDup (frows result_df).*1
  ∧ Forall has_year (frows result_df)
  ∧ StronglySorted Z.le (year_of <$> frows result_df).
Proof.
  unfold year_rows.
  destruct (effective_dates _ _) as [f|] eqn:Hf; [|done]. simpl.
  intros Hsorted. apply (year_sorted_rows _ _ Hsorted).
  by apply parse_dates_labels, (effective_dates_labels _ _ _ Hf).
Qed.

(** Every row of the summary is a row of [year_rows] with its count, its
    name and note blanked in 2024 and 2025, and its year and count cleared
    unless it is the first of its year. *)
Lemma summary_row_at deployments_df phases_checked out k o :
  create_projects_by_month_summary to_datetime dt_year deployments_df phases_checked
  = Ok out →
  frows out !! k = Some o →
  ∃ result_df r,
    year_rows deployments_df phases_checked = Ok result_df
    ∧ frows result_df !! k = Some r
    ∧ has_year r
    ∧ (first_of_year (frows result_df) k r → o = counted (frows result_df) r)
    ∧ (¬ first_of_year (frows result_df) k r
       → o = blank_year (counted (frows result_df) r)).
Proof.
  intros Hout Hk.
  apply create_stages in Hout as [Hnil|(result_df & Hrows & Hout)];
    [by rewrite Hnil in Hk|].
  destruct (year_rows_facts _ _ _ Hrows) as (Hcols & Hnd & Hyears & Hsorted).
  destruct (cleared_row_at _ _ _ _ Hcols Hnd Hyears Hsorted Hout Hk)
    as (r & Hr & Hy & Hfirst & Hrest).
  by exists result_df, r.
Qed.


Lemma elem_of_columns_needed (df : DataFrame) :
  "Nom" ∈ columns_needed_of df
  ∧ ("Dernière Note" ∈ columns df → "Dernière Note" ∈ columns_needed_of df).
Proof.
  unfold columns_needed_of. split; [apply list_elem_of_here|].
  intros H%has_column_true. rewrite H.
  apply elem_of_app. right. apply elem_of_app. right. in_list.
Qed.

(** C4, amended: without the 'Date d'affectation' column the result is
    the empty summary; with it, an absent 'Nom' or 'Phase du projet' column
    raises [KeyError]; with these three and 'Dernière Note' present no
    [KeyError] is raised: no exception comes from an absent column. *)
Theorem absent_columns deployments_df phases_checked :
  ("Date d'affectation" ∉ columns deployments_df →
   create_projects_by_month_summary to_datetime dt_year deployments_df
     phases_checked = Ok empty_summary)
  ∧ ("Date d'affectation" ∈ columns deployments_df →
     "Nom" ∉ columns deployments_df →
     create_projects_by_month_summary to_datetime dt_year deployments_df
       phases_checked = Raise (KeyError "Nom"))
  ∧ ("Date d'affectation" ∈ columns deployments_df →
     "Nom" ∈ columns deployments_df →
     "Phase du projet" ∉ columns deployments_df →
     create_projects_by_month_summary to_datetime dt_year deployments_df
       phases_checked = Raise (KeyError "Phase du projet"))
  ∧ ("Date d'affectation" ∈ columns deployments_df →
     "Nom" ∈ columns deployments_df →
     "Phase du projet" ∈ columns deployments_df →
     "Dernière Note" ∈ columns deployments_df →
     ∀ key, create_projects_by_month_summary to_datetime dt_year deployments_df
              phases_checked ≠ Raise (KeyError key)).
Proof.
  unfold create_projects_by_month_summary. repeat split.
  - intros HD%has_column_false. by rewrite HD.
  - intros HD%has_column_true HN. rewrite HD. simpl.
    assert (Hsel : select_columns (with_index deployments_df)
                     (columns_needed_of deployments_df) = Raise (KeyError "Nom"))
      by by apply (select_columns_missing _ [] "Nom").
    unfold effective_dates. by rewrite Hsel.
  - intros HD HN HP. rewrite (proj2 (has_column_true _ _) HD). simpl.
    assert (Hsel : select_columns (with_index deployments_df)
                     (columns_needed_of deployments_df)
                   = Raise (KeyError "Phase du projet")).
    { apply (select_columns_missing _ ["Nom"; "Date d'affectation"]
               "Phase du projet"); [|done].
      by repeat constructor. }
    unfold effective_dates. by rewrite Hsel.
  - intros HD HN HP HDN key.
    match goal with |- ?x ≠ _ =>
      enough (∃ out, x = Ok out) as [out ->] by done end.
    rewrite (proj2 (has_column_true _ _) HD). simpl.
    destruct (effective_dates_columns deployments_df phases_checked HN HD HP)
      as (f & Hf & Hcols).
    rewrite Hf. simpl.
    destruct (frame_empty f); [by eexists|].
    destruct (frame_empty _); [by eexists|].
    destruct (elem_of_columns_needed deployments_df) as [HN' HDN'].
    assert (Hsorted := year_sorted_present dt_year (parse_dates to_datetime f)
              (parse_dates_columns _ _ _ (Hcols _ HN'))
              (parse_dates_columns _ _ _ (Hcols _ (HDN' HDN)))).
    rewrite Hsorted. simpl.
    destruct (year_sorted_rows _ _ Hsorted) as (Hc & Hnd & Hyears & _).
    { by apply parse_dates_labels, (effective_dates_labels _ _ _ Hf). }
    match goal with |- ∃ out, clear_repeated_years (count_and_blank ?r) = _ =>
      destruct (clear_repeated_years_rows (count_and_blank r))
        as (out & Hout & _) end.
    1-4: simpl; in_list.
    + rewrite count_and_blank_rows. by rewrite labels_fmap.
    + rewrite count_and_blank_rows. apply Forall_fmap.
      eapply Forall_impl; [exact Hyears|]. intros r. apply has_year_counted.
    + by exists out.
Qed.

End YearSummaryStages.

(** *** A sample table *)

Example sample_summary_cells :
  (λ r, (r.1, cell r.2 <$> fcolumns sample_summary)) <$> frows sample_summary
  = [ (3, [VInt 2022; VInt 1; VStr "D"; VStr "n4"]);
      (1, [VInt 2023; VInt 3; VStr "A"; VStr "n2"]);
      (2, [VStr ""; VStr ""; VStr "B"; VStr "n3"]);
      (0, [VStr ""; VStr ""; VStr "C"; VStr "n1"]);
      (6, [VInt 2024; VInt 1; VStr ""; VStr ""]) ].
Proof. by vm_compute. Qed.

(** C4, counterexample: with 'Date d'affectation' alone in the schema the
    selection of the needed columns raises [KeyError] on 'Nom'. *)
Lemma no_column_error_fails :
  ¬ no_column_error sample_to_datetime sample_dt_year dates_only None.
Proof. intros Hno. by apply (Hno "Nom"). Qed.

Lemma absent_columns_witness :
  create_projects_by_month_summary sample_to_datetime sample_dt_year
    dates_only None = Raise (KeyError "Nom")
  ∧ ∀ key, create_projects_by_month_summary sample_to_datetime sample_dt_year
             sample_deployments None ≠ Raise (KeyError key).
Proof.
  split.
  - apply (absent_columns sample_to_datetime sample_dt_year dates_only None);
      unfold dates_only; simpl; [in_list|].
    by intros ?%list_elem_of_singleton.
  - apply (absent_columns sample_to_datetime sample_dt_year sample_deployments None);
      unfold sample_deployments; simpl; in_list.
Defined.


(** *** The summary and the input *)

Lemma StronglySorted_lookup_lt {A : Type} (R : relation A) (l : list A) i j x y :
  StronglySorted R l → (i < j)%nat → l !! i = Some x → l !! j = Some y → R x y.
Proof.
  intros Hs Hij Hi Hj. rewrite <- (take_drop j l) in Hs.
  eapply StronglySorted_app_1_elem_of; [exact Hs|..].
  - apply elem_of_take. by exists i.
  - apply list_elem_of_lookup. exists 0. by rewrite lookup_drop, Nat.add_0_r.
Qed.


Lemma not_elem_of_add_column cols c c' :
  c' ≠ c → c' ∉ cols → c' ∉ add_column cols c.
Proof.
  intros Hne Hc. unfold add_column. destruct (has_column cols c); [done|].
  rewrite elem_of_app, list_elem_of_singleton. intuition congruence.
Qed.





Section YearSummaryRows.

Variable to_datetime : list value → list value.
Variable dt_year : value → Z.

Abbreviation year_rows := (year_rows to_datetime dt_year).

(** X10: whatever the input, a summary that is returned has the four
    columns 'Année', 'Nombre de projets', 'Nom du projet' and 'Dernière
    Note', in this order. *)
Theorem summary_schema deployments_df phases_checked out :
  create_projects_by_month_summary to_datetime dt_year deployments_df
    phases_checked = Ok out →
  fcolumns out = summary_columns.
Proof.
  unfold create_projects_by_month_summary.
  destruct (negb _); [by intros [= <-]|].
  destruct (effective_dates _ _) as [f|]; [|done]. simpl.
  destruct (frame_empty f); [by intros [= <-]|].
  destruct (frame_empty _); [by intros [= <-]|].
  destruct (year_sorted _ _) as [result_df|]; [|done]. simpl.
  unfold clear_repeated_years. by intros [? _]%select_columns_rows.
Qed.

(** The working copy has columns, so it is empty when it has no rows. *)
Lemma effective_dates_empty deployments_df phases_checked f :
  effective_dates deployments_df phases_checked = Ok f →
  frame_empty f = bool_decide (frows f = [])
  ∧ frame_empty (parse_dates to_datetime f)
    = bool_decide (frows (parse_dates to_datetime f) = [])
  ∧ (frows f = [] → frows (parse_dates to_datetime f) = []).
Proof.
  unfold effective_dates.
  destruct (select_columns _ _) as [f0|] eqn:Hsel; [|done]. simpl.
  apply select_columns_rows in Hsel as [Hcols _]. intros Hf.
  assert (HN : "Nom" ∈ fcolumns f).
  { injection Hf as <-. unfold dropna, filter_rows. simpl.
    assert (HN : "Nom" ∈ add_column (fcolumns f0) "Date effective").
    { apply elem_of_add_column. rewrite Hcols. apply list_elem_of_here. }
    destruct (has_column _ _); simpl; [by apply elem_of_add_column|done]. }
  assert (Hne : ∀ cols : list string, "Nom" ∈ cols → bool_decide (cols = []) = false).
  { intros cols Hin. apply bool_decide_eq_false. intros ->.
    by apply elem_of_nil in Hin. }
  split; [|split].
  - unfold frame_empty. rewrite (Hne _ HN). apply orb_false_r.
  - unfold frame_empty. rewrite (Hne (fcolumns (parse_dates to_datetime f))).
    + apply orb_false_r.
    + by apply parse_dates_columns.
  - intros Hnil. unfold parse_dates, dropna, filter_rows, assign_values. simpl.
    by rewrite Hnil.
Qed.

Lemma effective_dates_no_note deployments_df phases_checked f :
  "Dernière Note" ∉ columns deployments_df →
  effective_dates deployments_df phases_checked = Ok f →
  "Dernière Note" ∉ fcolumns f.
Proof.
  intros HDN. unfold effective_dates.
  destruct (select_columns _ _) as [f0|] eqn:Hsel; [|done]. simpl.
  apply select_columns_rows in Hsel as [Hc0 _]. intros [= <-].
  assert (H0 : "Dernière Note" ∉ fcolumns f0).
  { rewrite Hc0. unfold columns_needed_of.
    rewrite (proj2 (has_column_false _ _) HDN).
    destruct (has_column (columns deployments_df) "Date de création");
      simpl; not_in_list. }
  unfold dropna, filter_rows. simpl.
  destruct (has_column _ _); simpl; by repeat apply not_elem_of_add_column.
Qed.

(** X11: with 'Date d'affectation', 'Nom' and 'Phase du projet' in the
    schema and 'Dernière Note' absent, the function returns the empty
    summary when no row of an allowed phase has a date that parses, and
    raises [KeyError] on 'Dernière Note' when one has. *)
Theorem missing_note deployments_df phases_checked :
  "Date d'affectation" ∈ columns deployments_df →
  "Nom" ∈ columns deployments_df →
  "Phase du projet" ∈ columns deployments_df →
  "Dernière Note" ∉ columns deployments_df →
  ∃ f, effective_dates deployments_df phases_checked = Ok f
    ∧ (frows (parse_dates to_datetime f) = [] →
       create_projects_by_month_summary to_datetime dt_year deployments_df
    phases_checked
       = Ok empty_summary)
    ∧ (frows (parse_dates to_datetime f) ≠ [] →
       create_projects_by_month_summary to_datetime dt_year deployments_df
    phases_checked
       = Raise (KeyError "Dernière Note")).
Proof.
  intros HD HN HP HDN.
  destruct (effective_dates_columns deployments_df phases_checked HN HD HP)
    as (f & Hf & Hcols).
  exists f. split; [done|].
  destruct (effective_dates_empty _ _ _ Hf) as (He1 & He2 & Hnil).
  unfold create_projects_by_month_summary.
  rewrite (proj2 (has_column_true _ _) HD), Hf. simpl. rewrite He1, He2.
  split.
  - intros Hrows. rewrite (bool_decide_eq_true_2 _ Hrows).
    by destruct (bool_decide (frows f = [])).
  - intros Hrows. rewrite (bool_decide_eq_false_2 _ Hrows).
    rewrite bool_decide_eq_false_2 by (intros H; by apply Hrows, Hnil).
    assert (Hnote := effective_dates_no_note _ _ _ HDN Hf).
    unfold year_sorted.
    assert (Hsel : select_columns
              (assign "Année" (λ row, VInt (dt_year (cell row "Date effective")))
                 (parse_dates to_datetime f))
              (["Année"; "Nom"] ++ "Dernière Note" :: [])
            = Raise (KeyError "Dernière Note")).
    { apply select_columns_missing.
      - repeat constructor; simpl.
        + apply elem_of_add_column_new.
        + apply elem_of_add_column, elem_of_add_column, Hcols, list_elem_of_here.
      - simpl. by repeat apply not_elem_of_add_column. }
    simpl in Hsel. by rewrite Hsel.
Qed.






(** X13: the years shown in a summary increase from top to bottom: of two
    rows that show a year, the lower one shows the later year. *)
Theorem years_ascending deployments_df phases_checked out j k oj ok yj yk :
  create_projects_by_month_summary to_datetime dt_year deployments_df
    phases_checked = Ok out →
  (j < k)%nat →
  frows out !! j = Some oj → frows out !! k = Some ok →
  cell oj.2 "Année" = VInt yj → cell ok.2 "Année" = VInt yk →
  (yj < yk)%Z.
Proof.
  intros Hout Hjk Hj Hk Hyj Hyk.
  destruct (summary_row_at _ _ _ _ _ _ _ Hout Hj)
    as (result_df & rj & Hrows & Hrj & Hhj & Hfj & Hnj).
  destruct (summary_row_at _ _ _ _ _ _ _ Hout Hk)
    as (result_df' & rk & Hrows' & Hrk & Hhk & Hfk & Hnk).
  rewrite Hrows in Hrows'. injection Hrows' as <-.
  destruct (year_rows_facts _ _ _ _ _ Hrows) as (_ & _ & Hyears & Hsorted).
  set (rs := frows result_df) in *.
  (* a row that shows a year is the first of its year *)
  assert (Hshown : ∀ i o r y, (first_of_year rs i r → o = counted rs r) →
            (¬ first_of_year rs i r → o = blank_year (counted rs r)) →
            has_year r → cell o.2 "Année" = VInt y →
            first_of_year rs i r ∧ year_of r = y).
  { intros i o r y Hf Hn Hh Hy.
    destruct (decide (first_of_year rs i r)) as [Hfirst|Hfirst].
    - split; [done|]. rewrite (Hf Hfirst) in Hy.
      change (year_cell (counted rs r) = VInt y) in Hy.
      rewrite counted_year in Hy. unfold year_cell in Hy.
      rewrite Hh in Hy. by injection Hy.
    - rewrite (Hn Hfirst) in Hy.
      destruct (blank_year_cells (counted rs r)) as [Hb _]. congruence. }
  destruct (Hshown _ _ _ _ Hfj Hnj Hhj Hyj) as [_ <-].
  destruct (Hshown _ _ _ _ Hfk Hnk Hhk Hyk) as [Hfirst <-].
  destruct Hfirst as [->|(p & Hp & Hne)]; [lia|].
  assert (Hhp : has_year p).
  { rewrite Forall_forall in Hyears. apply Hyears.
    by eapply list_elem_of_lookup_2. }
  assert (Hle : ∀ a b x y, (a ≤ b)%nat → rs !! a = Some x → rs !! b = Some y →
            (year_of x ≤ year_of y)%Z).
  { intros a b x y Hab Ha Hb.
    destruct (decide (a = b)) as [->|Hneq];
      [rewrite Ha in Hb; injection Hb as <-; lia|].
    apply (StronglySorted_lookup_lt Z.le (year_of <$> rs) a b); [done|lia|..];
      rewrite list_lookup_fmap; [by rewrite Ha|by rewrite Hb]. }
  assert (H1 : (year_of rj ≤ year_of p)%Z) by (eapply (Hle j (k - 1)); [lia|done..]).
  assert (H2 : (year_of p ≤ year_of rk)%Z) by (eapply (Hle (k - 1) k); [lia|done..]).
  assert (H3 : year_of p ≠ year_of rk).
  { intros Heq. apply Hne. unfold year_cell. rewrite Hhp, Hhk. by rewrite Heq. }
  lia.
Qed.



End YearSummaryRows.

(** The summary of the sample table is returned. *)
Lemma sample_summary_returned :
  create_projects_by_month_summary sample_to_datetime sample_dt_year
    sample_deployments None = Ok sample_summary.
Proof. by vm_compute. Qed.

Lemma summary_schema_witness : fcolumns sample_summary = summary_columns.
Proof.
  assert (Hout := sample_summary_returned).
  exact (summary_schema _ _ _ _ _ Hout).
Defined.

Lemma missing_note_witness :
  ∃ f, effective_dates sample_without_notes None = Ok f
    ∧ (frows (parse_dates sample_to_datetime f) = [] →
       create_projects_by_month_summary sample_to_datetime sample_dt_year
         sample_without_notes None = Ok empty_summary)
    ∧ (frows (parse_dates sample_to_datetime f) ≠ [] →
       create_projects_by_month_summary sample_to_datetime sample_dt_year
         sample_without_notes None = Raise (KeyError "Dernière Note")).
Proof.
  apply (missing_note sample_to_datetime sample_dt_year sample_without_notes
           None);
    unfold sample_without_notes; simpl; first [not_in_list | in_list].
Defined.

Example sample_without_notes_raises :
  create_projects_by_month_summary sample_to_datetime sample_dt_year
    sample_without_notes None = Raise (KeyError "Dernière Note").
Proof. by vm_compute. Qed.


Lemma years_ascending_witness :
  cell (sample_row 0).2 "Année" = VInt 2022
  ∧ cell (sample_row 1).2 "Année" = VInt 2023
  ∧ (2022 < 2023)%Z.
Proof.
  assert (Hout := sample_summary_returned).
  assert (H0 : frows sample_summary !! 0 = Some (sample_row 0))
    by (vm_compute; reflexivity).
  assert (H1 : frows sample_summary !! 1 = Some (sample_row 1))
    by (vm_compute; reflexivity).
  assert (Hy0 : cell (sample_row 0).2 "Année" = VInt 2022)
    by (vm_compute; reflexivity).
  assert (Hy1 : cell (sample_row 1).2 "Année" = VInt 2023)
    by (vm_compute; reflexivity).
  split; [exact Hy0|]. split; [exact Hy1|].
  exact (years_ascending _ _ _ _ _ 0 1 _ _ _ _ Hout (le_n 1) H0 H1 Hy0 Hy1).
Defined.


(** *** Tables with an index of their own *)

(** On the default index the two definitions are one. *)
Lemma default_index to_datetime dt_year (df : DataFrame) phases :
  create_projects_by_month_summary to_datetime dt_year df phases
  = create_projects_by_month_summary_indexed to_datetime dt_year
      (with_index df) phases.
Proof. reflexivity. Qed.

Lemma creation_column_indexed (f : Frame) :
  has_column (add_column (columns_needed_indexed f) "Date effective")
    "Date de création"
  = has_column (fcolumns f) "Date de création".
Proof.
  destruct (has_column (fcolumns f) "Date de création") eqn:Hc.
  - apply has_column_true, elem_of_add_column. unfold columns_needed_indexed.
    rewrite Hc. in_list.
  - apply has_column_false. unfold add_column, columns_needed_indexed.
    rewrite Hc.
    destruct (has_column (fcolumns f) "Dernière Note");
      destruct (has_column _ "Date effective"); simpl; not_in_list.
Qed.

Lemma list_filter_fmap_eq {A B : Type} (f : A → B) (P : B → Prop)
    `{∀ y, Decision (P y)} (Q : A → Prop) `{∀ x, Decision (Q x)} (l : list A) :
  (∀ x, P (f x) ↔ Q x) → filter P (f <$> l) = f <$> filter Q l.
Proof.
  intros HPQ. induction l as [|x l IH]; [done|]. csimpl.
  rewrite !filter_cons, IH.
  destruct (decide (P (f x))) as [HP|HP], (decide (Q x)) as [HQ|HQ];
    try done; by apply HPQ in HP || apply HPQ in HQ.
Qed.

(** The working copy: the rows of an allowed phase that have an effective
    date, each under its label, with that date as 'Date effective'. *)
Lemma effective_dates_indexed_rows deployments_df phases f :
  effective_dates_indexed deployments_df phases = Ok f →
  frows f
  = (λ r, (r.1, <["Date effective" := effective_date deployments_df r.2]> r.2))
      <$> kept_rows deployments_df phases.
Proof.
  unfold effective_dates_indexed.
  destruct (select_columns _ _) as [f0|] eqn:Hsel; [|done]. simpl.
  apply select_columns_rows in Hsel as [Hcols Hrows]. intros [= <-].
  rewrite Hcols, creation_column_indexed.
  set (g := λ r : nat * Series,
         (r.1, <["Date effective" := effective_date deployments_df r.2]> r.2)).
  assert (Hg : frows
      (if has_column (fcolumns deployments_df) "Date de création" then
         loc_mask
           (λ row, isna (cell row "Date d'affectation")
                   && negb (isna (cell row "Date de création")))
           "Date effective" (λ row, cell row "Date de création")
           (assign "Date effective" (λ row, cell row "Date d'affectation")
              (filter_rows
                 (λ row, bool_decide
                    (cell row "Phase du projet" ∈ allowed_phases_of phases)) f0))
       else
         assign "Date effective" (λ row, cell row "Date d'affectation")
           (filter_rows
              (λ row, bool_decide
                 (cell row "Phase du projet" ∈ allowed_phases_of phases)) f0))
    = g <$> filter (λ r : nat * Series,
              bool_decide (cell r.2 "Phase du projet" ∈ allowed_phases_of phases)
              = true) (frows deployments_df)).
  { unfold g, effective_date. rewrite <- Hrows.
    destruct (has_column (fcolumns deployments_df) "Date de création"); simpl.
    - rewrite <- list_fmap_compose. apply list_fmap_ext. intros _ r _. simpl.
      rewrite !cell_insert_ne by done.
      destruct (isna (cell r.2 "Date d'affectation")
                && negb (isna (cell r.2 "Date de création"))); [|done].
      by rewrite insert_insert_eq.
    - done. }
  unfold dropna. unfold filter_rows at 1. cbn [frows]. rewrite Hg.
  rewrite (list_filter_fmap_eq g _
    (λ r : nat * Series, isna (effective_date deployments_df r.2) = false)).
  - rewrite list_filter_filter. unfold kept_rows. f_equal.
    apply list_filter_iff. intros r. rewrite bool_decide_eq_true. tauto.
  - intros r. unfold g. simpl. by rewrite cell_insert, negb_true_iff.
Qed.

Lemma effective_dates_indexed_labels deployments_df phases f :
  NoDup (frows deployments_df).*1 →
  effective_dates_indexed deployments_df phases = Ok f →
  NoDup (frows f).*1.
Proof.
  intros Hnd Hf. rewrite (effective_dates_indexed_rows _ _ _ Hf).
  rewrite labels_fmap by done. by apply NoDup_labels_filter.
Qed.

Section YearSummaryIndexedFacts.

Variable to_datetime : list value → list value.
Variable dt_year : value → Z.

(** The dated rows: each with its parsed date as 'Date effective'. *)
Lemma parse_dates_indexed_rows deployments_df phases f :
  effective_dates_indexed deployments_df phases = Ok f →
  frows (parse_dates to_datetime f)
  = (λ p : nat * Series * value,
       (p.1.1, <["Date effective" := p.2]>
                 (<["Date effective" := effective_date deployments_df p.1.2]>
                    p.1.2)))
      <$> dated_rows to_datetime deployments_df phases.
Proof.
  intros Hf. unfold parse_dates, dropna, filter_rows, assign_values. cbn [frows].
  rewrite (effective_dates_indexed_rows _ _ _ Hf).
  rewrite <- list_fmap_compose. unfold dated_rows.
  set (kept := kept_rows deployments_df phases).
  assert (Hcol : (λ r : nat * Series, cell r.2 "Date effective")
                 ∘ (λ r : nat * Series,
                      (r.1, <["Date effective" :=
                                effective_date deployments_df r.2]> r.2))
                 <$> kept
               = effective_date deployments_df <$> kept.*2).
  { rewrite <- list_fmap_compose. apply list_fmap_ext. intros _ r _. simpl.
    apply cell_insert. }
  rewrite Hcol. set (vals := to_datetime _).
  rewrite zip_with_fmap_l, zip_with_zip.
  erewrite (list_fmap_ext _
    (λ p : nat * Series * value,
       (p.1.1, <["Date effective" := p.2]>
                 (<["Date effective" := effective_date deployments_df p.1.2]>
                    p.1.2)))); [|by intros _ [[??]?] _].
  apply list_filter_fmap_eq. intros p. simpl.
  by rewrite cell_insert, negb_true_iff.
Qed.

(** The sorted table shows, under the label of each dated row, the year of
    its date. *)
Lemma year_rows_indexed_years deployments_df phases result_df :
  year_rows_indexed to_datetime dt_year deployments_df phases = Ok result_df →
  (λ r, (r.1, year_cell r)) <$> frows result_df
  ≡ₚ (λ p : nat * Series * value, (p.1.1, VInt (dt_year p.2)))
       <$> dated_rows to_datetime deployments_df phases.
Proof.
  unfold year_rows_indexed.
  destruct (effective_dates_indexed _ _) as [f|] eqn:Hf; [|done]. simpl.
  unfold year_sorted.
  destruct (select_columns _ _) as [f0|] eqn:Hsel; [|done]. simpl.
  apply select_columns_rows in Hsel as [Hcols Hrows]. intros [= <-].
  cbn [frows sort_year_name]. rewrite (sort_by_perm year_name_leb).
  unfold rename_columns. cbn [frows]. rewrite Hcols, Hrows.
  unfold assign. cbn [frows].
  rewrite (parse_dates_indexed_rows _ _ _ Hf).
  rewrite <- !list_fmap_compose.
  apply reflexive_eq, list_fmap_ext. intros _ p _. simpl. f_equal.
  unfold year_cell. simpl. by rewrite !cell_insert.
Qed.

End YearSummaryIndexedFacts.

(** Equal cells are counted alike in two lists with the same cells. *)
Lemma count_Permutation {A : Type} `{EqDecision A} (x : A) (l1 l2 : list A) :
  l1 ≡ₚ l2 → length (filter (λ y, y = x) l1) = length (filter (λ y, y = x) l2).
Proof. intros Hp. by rewrite Hp. Qed.

Section YearSummaryIndexedRows.

Variable to_datetime : list value → list value.
Variable dt_year : value → Z.

Lemma create_stages_indexed deployments_df phases_checked out :
  create_projects_by_month_summary_indexed to_datetime dt_year deployments_df
    phases_checked = Ok out →
  frows out = []
  ∨ ∃ result_df,
      year_rows_indexed to_datetime dt_year deployments_df phases_checked
      = Ok result_df
      ∧ clear_repeated_years (count_and_blank result_df) = Ok out.
Proof.
  unfold create_projects_by_month_summary_indexed, year_rows_indexed.
  destruct (negb _); [intros [= <-]; by left|].
  destruct (effective_dates_indexed _ _) as [f|]; [|done]. simpl.
  destruct (frame_empty f); [intros [= <-]; by left|].
  destruct (frame_empty _); [intros [= <-]; by left|].
  destruct (year_sorted _ _) as [result_df|]; [|done]. simpl.
  intros Hout. right. by exists result_df.
Qed.

Lemma year_rows_indexed_facts deployments_df phases_checked result_df :
  NoDup (frows deployments_df).*1 →
  year_rows_indexed to_datetime dt_year deployments_df phases_checked
  = Ok result_df →
  fcolumns result_df = ["Année"; "Nom du projet"; "Dernière Note"]
  ∧ NoDup (frows result_df).*1
  ∧ Forall has_year (frows result_df)
  ∧ StronglySorted Z.le (year_of <$> frows result_df).
Proof.
  intros Hnd. unfold year_rows_indexed.
  destruct (effective_dates_indexed _ _) as [f|] eqn:Hf; [|done]. simpl.
  intros Hsorted. apply (year_sorted_rows _ _ _ Hsorted).
  by apply parse_dates_labels, (effective_dates_indexed_labels _ _ _ Hnd Hf).
Qed.

(** The rows of a year in the sorted table are as many as the dated rows
    of that year in the input. *)
Lemma year_rows_indexed_count deployments_df phases_checked result_df y :
  year_rows_indexed to_datetime dt_year deployments_df phases_checked
  = Ok result_df →
  length (filter (λ r, year_cell r = VInt y) (frows result_df))
  = rows_of_year to_datetime dt_year deployments_df phases_checked y.
Proof.
  intros Hrows%year_rows_indexed_years.
  apply (fmap_Permutation snd) in Hrows.
  rewrite <- !list_fmap_compose in Hrows.
  apply (count_Permutation (VInt y)) in Hrows.
  rewrite (list_filter_fmap_eq _ _ (λ r, year_cell r = VInt y)) in Hrows by done.
  rewrite (list_filter_fmap_eq _ _
             (λ p : nat * Series * value, dt_year p.2 = y)) in Hrows.
  - by rewrite !length_fmap in Hrows.
  - intros p. simpl. split; [by intros [= ->]|by intros ->].
Qed.

(** X20: on a table with distinct index labels, every row of the summary
    stands for the dated row of the input under its label; the first row
    of each run of rows of one year carries that year and the number of
    dated rows of the input of that year, the rows of a phase that is not
    allowed or without a date that parses not being counted; every later
    row of the run has both cells blank. *)
Theorem year_and_count_on_first_row deployments_df phases_checked out k o :
  NoDup (frows deployments_df).*1 →
  create_projects_by_month_summary_indexed to_datetime dt_year deployments_df
    phases_checked = Ok out →
  frows out !! k = Some o →
  ∃ result_df r p,
    year_rows_indexed to_datetime dt_year deployments_df phases_checked
    = Ok result_df
    ∧ frows result_df !! k = Some r
    ∧ p ∈ dated_rows to_datetime deployments_df phases_checked
    ∧ p.1.1 = o.1
    ∧ year_cell r = VInt (dt_year p.2)
    ∧ (first_of_year (frows result_df) k r →
       cell o.2 "Année" = VInt (dt_year p.2)
       ∧ cell o.2 "Nombre de projets"
         = VInt (Z.of_nat (rows_of_year to_datetime dt_year deployments_df
                             phases_checked (dt_year p.2))))
    ∧ (¬ first_of_year (frows result_df) k r →
       cell o.2 "Année" = VStr "" ∧ cell o.2 "Nombre de projets" = VStr "").
Proof.
  intros Hnd Hout Hk.
  apply create_stages_indexed in Hout as [Hnil|(result_df & Hrows & Hout)];
    [by rewrite Hnil in Hk|].
  destruct (year_rows_indexed_facts _ _ _ Hnd Hrows)
    as (Hcols & Hnd' & Hyears & Hsorted).
  destruct (cleared_row_at _ _ _ _ Hcols Hnd' Hyears Hsorted Hout Hk)
    as (r & Hr & Hy & Hfirst & Hrest).
  assert (Hin : (r.1, year_cell r)
                ∈ (λ r, (r.1, year_cell r)) <$> frows result_df).
  { apply list_elem_of_fmap. exists r. split; [done|].
    by eapply list_elem_of_lookup_2. }
  rewrite (year_rows_indexed_years _ _ _ _ _ Hrows) in Hin.
  apply list_elem_of_fmap in Hin as (p & [= Hlab Hyear] & Hp).
  assert (Ho : o.1 = r.1).
  { destruct (decide (first_of_year (frows result_df) k r)) as [Hf|Hf].
    - by rewrite (Hfirst Hf).
    - by rewrite (Hrest Hf). }
  exists result_df, r, p. repeat (split; [done || congruence|]). split.
  - intros Hf. rewrite (Hfirst Hf). split.
    + change (year_cell (counted (frows result_df) r) = VInt (dt_year p.2)).
      by rewrite counted_year.
    + rewrite counted_count. unfold year_count. do 2 f_equal.
      fold (year_cell r). rewrite Hyear.
      apply year_rows_indexed_count, Hrows.
  - intros Hf. rewrite (Hrest Hf). apply blank_year_cells.
Qed.

End YearSummaryIndexedRows.

Example relabelled_summary_cells :
  (λ r, (r.1, cell r.2 <$> fcolumns relabelled_summary))
    <$> frows relabelled_summary
  = [ (40, [VInt 2022; VInt 1; VStr "D"; VStr "n4"]);
      (60, [VInt 2023; VInt 3; VStr "A"; VStr "n2"]);
      (50, [VStr ""; VStr ""; VStr "B"; VStr "n3"]);
      (70, [VStr ""; VStr ""; VStr "C"; VStr "n1"]);
      (10, [VInt 2024; VInt 1; VStr ""; VStr ""]) ].
Proof. by vm_compute. Qed.

Lemma year_and_count_on_first_row_witness :
  ∃ result_df r p,
    year_rows_indexed sample_to_datetime sample_dt_year relabelled_deployments
      None = Ok result_df
    ∧ frows result_df !! 1 = Some r
    ∧ p ∈ dated_rows sample_to_datetime relabelled_deployments None
    ∧ p.1.1 = (relabelled_row 1).1
    ∧ year_cell r = VInt (sample_dt_year p.2)
    ∧ (first_of_year (frows result_df) 1 r →
       cell (relabelled_row 1).2 "Année" = VInt (sample_dt_year p.2)
       ∧ cell (relabelled_row 1).2 "Nombre de projets"
         = VInt (Z.of_nat (rows_of_year sample_to_datetime sample_dt_year
                             relabelled_deployments None (sample_dt_year p.2))))
    ∧ (¬ first_of_year (frows result_df) 1 r →
       cell (relabelled_row 1).2 "Année" = VStr ""
       ∧ cell (relabelled_row 1).2 "Nombre de projets" = VStr "").
Proof.
  assert (Hnd : NoDup (frows relabelled_deployments).*1) by compute_done.
  assert (Hout : create_projects_by_month_summary_indexed sample_to_datetime
                   sample_dt_year relabelled_deployments None
                 = Ok relabelled_summary)
    by (vm_compute; reflexivity).
  assert (Hrow : frows relabelled_summary !! 1 = Some (relabelled_row 1))
    by (vm_compute; reflexivity).
  exact (year_and_count_on_first_row _ _ _ _ _ _ _ Hnd Hout Hrow).
Defined.

(** C6, failing input: on [repeated_labels] the sorted table starts with
    the row of 2022, the only row of its year, and the summary shows it
    with year and count blank: the loop clears the later rows of 2023 by
    label, and the row of 2022 has the label of one of them. *)
Lemma repeated_labels_first_row_cleared :
  ∃ result_df out,
    year_rows_indexed sample_to_datetime sample_dt_year repeated_labels None
    = Ok result_df
    ∧ (λ r, (r.1, year_cell r)) <$> frows result_df
      = [(1, VInt 2022); (0, VInt 2023); (1, VInt 2023); (2, VInt 2023)]
    ∧ create_projects_by_month_summary_indexed sample_to_datetime
        sample_dt_year repeated_labels None = Ok out
    ∧ (λ r, (r.1, cell r.2 <$> fcolumns out)) <$> frows out
      = [ (1, [VStr ""; VStr ""; VStr "D"; VStr "n4"]);
          (0, [VInt 2023; VInt 3; VStr "A"; VStr "n1"]);
          (1, [VStr ""; VStr ""; VStr "B"; VStr "n2"]);
          (2, [VStr ""; VStr ""; VStr "C"; VStr "n3"]) ].
Proof.
  exists repeated_labels_sorted, repeated_labels_summary.
  repeat split; vm_compute; reflexivity.
Qed.

(** ** Tables as objects *)

Section Local.

Variable h0 : heap.

Lemma local_ret {A} (a : A) (Q : A → Prop) : Q a → local h0 (mret a) Q.
Proof. intros HQ h Hh. split; [done|]. by intros a' [= <-]. Qed.

Lemma local_lift {A} (x : result A) : local h0 (lift x) (λ _, True).
Proof. by intros h Hh. Qed.

Lemma local_bind {A B} (m : M A) (k : A → M B) (Q : A → Prop) (Q' : B → Prop) :
  local h0 m Q → (∀ a, Q a → local h0 (k a) Q') → local h0 (m ≫= k) Q'.
Proof.
  intros Hm Hk h Hh. unfold mbind, M_bind.
  destruct (Hm h Hh) as [Hh' HQ].
  destruct (m h) as [[a|e] h']; simpl in *; [|done].
  by apply (Hk a (HQ a eq_refl)).
Qed.

Lemma local_weaken {A} (m : M A) (Q Q' : A → Prop) :
  local h0 m Q → (∀ a, Q a → Q' a) → local h0 m Q'.
Proof.
  intros Hm HQ h Hh. destruct (Hm h Hh) as [Hh' Ha]. split; [done|].
  intros a Hma. by apply HQ, Ha.
Qed.

(** A new object lies outside [h0]. *)
Lemma local_new (t : table) : local h0 (new t) (outside h0).
Proof.
  intros h Hh. unfold new. simpl.
  assert (Hfresh : h !! fresh (dom h) = None).
  { apply not_elem_of_dom, is_fresh. }
  assert (Hout : h0 !! fresh (dom h) = None).
  { destruct (h0 !! fresh (dom h)) as [t'|] eqn:Ht; [|done].
    apply (lookup_weaken _ _ _ _ Ht) in Hh. congruence. }
  split; [by apply insert_subseteq_r|]. by intros r [= <-].
Qed.

Lemma local_read (r : ref) : local h0 (read r) (λ _, True).
Proof. intros h Hh. unfold read. by destruct (h !! r). Qed.

(** A write is local when it goes to an object outside [h0]. *)
Lemma local_write (r : ref) (t : table) :
  outside h0 r → local h0 (write r t) (λ _, True).
Proof. intros Hr h Hh. unfold write. simpl. split; [|done]. by apply insert_subseteq_r. Qed.

Lemma local_read_dataframe r : local h0 (read_dataframe r) (λ _, True).
Proof.
  eapply local_bind; [apply local_read|]. intros [] _;
    first [by apply local_ret | apply local_lift].
Qed.

Lemma local_read_frame r : local h0 (read_frame r) (λ _, True).
Proof.
  eapply local_bind; [apply local_read|]. intros [] _;
    first [by apply local_ret | apply local_lift].
Qed.

Lemma local_read_pivot r : local h0 (read_pivot r) (λ _, True).
Proof.
  eapply local_bind; [apply local_read|]. intros [] _;
    first [by apply local_ret | apply local_lift].
Qed.

Lemma local_read_summary r : local h0 (read_summary r) (λ _, True).
Proof.
  eapply local_bind; [apply local_read|]. intros [] _;
    first [by apply local_ret | apply local_lift].
Qed.

Lemma local_update_frame r change :
  outside h0 r → local h0 (update_frame r change) (λ _, True).
Proof.
  intros Hr. eapply local_bind; [apply local_read_frame|].
  intros f _. by apply local_write.
Qed.

Lemma local_derive_frame r op : local h0 (derive_frame r op) (outside h0).
Proof.
  eapply local_bind; [apply local_read_frame|]. intros f _.
  eapply local_bind; [apply local_lift|]. intros f' _. apply local_new.
Qed.

Lemma local_append_row r row :
  outside h0 r → local h0 (append_row r row) (λ _, True).
Proof.
  intros Hr. eapply local_bind; [apply local_read_summary|].
  intros s _. by apply local_write.
Qed.

Lemma local_for_m {A S} (body : S → A → M S) (l : list A) (s : S) :
  (∀ s x, local h0 (body s x) (λ _, True)) →
  local h0 (for_m body l s) (λ _, True).
Proof.
  intros Hbody. revert s. induction l as [|x l IH]; intros s; simpl.
  - by apply local_ret.
  - eapply local_bind; [apply Hbody|]. intros s' _. apply IH.
Qed.

(** Steps through a computation: a [new] or [derive_frame] brings a
    reference outside [h0], on which the later writes are local. *)
Ltac local_step :=
  first
    [ apply local_new
    | apply local_derive_frame
    | apply local_read_dataframe
    | apply local_read_frame
    | apply local_read_pivot
    | apply local_read_summary
    | apply local_lift
    | by apply local_update_frame
    | by apply local_append_row
    | by apply local_write
    | by apply local_ret ].

Ltac local_solve :=
  lazymatch goal with
  | |- local _ (_ ≫= _) _ =>
      eapply local_bind; [local_solve | intros ? ?; local_solve]
  | |- local _ (if ?b then _ else _) _ => destruct b; local_solve
  | |- local _ (for_m _ _ _) _ => apply local_for_m; intros ? ?; local_solve
  | |- local _ (let _ := _ in _) _ => cbv zeta; local_solve
  | |- _ => local_step
  end.

Lemma local_calculate_charge_jh df :
  local h0 (calculate_charge_jh_m df) (outside h0).
Proof. unfold calculate_charge_jh_m. local_solve. Qed.

Lemma local_create_projects_by_month_summary to_datetime dt_year df phases :
  local h0 (create_projects_by_month_summary_m to_datetime dt_year df phases)
    (outside h0).
Proof. unfold create_projects_by_month_summary_m. local_solve. Qed.

Lemma local_format_resource_summary gtc cd pd pivot_df montant_dict :
  local h0 (format_resource_summary_m gtc cd pd pivot_df montant_dict)
    (outside h0).
Proof. unfold format_resource_summary_m, second_pass_m. local_solve. Qed.

End Local.

(** *** The store computations compute the functions *)

Lemma bind_ok {A B} (m : M A) (k : A → M B) h a h' :
  m h = (Ok a, h') → (m ≫= k) h = k a h'.
Proof. unfold mbind, M_bind. by intros ->. Qed.

Lemma bind_raise {A B} (m : M A) (k : A → M B) h e h' :
  m h = (Raise e, h') → (m ≫= k) h = (Raise e, h').
Proof. unfold mbind, M_bind. by intros ->. Qed.

Lemma read_dataframe_at h r d :
  h !! r = Some (TDataFrame d) → read_dataframe r h = (Ok d, h).
Proof. intros Hr. unfold read_dataframe, mbind, M_bind, read. by rewrite Hr. Qed.

Lemma read_frame_at h r f :
  h !! r = Some (TFrame f) → read_frame r h = (Ok f, h).
Proof. intros Hr. unfold read_frame, mbind, M_bind, read. by rewrite Hr. Qed.

Lemma read_pivot_at h r p :
  h !! r = Some (TPivot p) → read_pivot r h = (Ok p, h).
Proof. intros Hr. unfold read_pivot, mbind, M_bind, read. by rewrite Hr. Qed.

Lemma read_summary_at h r s :
  h !! r = Some (TSummary s) → read_summary r h = (Ok s, h).
Proof. intros Hr. unfold read_summary, mbind, M_bind, read. by rewrite Hr. Qed.

Lemma update_frame_at h r f change :
  h !! r = Some (TFrame f) →
  update_frame r change h = (Ok (), <[r := TFrame (change f)]> h).
Proof. intros Hr. unfold update_frame. by erewrite bind_ok by by apply read_frame_at. Qed.

Lemma derive_frame_at h r f op :
  h !! r = Some (TFrame f) →
  derive_frame r op h
  = match op f with
    | Ok f' => (Ok (fresh (dom h)), <[fresh (dom h) := TFrame f']> h)
    | Raise e => (Raise e, h)
    end.
Proof.
  intros Hr. unfold derive_frame. erewrite bind_ok by by apply read_frame_at.
  unfold mbind, M_bind, lift. by destruct (op f).
Qed.

Lemma append_row_at h r s row :
  h !! r = Some (TSummary s) →
  append_row r row h = (Ok (), <[r := TSummary (s ++ [row])]> h).
Proof. intros Hr. unfold append_row. by erewrite bind_ok by by apply read_summary_at. Qed.

(** [calculate_charge_jh_m] leaves in a new object the table that
    [calculate_charge_jh] returns, and raises when it raises. *)
Lemma calculate_charge_jh_m_computes h df d :
  h !! df = Some (TDataFrame d) →
  calculate_charge_jh_m df h
  = match calculate_charge_jh d with
    | Ok d' => (Ok (fresh (dom h)), <[fresh (dom h) := TDataFrame d']> h)
    | Raise e => (Raise e, <[fresh (dom h) := TDataFrame d]> h)
    end.
Proof.
  intros Hdf. unfold calculate_charge_jh_m, calculate_charge_jh.
  erewrite bind_ok by by apply read_dataframe_at.
  erewrite bind_ok by done. simpl.
  erewrite bind_ok by apply read_dataframe_at, lookup_insert_eq.
  destruct (getcol d _) as [soumise|e]; simpl;
    [|by erewrite bind_raise by done].
  erewrite bind_ok by done.
  destruct (mapM div8 soumise) as [charge|e]; simpl;
    [|by erewrite bind_raise by done].
  erewrite bind_ok by done.
  erewrite bind_ok by apply read_dataframe_at, lookup_insert_eq.
  erewrite bind_ok by done. by rewrite insert_insert_eq.
Qed.

Lemma second_pass_m_at gtc cd pd (r_pivot r_out : ref) sp row cur acc (h : heap) :
  r_pivot ≠ r_out →
  h !! r_pivot = Some (TPivot sp) → h !! r_out = Some (TSummary acc) →
  second_pass_m gtc cd pd r_pivot r_out cur row h
  = (Ok (second_pass_step gtc cd pd sp (cur, acc) row).1,
     <[r_out := TSummary (second_pass_step gtc cd pd sp (cur, acc) row).2]> h).
Proof.
  intros Hne Hp Hs. unfold second_pass_m, second_pass_step.
  destruct (bool_decide (Some (Ressource row) ≠ cur)); simpl.
  - assert (Hfirst :
      (read_pivot r_pivot ≫= λ p,
         append_row r_out
           (resource_row (Ressource row)
              (sum_skipna (Charge_JH <$>
                 filter (λ r, Ressource r = Ressource row) p)))
         ≫= λ _, mret (Some (Ressource row))) h
      = (Ok (Some (Ressource row)),
         <[r_out := TSummary (acc ++
             [resource_row (Ressource row)
                (sum_skipna (Charge_JH <$>
                   filter (λ r, Ressource r = Ressource row) sp))])]> h)).
    { erewrite bind_ok by by apply read_pivot_at.
      by erewrite bind_ok by by apply append_row_at. }
    erewrite bind_ok by exact Hfirst.
    erewrite bind_ok by apply append_row_at, lookup_insert_eq.
    by rewrite insert_insert_eq.
  - erewrite bind_ok by done.
    by erewrite bind_ok by by apply append_row_at.
Qed.

Lemma second_pass_m_loop gtc cd pd (r_pivot r_out : ref) sp l cur acc (h : heap) :
  r_pivot ≠ r_out →
  h !! r_pivot = Some (TPivot sp) → h !! r_out = Some (TSummary acc) →
  ∃ h', for_m (second_pass_m gtc cd pd r_pivot r_out) l cur h
        = (Ok (foldl (second_pass_step gtc cd pd sp) (cur, acc) l).1, h')
    ∧ h' !! r_out
      = Some (TSummary (foldl (second_pass_step gtc cd pd sp) (cur, acc) l).2).
Proof.
  intros Hne. revert cur acc h.
  induction l as [|row l IH]; intros cur acc h Hp Hs.
  - by exists h.
  - cbn [for_m foldl].
    erewrite bind_ok by by apply (second_pass_m_at _ _ _ _ _ sp _ _ acc).
    destruct (second_pass_step gtc cd pd sp (cur, acc) row) as [cur' acc'].
    apply IH; [by rewrite lookup_insert_ne | apply lookup_insert_eq].
Qed.

(** [format_resource_summary_m] leaves in a new object the summary that
    [format_resource_summary] returns. *)
Lemma format_resource_summary_m_computes gtc cd pd h pivot_df p montant_dict :
  h !! pivot_df = Some (TPivot p) →
  ∃ h', format_resource_summary_m gtc cd pd pivot_df montant_dict h
        = (Ok (fresh (dom h)), h')
    ∧ h' !! fresh (dom h)
      = Some (TSummary (format_resource_summary gtc cd pd p montant_dict)).
Proof.
  intros Hp. unfold format_resource_summary_m, format_resource_summary.
  set (r1 := fresh (dom h)).
  assert (Hr1 : h !! r1 = None) by apply not_elem_of_dom, is_fresh.
  erewrite bind_ok by done. simpl. fold r1.
  set (h1 := <[r1 := TSummary []]> h).
  assert (Hp1 : h1 !! pivot_df = Some (TPivot p)).
  { unfold h1. rewrite lookup_insert_ne; [done|]. congruence. }
  erewrite bind_ok by by apply read_pivot_at.
  erewrite bind_ok by done. simpl.
  set (r2 := fresh (dom h1)).
  assert (Hr2 : r2 ≠ r1).
  { intros Heq. apply (is_fresh (dom h1)). fold r2. rewrite Heq.
    apply elem_of_dom. unfold h1. by rewrite lookup_insert_eq. }
  erewrite bind_ok by apply read_pivot_at, lookup_insert_eq.
  destruct (second_pass_m_loop gtc cd pd r2 r1 (sort_pivot p) (sort_pivot p)
              None [] (<[r2 := TPivot (sort_pivot p)]> h1) Hr2)
    as (h' & Hrun & Hout).
  { apply lookup_insert_eq. }
  { rewrite lookup_insert_ne by done. apply lookup_insert_eq. }
  erewrite bind_ok by exact Hrun. by exists h'.
Qed.

Lemma clear_years_loop (r : ref) ys f (h : heap) :
  h !! r = Some (TFrame f) →
  for_m (λ _ year, update_frame r (λ f, clear_year f year)) ys () h
  = (Ok (), <[r := TFrame (foldl clear_year f ys)]> h).
Proof.
  revert f h. induction ys as [|y ys IH]; intros f h Hr; simpl.
  - by rewrite insert_id.
  - erewrite bind_ok by by apply update_frame_at.
    rewrite (IH (clear_year f y)) by apply lookup_insert_eq.
    by rewrite insert_insert_eq.
Qed.

Lemma yields_bind {A} (m : M A) (k : A → M ref) h a h' x :
  m h = (Ok a, h') → yields (k a) h' x → yields (m ≫= k) h x.
Proof. intros Hm. unfold yields. by rewrite (bind_ok _ _ _ _ _ Hm). Qed.

Lemma yields_new f (h : heap) : yields (new (TFrame f)) h (Ok f).
Proof. eexists _, _. split; [reflexivity|]. apply lookup_insert_eq. Qed.

Lemma yields_read (r : ref) (k : Frame → M ref) h f x :
  h !! r = Some (TFrame f) → yields (k f) h x → yields (read_frame r ≫= k) h x.
Proof. intros Hr. apply yields_bind. by apply read_frame_at. Qed.

Lemma yields_update (r : ref) change (k : () → M ref) h f x :
  h !! r = Some (TFrame f) →
  (∀ h', h' !! r = Some (TFrame (change f)) → yields (k ()) h' x) →
  yields (update_frame r change ≫= k) h x.
Proof.
  intros Hr Hk. eapply yields_bind; [by apply update_frame_at|].
  apply Hk, lookup_insert_eq.
Qed.

Lemma yields_derive (r : ref) op (k : ref → M ref) h f f' x :
  h !! r = Some (TFrame f) → op f = Ok f' →
  (∀ r' h', h' !! r' = Some (TFrame f') → yields (k r') h' x) →
  yields (derive_frame r op ≫= k) h x.
Proof.
  intros Hr Hop Hk. eapply yields_bind.
  - rewrite (derive_frame_at _ _ f) by done. by rewrite Hop.
  - apply Hk, lookup_insert_eq.
Qed.

Lemma yields_derive_raise (r : ref) op (k : ref → M ref) h f e :
  h !! r = Some (TFrame f) → op f = Raise e →
  yields (derive_frame r op ≫= k) h (Raise e).
Proof.
  intros Hr Hop. exists h. erewrite bind_raise; [done|].
  rewrite (derive_frame_at _ _ f) by done. by rewrite Hop.
Qed.

Lemma yields_derive_last (r : ref) op h f :
  h !! r = Some (TFrame f) → yields (derive_frame r op) h (op f).
Proof.
  intros Hr. unfold yields. rewrite (derive_frame_at _ _ f) by done.
  destruct (op f); [|by eexists].
  eexists _, _. split; [reflexivity|]. apply lookup_insert_eq.
Qed.

Local Arguments assign : simpl never.
Local Arguments assign_values : simpl never.
Local Arguments filter_rows : simpl never.
Local Arguments loc_mask : simpl never.
Local Arguments dropna : simpl never.
Local Arguments select_columns : simpl never.
Local Arguments frame_empty : simpl never.
Local Arguments rename_columns : simpl never.
Local Arguments sort_year_name : simpl never.

(** [create_projects_by_month_summary_m] leaves in a new object the table
    that [create_projects_by_month_summary] returns, and raises when it
    raises. *)
Lemma create_projects_by_month_summary_m_computes to_datetime dt_year
    (h : heap) df d phases :
  h !! df = Some (TDataFrame d) →
  yields (create_projects_by_month_summary_m to_datetime dt_year df phases) h
    (create_projects_by_month_summary to_datetime dt_year d phases).
Proof.
  intros Hdf.
  unfold create_projects_by_month_summary_m, create_projects_by_month_summary.
  eapply yields_bind; [by apply read_dataframe_at|].
  destruct (negb (has_column (columns d) "Date d'affectation"));
    [apply yields_new|].
  unfold effective_dates. cbv zeta.
  destruct (select_columns (with_index d) (columns_needed_of d)) as [sel|e]; simpl.
  2: { exists h. by erewrite bind_raise by reflexivity. }
  eapply yields_bind; [reflexivity|].
  eapply yields_bind; [reflexivity|].
  eapply yields_derive; [apply lookup_insert_eq|reflexivity|].
  clear. intros r h Hr.
  eapply yields_update; [exact Hr|]. clear h Hr. intros h Hr.
  eapply yields_read; [exact Hr|].
  set (f1 := assign "Date effective" _ (filter_rows _ sel)) in *.
  eapply yields_bind with
    (a := ()) (h' := if has_column (fcolumns f1) "Date de création"
                     then <[r := TFrame (loc_mask _ _ _ f1)]> h else h).
  { destruct (has_column _ _); [by apply update_frame_at|done]. }
  match goal with |- yields _ ?h0 _ =>
    assert (Hr' : h0 !! r = Some (TFrame
      (if has_column (fcolumns f1) "Date de création"
       then loc_mask
              (λ row, isna (cell row "Date d'affectation")
                      && negb (isna (cell row "Date de création")))
              "Date effective" (λ row, cell row "Date de création") f1
       else f1)))
      by (destruct (has_column _ _); [apply lookup_insert_eq|done]);
    generalize dependent h0 end.
  clear h Hr. intros h Hr.
  eapply yields_derive; [exact Hr|reflexivity|]. clear h Hr. intros r2 h Hr.
  eapply yields_read; [exact Hr|].
  destruct (frame_empty _); [apply yields_new|].
  eapply yields_update; [exact Hr|]. clear h Hr. intros h Hr.
  eapply yields_derive; [exact Hr|reflexivity|]. clear h Hr. intros r3 h Hr.
  eapply yields_read; [exact Hr|].
  unfold parse_dates. cbv zeta.
  destruct (frame_empty _); [apply yields_new|].
  eapply yields_update; [exact Hr|]. clear h Hr. intros h Hr.
  unfold year_sorted. cbv zeta.
  destruct (select_columns _ ["Année"; "Nom"; "Dernière Note"])
    as [f4|e] eqn:Hsel; simpl.
  2: { by eapply yields_derive_raise. }
  eapply yields_derive; [exact Hr|exact Hsel|]. clear h Hr. intros r4 h Hr.
  eapply yields_update; [exact Hr|]. clear h Hr. intros h Hr.
  eapply yields_derive; [exact Hr|reflexivity|]. clear h Hr. intros r5 h Hr.
  do 3 (eapply yields_update; [exact Hr|]; clear h Hr; intros h Hr).
  eapply yields_read; [exact Hr|].
  eapply yields_bind; [by apply clear_years_loop|].
  unfold clear_repeated_years, count_and_blank. cbv zeta.
  apply (yields_derive_last _ (λ f, select_columns f summary_columns)).
  apply lookup_insert_eq.
Qed.

(** *** Caller's tables *)

Lemma local_unchanged (h : heap) (df : ref) (m : M ref) :
  local h m (outside h) → unchanged h df m.
Proof.
  intros Hm. destruct (Hm h) as [Hsub Hres]; [done|].
  split; [done|]. split; [|done].
  intros t Ht. by apply (lookup_weaken h).
Qed.

Example calculate_charge_jh_hours :
  calculate_charge_jh hours
  = Ok {| columns := ["Nom"; "Soumise (h)"; "Charge JH"];
          rows := [ {[ "Nom" := VStr "P1"; "Soumise (h)" := VNum 12;
                       "Charge JH" := VNum (12 / 8) ]};
                    {[ "Nom" := VStr "P2"; "Soumise (h)" := VNaN;
                       "Charge JH" := VNaN ]} ] |}.
Proof. by vm_compute. Qed.

(** C8: whatever the store holds, [calculate_charge_jh],
    [create_projects_by_month_summary] and [format_resource_summary] leave
    the table they are given, and every other object of the store, as it
    was, and return a new object. *)
Theorem inputs_unchanged (h : heap) (df : ref) (t : table) :
  h !! df = Some t →
  ((calculate_charge_jh_m df h).2 !! df = Some t
   ∧ unchanged h df (calculate_charge_jh_m df))
  ∧ (∀ to_datetime dt_year phases_checked,
       (create_projects_by_month_summary_m to_datetime dt_year df
          phases_checked h).2 !! df = Some t
       ∧ unchanged h df
           (create_projects_by_month_summary_m to_datetime dt_year df
              phases_checked))
  ∧ (∀ get_theoretical_charge connection_dict phase_dict montant_dict,
       (format_resource_summary_m get_theoretical_charge connection_dict
          phase_dict df montant_dict h).2 !! df = Some t
       ∧ unchanged h df
           (format_resource_summary_m get_theoretical_charge connection_dict
              phase_dict df montant_dict)).
Proof.
  intros Ht.
  assert (Hboth : ∀ m, local h m (outside h) →
            (m h).2 !! df = Some t ∧ unchanged h df m).
  { intros m Hm. apply local_unchanged with (df := df) in Hm.
    split; [|done]. by apply Hm. }
  split; [apply Hboth, local_calculate_charge_jh|]. split.
  - intros. apply Hboth, local_create_projects_by_month_summary.
  - intros. apply Hboth, local_format_resource_summary.
Qed.

Lemma inputs_unchanged_witness :
  (calculate_charge_jh_m 1 sample_heap).2 !! 1%positive = Some (TDataFrame hours)
  ∧ (create_projects_by_month_summary_m sample_to_datetime sample_dt_year 2
       None sample_heap).2 !! 2%positive
    = Some (TDataFrame sample_deployments)
  ∧ (format_resource_summary_m one_rule sample_connections sample_phases 3 ∅
       sample_heap).2 !! 3%positive
    = Some (TPivot two_resources).
Proof.
  split; [|split].
  - refine (proj1 (proj1 (inputs_unchanged sample_heap 1 (TDataFrame hours) _))).
    by vm_compute.
  - refine (proj1 (proj1 (proj2 (inputs_unchanged sample_heap 2
              (TDataFrame sample_deployments) _)) _ _ _)).
    by vm_compute.
  - refine (proj1 (proj2 (proj2 (inputs_unchanged sample_heap 3
              (TPivot two_resources) _)) _ _ _ _)).
    by vm_compute.
Defined.
